(** * ID-Tech-6 tools: the bmd6model mesh converter and the Wolfenstein II
      archive extractor.

    A shallow embedding of [md6mesh.py] and [wolfenstein_2_resources.py],
    followed by the properties established about them.

    Conventions.  Python integers are unbounded, so offsets and counts are
    [Z].  A [bytes] object is a [list byte].  A Python [str] is the list of
    its code points.  A call that may raise returns a [result]. *)

From Stdlib Require Import ZArith List Bool Lia String Ascii Strings.Byte.
From Stdlib Require Import DecimalString DecimalN.
From Stdlib Require SpecFloat.
Import ListNotations.
Local Open Scope Z_scope.

(* ===================================================================== *)
(** * Python values shared by the two programs                            *)
(* ===================================================================== *)

Module Py.

(** The exceptions the two programs can meet.  [OutOfFuel] is not a Python
    exception: it marks a loop of the embedding whose fuel ran out, and is
    shown never to occur. *)
Inductive pyexc : Type :=
| StructError | IndexError | ValueError | OverflowError
| ZeroDivisionError | OSError | DecompressError | OutOfFuel.

Inductive result (A : Type) : Type :=
| Ok (a : A)
| Raise (e : pyexc).
Arguments Ok {A} a.
Arguments Raise {A} e.

Definition bytes := list byte.
Definition pystr := list N.

Definition byte_val (b : byte) : Z := Z.of_N (Byte.to_N b).

(** [int.from_bytes(bs, 'little')], the value [struct.unpack] gives for the
    unsigned formats. *)
Fixpoint int_from_le (bs : bytes) : Z :=
  match bs with
  | [] => 0
  | b :: t => byte_val b + 256 * int_from_le t
  end.

Definition len {A : Type} (l : list A) : Z := Z.of_nat (List.length l).

(** Python's treatment of a slice bound: a negative bound counts from the
    end, and every bound is clipped to the sequence. *)
Definition clamp_index (n i : Z) : Z :=
  if i <? 0 then Z.max (i + n) 0 else Z.min i n.

(** [l[a:b]] *)
Definition py_slice {A : Type} (l : list A) (a b : Z) : list A :=
  let a' := clamp_index (len l) a in
  let b' := clamp_index (len l) b in
  firstn (Z.to_nat (b' - a')) (skipn (Z.to_nat a') l).

(** [l[i]]: a negative index counts from the end, an index out of range
    raises [IndexError]. *)
Definition py_getitem {A : Type} (l : list A) (i : Z) : result A :=
  let j := if i <? 0 then i + len l else i in
  if j <? 0 then Raise IndexError
  else match nth_error l (Z.to_nat j) with
       | Some x => Ok x
       | None => Raise IndexError
       end.

Fixpoint list_update {A : Type} (l : list A) (n : nat) (x : A) : list A :=
  match l, n with
  | [], _ => []
  | _ :: t, O => x :: t
  | h :: t, S n' => h :: list_update t n' x
  end.

(** [l[i] = x] *)
Definition py_setitem {A : Type} (l : list A) (i : Z) (x : A) : result (list A) :=
  let j := if i <? 0 then i + len l else i in
  if (0 <=? j) && (j <? len l) then Ok (list_update l (Z.to_nat j) x)
  else Raise IndexError.

(** A string literal of the source, as a [str]. *)
Definition lit (s : string) : pystr :=
  map N_of_ascii (list_ascii_of_string s).

(** A bytes literal of the source. *)
Definition blit (s : string) : bytes := list_byte_of_string s.

Definition bytes_eqb (a b : bytes) : bool :=
  if list_eq_dec Byte.byte_eq_dec a b then true else false.

Definition str_eqb (a b : pystr) : bool :=
  if list_eq_dec N.eq_dec a b then true else false.

End Py.

Import Py.

(* ===================================================================== *)
(** * md6mesh.py                                                          *)
(* ===================================================================== *)

Module Md6Mesh.

(** Python floats.  The converter reads IEEE binary32 values and computes
    on them as binary64; what it does with them is kept behind this
    interface, instantiated by [Binary64] below.  [**], [math.sqrt] and
    [/] can raise ([OverflowError], [ValueError], [ZeroDivisionError]). *)
Class PyFloat : Type := {
  float : Type;
  unpack_f : bytes -> float;
  fconst0 : float;
  fconst1 : float;
  fneg : float -> float;
  fadd : float -> float -> float;
  fsub : float -> float -> float;
  fmul : float -> float -> float;
  fdiv : float -> float -> result float;
  fsquare : float -> result float;
  fsqrt : float -> result float;
  fgt : float -> float -> bool
}.

(** The one exception each of the three can raise. *)
Class PyFloatLaws (F : PyFloat) : Prop := {
  fdiv_raises : forall x y e, fdiv x y = Raise e -> e = ZeroDivisionError;
  fsquare_raises : forall x e, fsquare x = Raise e -> e = OverflowError;
  fsqrt_raises : forall x e, fsqrt x = Raise e -> e = ValueError
}.

Definition bind {A B : Type} (r : result A) (k : A -> result B) : result B :=
  match r with
  | Ok a => k a
  | Raise e => Raise e
  end.

Notation "x <- c ;; k" := (bind c (fun x => k))
  (at level 61, c at next level, right associativity).
Notation "' pat <- c ;; k" := (bind c (fun x => match x with pat => k end))
  (at level 61, pat pattern, c at next level, right associativity).

Section Mesh.
Context {F : PyFloat}.

Definition vec3 : Type := float * float * float.
Definition uv : Type := float * float.
Definition face : Type := Z * Z * Z.

Definition HEADER_SIZE : Z := 64.
Definition BUFFER_MARKERS : list bytes :=
  [ [x01; x01; x00; x00; x00; x00; x00; x00];
    [x01; x01; x00; x00; x00; x10; x00; x00] ].
Definition SKIP_TO_VERTEX_COUNT : Z := 19.
Definition SKIP_TO_FACE_COUNT : Z := 2.
Definition SKIP_TO_FIRST_VERTEX : Z := 26.
Definition VERTEX_STRIDE : Z := 48.

Definition ROTATE_X_MINUS_90 : bool := true.
Definition FLIP_UV_MAPS : bool := true.
Definition FLIP_FACE_ORIENTATION : bool := true.
Definition SHADE_SMOOTH : bool := true.

(** [struct.unpack('<H', b)[0]] *)
Definition unpack_H (b : bytes) : result Z :=
  if len b =? 2 then Ok (int_from_le b) else Raise StructError.

(** [struct.unpack('<f', b)[0]] *)
Definition unpack_float (b : bytes) : result float :=
  if len b =? 4 then Ok (unpack_f b) else Raise StructError.

Definition read_int16_le (data : bytes) (offset : Z) : result Z :=
  unpack_H (py_slice data offset (offset + 2)).

Definition read_float_le (data : bytes) (offset : Z) : result float :=
  unpack_float (py_slice data offset (offset + 4)).

Definition rotate_x_minus_90 (vertices : list vec3) : list vec3 :=
  map (fun '(x, y, z) => (x, z, fneg y)) vertices.

Definition flip_uvs (uvs : list uv) : list uv :=
  map (fun '(u, v) => (u, fsub fconst1 v)) uvs.

Definition flip_faces (faces : list face) : list face :=
  map (fun '(f0, f1, f2) => (f0, f2, f1)) faces.

(** [normals[idx][0] += nx; normals[idx][1] += ny; normals[idx][2] += nz] *)
Definition accumulate (normals : list vec3) (idx : Z) (n : vec3) : result (list vec3) :=
  let '(nx, ny, nz) := n in
  '(a, b, c) <- py_getitem normals idx ;;
  py_setitem normals idx (fadd a nx, fadd b ny, fadd c nz).

(** The body of [for face in faces] of [calculate_vertex_normals]. *)
Definition face_normal_step (vertices : list vec3) (normals : list vec3) (fc : face)
  : result (list vec3) :=
  let '(i0, i1, i2) := fc in
  '(v0x, v0y, v0z) <- py_getitem vertices i0 ;;
  '(v1x, v1y, v1z) <- py_getitem vertices i1 ;;
  '(v2x, v2y, v2z) <- py_getitem vertices i2 ;;
  let edge1 := (fsub v1x v0x, fsub v1y v0y, fsub v1z v0z) in
  let edge2 := (fsub v2x v0x, fsub v2y v0y, fsub v2z v0z) in
  let '(e1x, e1y, e1z) := edge1 in
  let '(e2x, e2y, e2z) := edge2 in
  let nx := fsub (fmul e1y e2z) (fmul e1z e2y) in
  let ny := fsub (fmul e1z e2x) (fmul e1x e2z) in
  let nz := fsub (fmul e1x e2y) (fmul e1y e2x) in
  normals <- accumulate normals i0 (nx, ny, nz) ;;
  normals <- accumulate normals i1 (nx, ny, nz) ;;
  accumulate normals i2 (nx, ny, nz).

Fixpoint accumulate_faces (vertices : list vec3) (faces : list face) (normals : list vec3)
  : result (list vec3) :=
  match faces with
  | [] => Ok normals
  | fc :: rest =>
      normals <- face_normal_step vertices normals fc ;;
      accumulate_faces vertices rest normals
  end.

(** The body of [for n in normals]. *)
Definition normalize (n : vec3) : result vec3 :=
  let '(n0, n1, n2) := n in
  s0 <- fsquare n0 ;;
  s1 <- fsquare n1 ;;
  s2 <- fsquare n2 ;;
  length <- fsqrt (fadd (fadd s0 s1) s2) ;;
  if fgt length fconst0 then
    a <- fdiv n0 length ;;
    b <- fdiv n1 length ;;
    c <- fdiv n2 length ;;
    Ok (a, b, c)
  else Ok (fconst0, fconst0, fconst1).

Fixpoint normalize_all (normals : list vec3) (normalized_normals : list vec3)
  : result (list vec3) :=
  match normals with
  | [] => Ok normalized_normals
  | n :: rest =>
      v <- normalize n ;;
      normalize_all rest (normalized_normals ++ [v])
  end.

Definition calculate_vertex_normals (vertices : list vec3) (faces : list face)
  : result (list vec3) :=
  let normals := map (fun _ => (fconst0, fconst0, fconst0)) vertices in
  normals <- accumulate_faces vertices faces normals ;;
  normalize_all normals [].

(** The dictionary [extract_model] builds; [normals] is absent (or [None])
    until [apply_transforms] sets it. *)
Record model_data : Type := mkModel {
  vertices : list vec3;
  uvs : list uv;
  faces : list face;
  vertex_count : Z;
  face_count : Z;
  normals : option (list vec3)
}.

Definition apply_transforms (md : model_data) : result model_data :=
  let md :=
    if ROTATE_X_MINUS_90
    then mkModel (rotate_x_minus_90 (vertices md)) (uvs md) (faces md)
                 (vertex_count md) (face_count md) (normals md)
    else md in
  let md :=
    if FLIP_UV_MAPS
    then mkModel (vertices md) (flip_uvs (uvs md)) (faces md)
                 (vertex_count md) (face_count md) (normals md)
    else md in
  let md :=
    if FLIP_FACE_ORIENTATION
    then mkModel (vertices md) (uvs md) (flip_faces (faces md))
                 (vertex_count md) (face_count md) (normals md)
    else md in
  if SHADE_SMOOTH then
    ns <- calculate_vertex_normals (vertices md) (faces md) ;;
    Ok (mkModel (vertices md) (uvs md) (faces md)
                (vertex_count md) (face_count md) (Some ns))
  else
    Ok (mkModel (vertices md) (uvs md) (faces md)
                (vertex_count md) (face_count md) None).

(** [for marker in BUFFER_MARKERS: if data[i:i+marker_len] == marker] *)
Fixpoint match_marker (data : bytes) (i marker_len : Z) (markers : list bytes)
  : option bytes :=
  match markers with
  | [] => None
  | marker :: rest =>
      if bytes_eqb (py_slice data i (i + marker_len)) marker then Some marker
      else match_marker data i marker_len rest
  end.

(** [for i in range(i, ...)], with [count] values of [i] left to try. *)
Fixpoint scan_markers (data : bytes) (marker_len : Z) (count : nat) (i : Z)
  : Z * option bytes :=
  match count with
  | O => (-1, None)
  | S count' =>
      match match_marker data i marker_len BUFFER_MARKERS with
      | Some marker => (i, Some marker)
      | None => scan_markers data marker_len count' (i + 1)
      end
  end.

Definition find_buffer_marker (data : bytes) (start_offset : Z) : Z * option bytes :=
  let marker_len := len (nth 0 BUFFER_MARKERS []) in
  scan_markers data marker_len
    (Z.to_nat (len data - marker_len + 1 - start_offset)) start_offset.

(** [for i in range(vertex_count)], with [count] records left to read. *)
Fixpoint read_vertices (data : bytes) (count : nat) (offset : Z)
  (vertices : list vec3) (uvs : list uv) : result (list vec3 * list uv * Z) :=
  match count with
  | O => Ok (vertices, uvs, offset)
  | S count' =>
      x <- read_float_le data offset ;;
      y <- read_float_le data (offset + 4) ;;
      z <- read_float_le data (offset + 8) ;;
      let vertices := vertices ++ [(x, y, z)] in
      u <- read_float_le data (offset + 12) ;;
      v <- read_float_le data (offset + 16) ;;
      let uvs := uvs ++ [(u, v)] in
      read_vertices data count' (offset + VERTEX_STRIDE) vertices uvs
  end.

(** [for i in range(face_count)], with [count] records left to read. *)
Fixpoint read_faces (data : bytes) (count : nat) (offset : Z) (faces : list face)
  : result (list face * Z) :=
  match count with
  | O => Ok (faces, offset)
  | S count' =>
      idx1 <- read_int16_le data offset ;;
      idx2 <- read_int16_le data (offset + 2) ;;
      idx3 <- read_int16_le data (offset + 4) ;;
      read_faces data count' (offset + 6) (faces ++ [(idx1, idx2, idx3)])
  end.

(** The three places [extract_model] computes from the marker offset.
    [len(BUFFER_MARKERS)] is the length of the tuple of markers. *)
Definition vertex_count_offset (marker_offset : Z) : Z :=
  marker_offset + len BUFFER_MARKERS + SKIP_TO_VERTEX_COUNT.

Definition face_count_offset (marker_offset : Z) : Z :=
  vertex_count_offset marker_offset + 2 + SKIP_TO_FACE_COUNT.

Definition first_vertex_offset (marker_offset : Z) : Z :=
  face_count_offset marker_offset + 2 + SKIP_TO_FIRST_VERTEX.

Definition extract_model (data : bytes) (start_search_offset : Z)
  : result (option model_data * Z) :=
  let '(marker_offset, marker) := find_buffer_marker data start_search_offset in
  if marker_offset =? -1 then Ok (None, -1)
  else
    let offset := marker_offset + len BUFFER_MARKERS in
    let offset := offset + SKIP_TO_VERTEX_COUNT in
    vertex_count <- read_int16_le data offset ;;
    let offset := offset + 2 in
    let offset := offset + SKIP_TO_FACE_COUNT in
    face_count <- read_int16_le data offset ;;
    let offset := offset + 2 in
    let offset := offset + SKIP_TO_FIRST_VERTEX in
    '(vertices, uvs, offset) <-
      read_vertices data (Z.to_nat vertex_count) offset [] [] ;;
    '(faces, offset) <- read_faces data (Z.to_nat face_count) offset [] ;;
    Ok (Some (mkModel vertices uvs faces vertex_count face_count None), offset).

(** ** Vocabulary of the properties *)

(** Every index of the face lies in [0, n). *)
Definition face_in (n : Z) (fc : face) : Prop :=
  let '(a, b, c) := fc in 0 <= a < n /\ 0 <= b < n /\ 0 <= c < n.

(** The invariant of a model part: as many UVs as vertices, and faces that
    index the vertices. *)
Definition well_formed (md : model_data) : Prop :=
  List.length (uvs md) = List.length (vertices md)
  /\ Forall (face_in (len (vertices md))) (faces md).

(** The 16-bit value at [off] can be read and is below [vc]. *)
Definition index_ok (data : bytes) (vc off : Z) : bool :=
  match read_int16_le data off with
  | Ok idx => idx <? vc
  | Raise _ => false
  end.

(** The [count] face records from [off] on hold indices below [vc]. *)
Fixpoint faces_ok (data : bytes) (vc : Z) (count : nat) (off : Z) : bool :=
  match count with
  | O => true
  | S count' =>
      index_ok data vc off && index_ok data vc (off + 2) && index_ok data vc (off + 4)
      && faces_ok data vc count' (off + 6)
  end.

(** A valid mesh input: searching from [start] finds a marker, the vertex
    and face counts declared after it fit in the buffer, and the face
    indices reference declared vertices. *)
Definition valid_mesh (data : bytes) (start : Z) : bool :=
  (0 <=? start)
  && match find_buffer_marker data start with
     | (m, Some _) =>
         match read_int16_le data (vertex_count_offset m),
               read_int16_le data (face_count_offset m) with
         | Ok vc, Ok fc =>
             (first_vertex_offset m + VERTEX_STRIDE * vc + 6 * fc <=? len data)
             && faces_ok data vc (Z.to_nat fc) (first_vertex_offset m + VERTEX_STRIDE * vc)
         | _, _ => false
         end
     | (_, None) => false
     end.

End Mesh.

(** The exceptions float arithmetic can raise. *)
Definition float_error (e : pyexc) : Prop :=
  e = OverflowError \/ e = ValueError \/ e = ZeroDivisionError.



(** ** Binary64 arithmetic for [PyFloat], from the standard library's
    executable specification of IEEE 754. *)

Definition prec64 : Z := 53.
Definition emax64 : Z := 1024.

(** The binary32 value of a 4-byte little-endian pattern, as a binary64. *)
Definition float_of_bits32 (w : Z) : SpecFloat.spec_float :=
  let s := Z.testbit w 31 in
  let e := Z.land (Z.shiftr w 23) 255 in
  let m := Z.land w 8388607 in
  let signed (k : Z) := if s then - k else k in
  if e =? 255 then
    if m =? 0 then SpecFloat.S754_infinity s else SpecFloat.S754_nan
  else if e =? 0 then
    if m =? 0 then SpecFloat.S754_zero s
    else SpecFloat.binary_normalize prec64 emax64 (signed m) (-149) s
  else SpecFloat.binary_normalize prec64 emax64 (signed (m + 8388608)) (e - 150) s.

Definition sf_is_nan (x : SpecFloat.spec_float) : bool :=
  match x with SpecFloat.S754_nan => true | _ => false end.

Definition sf_is_inf (x : SpecFloat.spec_float) : bool :=
  match x with SpecFloat.S754_infinity _ => true | _ => false end.

Definition sf_is_zero (x : SpecFloat.spec_float) : bool :=
  match x with SpecFloat.S754_zero _ => true | _ => false end.

(** [x ** 2]: an overflow of a finite operand raises [OverflowError]. *)
Definition sf_square (x : SpecFloat.spec_float) : result SpecFloat.spec_float :=
  let r := SpecFloat.SFmul prec64 emax64 x x in
  if sf_is_inf r && negb (sf_is_inf x) then Raise OverflowError else Ok r.

(** [math.sqrt(x)]: a negative operand raises [ValueError]. *)
Definition sf_sqrt (x : SpecFloat.spec_float) : result SpecFloat.spec_float :=
  if SpecFloat.SFltb x (SpecFloat.S754_zero false) then Raise ValueError
  else Ok (SpecFloat.SFsqrt prec64 emax64 x).

(** [x / y]: a zero divisor raises [ZeroDivisionError]. *)
Definition sf_div (x y : SpecFloat.spec_float) : result SpecFloat.spec_float :=
  if sf_is_zero y then Raise ZeroDivisionError
  else Ok (SpecFloat.SFdiv prec64 emax64 x y).

(** Python's [float], with [x ** 2] taken as the correctly rounded square. *)
#[export] Instance Binary64 : PyFloat := {
  float := SpecFloat.spec_float;
  unpack_f := fun b => float_of_bits32 (int_from_le b);
  fconst0 := SpecFloat.S754_zero false;
  fconst1 := SpecFloat.SFone prec64 emax64;
  fneg := SpecFloat.SFopp;
  fadd := SpecFloat.SFadd prec64 emax64;
  fsub := SpecFloat.SFsub prec64 emax64;
  fmul := SpecFloat.SFmul prec64 emax64;
  fdiv := sf_div;
  fsquare := sf_square;
  fsqrt := sf_sqrt;
  fgt := fun x y => SpecFloat.SFltb y x
}.

End Md6Mesh.

(* ===================================================================== *)
(** * wolfenstein_2_resources.py                                          *)
(* ===================================================================== *)

Module Wolf2.

(** ** [str] and [bytes] methods the extractor calls *)

(** The [errors=] argument of [bytes.decode]. *)
Inductive decode_errors : Type := ErrorsIgnore | ErrorsReplace.

(** What the error handler puts in place of a malformed sequence: nothing,
    or U+FFFD. *)
Definition on_error (h : decode_errors) : pystr :=
  match h with
  | ErrorsIgnore => []
  | ErrorsReplace => [65533%N]
  end.

Definition is_continuation (c : Z) : bool := (128 <=? c) && (c <=? 191).

(** The second byte a three-byte lead accepts ([E0] needs [A0..BF], [ED]
    needs [80..9F]). *)
Definition second_of_3 (c1 c2 : Z) : bool :=
  is_continuation c2
  && negb ((c2 <? 160) && (c1 =? 224))
  && negb ((160 <=? c2) && (c1 =? 237)).

(** The second byte a four-byte lead accepts ([F0] needs [90..BF], [F4]
    needs [80..8F]). *)
Definition second_of_4 (c1 c2 : Z) : bool :=
  is_continuation c2
  && negb ((c2 <? 144) && (c1 =? 240))
  && negb ((144 <=? c2) && (c1 =? 244)).

(** [bs.decode('utf-8', errors=h)].  A malformed sequence ends before the
    first byte that cannot continue it, and decoding resumes there. *)
Fixpoint utf8_decode (h : decode_errors) (bs : bytes) : pystr :=
  match bs with
  | [] => []
  | b1 :: r1 =>
      let c1 := byte_val b1 in
      if c1 <? 128 then Z.to_N c1 :: utf8_decode h r1
      else if (194 <=? c1) && (c1 <=? 223) then
        match r1 with
        | [] => on_error h
        | b2 :: r2 =>
            let c2 := byte_val b2 in
            if is_continuation c2
            then Z.to_N ((c1 - 192) * 64 + (c2 - 128)) :: utf8_decode h r2
            else on_error h ++ utf8_decode h r1
        end
      else if (224 <=? c1) && (c1 <=? 239) then
        match r1 with
        | [] => on_error h
        | b2 :: r2 =>
            let c2 := byte_val b2 in
            if second_of_3 c1 c2 then
              match r2 with
              | [] => on_error h
              | b3 :: r3 =>
                  let c3 := byte_val b3 in
                  if is_continuation c3
                  then Z.to_N ((c1 - 224) * 4096 + (c2 - 128) * 64 + (c3 - 128))
                       :: utf8_decode h r3
                  else on_error h ++ utf8_decode h r2
              end
            else on_error h ++ utf8_decode h r1
        end
      else if (240 <=? c1) && (c1 <=? 244) then
        match r1 with
        | [] => on_error h
        | b2 :: r2 =>
            let c2 := byte_val b2 in
            if second_of_4 c1 c2 then
              match r2 with
              | [] => on_error h
              | b3 :: r3 =>
                  let c3 := byte_val b3 in
                  if is_continuation c3 then
                    match r3 with
                    | [] => on_error h
                    | b4 :: r4 =>
                        let c4 := byte_val b4 in
                        if is_continuation c4
                        then Z.to_N ((c1 - 240) * 262144 + (c2 - 128) * 4096
                                     + (c3 - 128) * 64 + (c4 - 128))
                             :: utf8_decode h r4
                        else on_error h ++ utf8_decode h r3
                    end
                  else on_error h ++ utf8_decode h r2
              end
            else on_error h ++ utf8_decode h r1
        end
      else on_error h ++ utf8_decode h r1
  end.

Fixpoint starts_with (p s : pystr) : bool :=
  match p, s with
  | [], _ => true
  | _ :: _, [] => false
  | a :: p', b :: s' => (a =? b)%N && starts_with p' s'
  end.

(** [sub in s] *)
Fixpoint str_contains (sub s : pystr) : bool :=
  starts_with sub s
  || match s with
     | [] => false
     | _ :: t => str_contains sub t
     end.

(** [s.split(sep)[0]], for a non-empty [sep]. *)
Fixpoint split_head (sep s : pystr) : pystr :=
  if starts_with sep s then []
  else match s with
       | [] => []
       | c :: t => c :: split_head sep t
       end.

(** [s.rsplit(c, 1)] for a one-character separator: [Some (before, after)]
    the last [c], [None] when [s] has no [c] (the list [[s]]). *)
Fixpoint rsplit1 (c : N) (s : pystr) : option (pystr * pystr) :=
  match s with
  | [] => None
  | x :: t =>
      match rsplit1 c t with
      | Some (before, after) => Some (x :: before, after)
      | None => if (x =? c)%N then Some ([], t) else None
      end
  end.

(** [s.split(c)[-1]] for a one-character separator. *)
Definition split_last (c : N) (s : pystr) : pystr :=
  match rsplit1 c s with
  | Some (_, after) => after
  | None => s
  end.

(** [s.replace(a, b)] for one-character [a] and [b]. *)
Definition str_replace (a b : N) (s : pystr) : pystr :=
  map (fun x => if (x =? a)%N then b else x) s.

Definition chr (s : string) : N :=
  match s with
  | String a _ => N_of_ascii a
  | EmptyString => 0%N
  end.

Definition zfill (width : nat) (digits : pystr) : pystr :=
  repeat (chr "0") (width - List.length digits) ++ digits.

(** [f"{i:08d}"] *)
Definition format_08d (i : Z) : pystr :=
  if i <? 0
  then chr "-" :: zfill 7 (lit (NilZero.string_of_uint (N.to_uint (Z.to_N (- i)))))
  else zfill 8 (lit (NilZero.string_of_uint (N.to_uint (Z.to_N i)))).

(** A decimal digit. *)
Definition is_digit (c : N) : Prop := (48 <= c <= 57)%N.

(** ** The loaded archive, the file system and the decompressor *)

(** [pathlib] and the part of the file system the extractor touches.  A
    path is kept as its [str].  An operation that raises leaves the file
    system as it was. *)
Class FileSystem : Type := {
  fs : Type;
  (** [Path(p).stem] *)
  path_stem : pystr -> pystr;
  (** [str(Path(a) / b)] *)
  path_join : pystr -> pystr -> pystr;
  (** [str(Path(s))] *)
  path_of_str : pystr -> pystr;
  (** [str(Path(p).parent)] *)
  path_parent : pystr -> pystr;
  (** [os.makedirs(p, exist_ok=True)], [Path(p).mkdir(parents=True, exist_ok=True)] *)
  fs_makedirs : fs -> pystr -> result fs;
  (** [Path(p).exists() and Path(p).is_dir()] *)
  fs_is_dir : fs -> pystr -> bool;
  (** [with open(p, 'wb') as out: out.write(data)] *)
  fs_write : fs -> pystr -> bytes -> result fs
}.

(** What a run does that can be seen from outside: the files it writes
    and the calls it makes to the decompressor. *)
Inductive event : Type :=
| EvWrite (path : pystr) (data : bytes)
| EvDecompress (data : bytes) (decompressed_size : Z).

Section Extractor.
Context {FS : FileSystem}.

(** The module globals [load_oodle] sets: [oodle_decompress] is [None] or a
    function that returns the decompressed bytes or raises. *)
Variable OODLE_AVAILABLE : bool.
Variable oodle_decompress : option (bytes -> Z -> result bytes).

Definition EXTRACT_GARBAGE : bool := false.

(** The open archive [f] (its bytes and its cursor, which is never
    negative), the file system, and the trace of the run so far. *)
Record world : Type := mkWorld {
  f_bytes : bytes;
  f_pos : nat;
  w_fs : fs;
  w_trace : list event
}.

(** A computation on the world.  An exception leaves the world as it was
    when it was raised. *)
Definition M (A : Type) : Type := world -> result A * world.

Definition ret {A : Type} (a : A) : M A := fun w => (Ok a, w).

Definition bind {A B : Type} (m : M A) (k : A -> M B) : M B :=
  fun w =>
    match m w with
    | (Ok a, w') => k a w'
    | (Raise e, w') => (Raise e, w')
    end.

Definition raise {A : Type} (e : pyexc) : M A := fun w => (Raise e, w).

Definition lift {A : Type} (r : result A) : M A := fun w => (r, w).

(** [try: body except Exception: handler] *)
Definition try_except {A : Type} (body : M A) (handler : M A) : M A :=
  fun w =>
    match body w with
    | (Ok a, w') => (Ok a, w')
    | (Raise _, w') => handler w'
    end.

Notation "x <- c ;; k" := (bind c (fun x => k))
  (at level 61, c at next level, right associativity).
Notation "' pat <- c ;; k" := (bind c (fun x => match x with pat => k end))
  (at level 61, pat pattern, c at next level, right associativity).
Notation "c ;;; k" := (bind c (fun _ => k))
  (at level 61, right associativity).

Definition set_pos (w : world) (p : nat) : world :=
  mkWorld (f_bytes w) p (w_fs w) (w_trace w).

(** [f.read(n)]: at most [n] bytes from the cursor, which moves past what
    was read; [-1] reads to the end of the file.  A size that does not fit
    a signed 64-bit integer raises; what the memory allows is left out. *)
Definition f_read (n : Z) : M bytes :=
  fun w =>
    if n <? -1 then (Raise ValueError, w)
    else if 2 ^ 63 <=? n then (Raise OverflowError, w)
    else
      let rest := skipn (f_pos w) (f_bytes w) in
      let data := if n =? -1 then rest else firstn (Z.to_nat n) rest in
      (Ok data, set_pos w (f_pos w + List.length data)%nat).

(** [f.seek(offset)]: any position from 0 on, also past the end. *)
Definition f_seek (offset : Z) : M unit :=
  fun w =>
    if offset <? 0 then (Raise OSError, w)
    else if 2 ^ 63 <=? offset then (Raise ValueError, w)
    else (Ok tt, set_pos w (Z.to_nat offset)).

(** [f.tell()] *)
Definition f_tell : M Z := fun w => (Ok (Z.of_nat (f_pos w)), w).

(** [struct.unpack('<I', b)[0]] *)
Definition unpack_I (b : bytes) : result Z :=
  if len b =? 4 then Ok (int_from_le b) else Raise StructError.

(** [struct.unpack('<Q', b)[0]] *)
Definition unpack_Q (b : bytes) : result Z :=
  if len b =? 8 then Ok (int_from_le b) else Raise StructError.

Definition read_u32 : M Z := b <- f_read 4 ;; lift (unpack_I b).
Definition read_u64 : M Z := b <- f_read 8 ;; lift (unpack_Q b).

(** [while True] of [read_cstring], with [fuel] iterations allowed. *)
Fixpoint read_cstring_loop (fuel : nat) (chars : list bytes) : M pystr :=
  match fuel with
  | O => raise OutOfFuel
  | S fuel' =>
      c <- f_read 1 ;;
      if bytes_eqb c [] || bytes_eqb c [x00]
      then ret (utf8_decode ErrorsIgnore (List.concat chars))
      else read_cstring_loop fuel' (chars ++ [c])
  end.

(** Every iteration but the last consumes a byte, so one more iteration
    than there are bytes after the cursor is enough. *)
Definition read_cstring : M pystr :=
  fun w =>
    read_cstring_loop (S (List.length (skipn (f_pos w) (f_bytes w)))) [] w.

Definition sanitize_filename (name : pystr) : pystr :=
  let name := str_replace (chr "$") (chr "_") name in
  let name := str_replace (chr "#") (chr "_") name in
  let name := str_replace (chr "<") (chr "_") name in
  let name := str_replace (chr ">") (chr "_") name in
  let name := str_replace (chr ":") (chr "_") name in
  let name := str_replace (chr "|") (chr "_") name in
  let name := str_replace (chr "?") (chr "_") name in
  let name := str_replace (chr "*") (chr "_") name in
  let name := str_replace 34%N (chr "_") name in
  name.

Definition is_garbage_file (filename : pystr) (size : Z) : bool :=
  if negb EXTRACT_GARBAGE then
    if negb (str_contains (lit "/") filename) && negb (str_contains (lit "\") filename) then
      if negb (str_contains (lit ".") filename) then
        if size <? 100 then true else false
      else false
    else false
  else false.

(** Lines 176-191 of [extract_resources]: what is done to a name read from
    the string table before it is stored. *)
Definition clean_name (name : pystr) : pystr :=
  let name :=
    if str_contains (lit "_lodgroup=") name then split_head (lit "_lodgroup=") name
    else name in
  let name :=
    if str_contains (lit "_streamdb=") name then split_head (lit "_streamdb=") name
    else name in
  let name :=
    if str_contains (lit "_group=") name then split_head (lit "_group=") name
    else name in
  let name :=
    if str_contains (lit ".") name then
      match rsplit1 (chr ".") name with
      | Some (basename, extension) =>
          let extension :=
            if str_contains (lit "_") extension then split_head (lit "_") extension
            else extension in
          basename ++ lit "." ++ extension
      | None => name
      end
    else name in
  sanitize_filename name.

(** [os.makedirs(p, exist_ok=True)] and [Path(p).mkdir(parents=True,
    exist_ok=True)] *)
Definition makedirs (p : pystr) : M unit :=
  fun w =>
    match fs_makedirs (w_fs w) p with
    | Ok fs' => (Ok tt, mkWorld (f_bytes w) (f_pos w) fs' (w_trace w))
    | Raise e => (Raise e, w)
    end.

(** [with open(path, 'wb') as out: out.write(data)] *)
Definition write_file (path : pystr) (data : bytes) : M unit :=
  fun w =>
    match fs_write (w_fs w) path data with
    | Ok fs' =>
        (Ok tt, mkWorld (f_bytes w) (f_pos w) fs' (w_trace w ++ [EvWrite path data]))
    | Raise e => (Raise e, w)
    end.

(** [decompress(data, size)] *)
Definition call_decompress (decompress : bytes -> Z -> result bytes)
  (data : bytes) (decompressed_size : Z) : M bytes :=
  fun w =>
    (decompress data decompressed_size,
     mkWorld (f_bytes w) (f_pos w) (w_fs w)
             (w_trace w ++ [EvDecompress data decompressed_size])).

Record header : Type := mkHeader {
  version : Z;
  files_count : Z;
  dummy_num : Z;
  dummy2_num : Z;
  files_2 : Z;
  names_off : Z;
  dummy4_off : Z;
  info_off : Z;
  dummy6_off : Z;
  dummy7_off : Z;
  data_off : Z
}.

(** Lines 134-157: the header after the magic tag. *)
Definition read_header : M header :=
  version <- read_u32 ;;
  f_read 8 ;;;
  f_read 4 ;;;
  f_read 4 ;;;
  f_read 4 ;;;
  f_read 4 ;;;
  f_read 8 ;;;
  files_count <- read_u32 ;;
  dummy_num <- read_u32 ;;
  dummy2_num <- read_u32 ;;
  files_2 <- read_u32 ;;
  f_read 8 ;;;
  f_read 8 ;;;
  names_off <- read_u64 ;;
  dummy4_off <- read_u64 ;;
  info_off <- read_u64 ;;
  dummy6_off <- read_u64 ;;
  dummy7_off <- read_u64 ;;
  data_off <- read_u64 ;;
  ret (mkHeader version files_count dummy_num dummy2_num files_2 names_off
                dummy4_off info_off dummy6_off dummy7_off data_off).

(** Lines 165-167: [for i in range(names_count)], [count] offsets left. *)
Fixpoint read_name_offsets (count : nat) (name_offsets : list Z) : M (list Z) :=
  match count with
  | O => ret name_offsets
  | S count' =>
      name_off <- read_u64 ;;
      read_name_offsets count' (name_offsets ++ [name_off])
  end.

(** Lines 172-192: [for i, name_off in enumerate(name_offsets)]. *)
Fixpoint read_names (names_base : Z) (name_offsets : list Z) (i : Z)
  (names : list pystr) : M (list pystr) :=
  match name_offsets with
  | [] => ret names
  | name_off :: rest =>
      f_seek (names_base + name_off) ;;;
      name <- read_cstring ;;
      let name := clean_name name in
      names <- lift (py_setitem names i name) ;;
      read_names names_base rest (i + 1) names
  end.

(** Lines 195-196: [for i in range(dummy2_num): f.read(4)]. *)
Fixpoint skip_entries (count : nat) : M unit :=
  match count with
  | O => ret tt
  | S count' => f_read 4 ;;; skip_entries count'
  end.

(** Lines 194-197: the auxiliary-table pass; the value is the new
    [dummy7_off]. *)
Definition skip_dummy2 (dummy7_off dummy2_num : Z) : M Z :=
  f_seek dummy7_off ;;;
  skip_entries (Z.to_nat dummy2_num) ;;;
  f_tell.

(** The fields the loop keeps of one record. *)
Record file_record : Type := mkRecord {
  type_id : Z;
  name_id : Z;
  offset : Z;
  zsize : Z;
  size : Z;
  zip_flags : Z
}.

(** Lines 204-230. *)
Definition read_record : M file_record :=
  f_read 8 ;;;
  f_read 8 ;;;
  f_read 8 ;;;
  type_id <- read_u64 ;;
  name_id <- read_u64 ;;
  f_read 8 ;;;
  f_read 8 ;;;
  offset <- read_u64 ;;
  zsize <- read_u64 ;;
  size <- read_u64 ;;
  f_read 8 ;;;
  f_read 4 ;;;
  f_read 4 ;;;
  f_read 8 ;;;
  f_read 4 ;;;
  f_read 4 ;;;
  zip_flags <- read_u64 ;;
  f_read 8 ;;;
  f_read 4 ;;;
  f_read 4 ;;;
  f_read 8 ;;;
  ret (mkRecord type_id name_id offset zsize size zip_flags).

(** Lines 232-243: the saved cursor, and the two entries of the
    indirection table. *)
Definition lookup_ids (dummy7_off : Z) (rec : file_record) : M (Z * Z * Z) :=
  current_pos <- f_tell ;;
  let type_idx := type_id rec * 8 + dummy7_off in
  let name_idx := (name_id rec + 1) * 8 + dummy7_off in
  f_seek type_idx ;;;
  type_str_id <- read_u64 ;;
  f_seek name_idx ;;;
  name_str_id <- read_u64 ;;
  f_seek current_pos ;;;
  ret (current_pos, type_str_id, name_str_id).

(** Line 245: [names[name_str_id] if name_str_id < names_count else ""]. *)
Definition lookup_name (names : list pystr) (names_count name_str_id : Z)
  : result pystr :=
  if name_str_id <? names_count then py_getitem names name_str_id else Ok [].

(** Lines 247-248. *)
Definition make_filename (i : Z) (str2 : pystr) : pystr :=
  let filename :=
    match str2 with
    | [] => lit "file_" ++ format_08d i ++ lit ".dat"
    | _ :: _ => str2
    end in
  str_replace (chr "\") (chr "/") filename.

(** Lines 254-262. *)
Definition make_output_path (output_dir filename : pystr) : M pystr :=
  fun w =>
    let output_path := path_join output_dir filename in
    let output_path :=
      if fs_is_dir (w_fs w) output_path
      then path_of_str (output_path ++ lit ".file")
      else output_path in
    let output_path :=
      if negb (str_contains (lit ".") (split_last (chr "/") filename))
      then path_of_str (output_path ++ lit ".file")
      else output_path in
    (makedirs (path_parent output_path) ;;; ret output_path) w.

(** Lines 271-277. *)
Definition compressed_span (rec : file_record) : Z * Z :=
  let actual_offset := offset rec in
  let actual_zsize := zsize rec in
  if negb (Z.land (zip_flags rec) 4 =? 0) then
    if Z.land (zip_flags rec) 1 =? 0
    then (actual_offset + 12, actual_zsize - 12)
    else (actual_offset, actual_zsize)
  else (actual_offset, actual_zsize).

(** Lines 282-295: what is done with the compressed bytes read. *)
Definition store_compressed (output_path : pystr) (size : Z) (compressed_data : bytes)
  : M unit :=
  match OODLE_AVAILABLE, oodle_decompress with
  | true, Some decompress =>
      try_except
        (decompressed <- call_decompress decompress compressed_data size ;;
         write_file output_path decompressed)
        (let compressed_path := output_path ++ lit ".compressed" in
         write_file compressed_path compressed_data)
  | _, _ =>
      let compressed_path := output_path ++ lit ".compressed" in
      write_file compressed_path compressed_data
  end.

(** Lines 264-295. *)
Definition write_payload (output_path : pystr) (rec : file_record) : M unit :=
  f_seek (offset rec) ;;;
  if size rec =? zsize rec then
    data <- f_read (size rec) ;;
    write_file output_path data
  else
    let '(actual_offset, actual_zsize) := compressed_span rec in
    f_seek actual_offset ;;;
    compressed_data <- f_read actual_zsize ;;
    store_compressed output_path (size rec) compressed_data.

(** Lines 250-298: the iteration once the record's file name is known. *)
Definition finish_record (output_dir : pystr) (rec : file_record)
  (current_pos : Z) (filename : pystr) : M bool :=
  if is_garbage_file filename (size rec) then ret false
  else
    output_path <- make_output_path output_dir filename ;;
    write_payload output_path rec ;;;
    f_seek current_pos ;;;
    ret true.

(** Lines 204-298, one iteration of [for i in range(files_count)]: [true]
    when the record was extracted, [false] when it was skipped as garbage
    ([continue]). *)
Definition process_record (output_dir : pystr) (names : list pystr)
  (names_count dummy7_off i : Z) : M bool :=
  rec <- read_record ;;
  '(current_pos, type_str_id, name_str_id) <- lookup_ids dummy7_off rec ;;
  str2 <- lift (lookup_name names names_count name_str_id) ;;
  let filename := make_filename i str2 in
  finish_record output_dir rec current_pos filename.

(** [for i in range(files_count)], with [count] records left; the value is
    [(extracted, skipped)]. *)
Fixpoint records_loop (output_dir : pystr) (names : list pystr)
  (names_count dummy7_off : Z) (count : nat) (i extracted skipped : Z) : M (Z * Z) :=
  match count with
  | O => ret (extracted, skipped)
  | S count' =>
      done <- process_record output_dir names names_count dummy7_off i ;;
      if done
      then records_loop output_dir names names_count dummy7_off count'
                        (i + 1) (extracted + 1) skipped
      else records_loop output_dir names names_count dummy7_off count'
                        (i + 1) extracted (skipped + 1)
  end.

(** [extract_resources(filepath)], on the opened archive; the value is
    [None] after a wrong magic tag, [(extracted, skipped)] otherwise. *)
Definition extract_resources (filepath : pystr) : M (option (Z * Z)) :=
  let output_dir := path_stem filepath in
  makedirs output_dir ;;;
  magic <- f_read 4 ;;
  if negb (bytes_eqb magic (blit "IDCL")) then ret None
  else
    hdr <- read_header ;;
    f_seek (names_off hdr) ;;;
    names_count <- read_u64 ;;
    name_offsets <- read_name_offsets (Z.to_nat names_count) [] ;;
    names_base <- f_tell ;;
    let names := repeat [] (Z.to_nat names_count) in
    names <- read_names names_base name_offsets 0 names ;;
    dummy7_off <- skip_dummy2 (dummy7_off hdr) (dummy2_num hdr) ;;
    f_seek (info_off hdr) ;;;
    counts <- records_loop output_dir names names_count dummy7_off
                           (Z.to_nat (files_count hdr)) 0 0 0 ;;
    ret (Some counts).

(** ** Vocabulary of the properties *)

(** The bytes before the first null byte. *)
Fixpoint until_null (bs : bytes) : bytes :=
  match bs with
  | [] => []
  | b :: t => if Byte.eqb b x00 then [] else b :: until_null t
  end.

(** How many bytes a null-terminated string takes: the null byte counts,
    when there is one. *)
Fixpoint cstring_span (bs : bytes) : nat :=
  match bs with
  | [] => 0%nat
  | b :: t => if Byte.eqb b x00 then 1%nat else S (cstring_span t)
  end.

(** The bytes of the archive from the cursor on. *)
Definition unread (w : world) : bytes := skipn (f_pos w) (f_bytes w).

(** A read of [k] bytes moves the cursor by [k], or to the end of the file
    when fewer are left. *)
Definition advance (w : world) (k : nat) : world :=
  set_pos w (f_pos w + Nat.min k (List.length (f_bytes w) - f_pos w))%nat.



End Extractor.

End Wolf2.

(* ===================================================================== *)
(** * Concrete inputs                                                     *)
(* ===================================================================== *)

Module Fixtures.

Import Wolf2.
Import Md6Mesh.

(** [v.to_bytes(n, 'little')] *)
Fixpoint le_bytes (n : nat) (v : Z) : bytes :=
  match n with
  | O => []
  | S n' =>
      match Byte.of_N (Z.to_N (v mod 256)) with
      | Some b => b
      | None => x00
      end :: le_bytes n' (v / 256)
  end.

Definition zeros (n : nat) : bytes := repeat x00 n.

(** ** A file system kept in memory: the directories made and the files
    written, by path. *)
Record memfs : Type := mkMemfs {
  dirs : list pystr;
  files : list (pystr * bytes)
}.

Definition mem_is_dir (m : memfs) (p : pystr) : bool :=
  existsb (str_eqb p) (dirs m).

Definition mem_is_file (m : memfs) (p : pystr) : bool :=
  existsb (fun e => str_eqb p (fst e)) (files m).

Definition mem_parent (p : pystr) : pystr :=
  match rsplit1 (chr "/") p with
  | Some (before, _) => before
  | None => lit "."
  end.

Definition mem_stem (p : pystr) : pystr :=
  let name := split_last (chr "/") p in
  match rsplit1 (chr ".") name with
  | Some ((_ :: _) as before, _) => before
  | _ => name
  end.

Definition mem_makedirs (m : memfs) (p : pystr) : result memfs :=
  if mem_is_file m p then Raise OSError
  else if mem_is_dir m p then Ok m
  else Ok (mkMemfs (dirs m ++ [p]) (files m)).

Definition mem_write (m : memfs) (p : pystr) (data : bytes) : result memfs :=
  if mem_is_dir m p then Raise OSError
  else Ok (mkMemfs (dirs m)
                   (filter (fun e => negb (str_eqb p (fst e))) (files m) ++ [(p, data)])).

#[export] Instance MemFS : FileSystem := {
  fs := memfs;
  path_stem := mem_stem;
  path_join := fun a b => a ++ lit "/" ++ b;
  path_of_str := fun s => s;
  path_parent := mem_parent;
  fs_makedirs := mem_makedirs;
  fs_is_dir := mem_is_dir;
  fs_write := mem_write
}.

Definition empty_fs : memfs := mkMemfs [] [].

(** The world when [extract_resources] starts on an archive. *)
Definition open_archive (archive : bytes) : world :=
  mkWorld archive 0%nat empty_fs [].

(** ** An archive with four records *)

(** The 120 bytes of a header. *)
Definition header_bytes (files_count dummy2_num names_off info_off dummy7_off data_off : Z)
  : bytes :=
  blit "IDCL" ++ le_bytes 4 7 ++ zeros 32
  ++ le_bytes 4 files_count ++ le_bytes 4 0 ++ le_bytes 4 dummy2_num ++ le_bytes 4 0
  ++ zeros 16
  ++ le_bytes 8 names_off ++ le_bytes 8 0 ++ le_bytes 8 info_off ++ le_bytes 8 0
  ++ le_bytes 8 dummy7_off ++ le_bytes 8 data_off.

(** The 144 bytes of a record. *)
Definition record_bytes (type_id name_id offset zsize size zip_flags : Z) : bytes :=
  zeros 24 ++ le_bytes 8 type_id ++ le_bytes 8 name_id ++ zeros 16
  ++ le_bytes 8 offset ++ le_bytes 8 zsize ++ le_bytes 8 size ++ zeros 32
  ++ le_bytes 8 zip_flags ++ zeros 24.

Definition cstr (s : string) : bytes := blit s ++ [x00].

Definition name0 : bytes := cstr "tex/foo#bar.tex_medium".
Definition name1 : bytes := cstr "junk".
Definition name2 : bytes := cstr "".
Definition name3 : bytes := cstr "doc/readme.txt".

(** The string table: a count, the offsets, the strings. *)
Definition names_table : bytes :=
  le_bytes 8 4
  ++ le_bytes 8 0
  ++ le_bytes 8 (len name0)
  ++ le_bytes 8 (len name0 + len name1)
  ++ le_bytes 8 (len name0 + len name1 + len name2)
  ++ name0 ++ name1 ++ name2 ++ name3.

(** Two 4-byte entries, then the indirection table. *)
Definition aux_table : bytes :=
  repeat xff 8
  ++ le_bytes 8 0 ++ le_bytes 8 3 ++ le_bytes 8 0 ++ le_bytes 8 1
  ++ le_bytes 8 9 ++ le_bytes 8 2.

Definition a_names_off : Z := 120.
Definition a_dummy7_off : Z := a_names_off + len names_table.
Definition a_info_off : Z := a_dummy7_off + len aux_table.
Definition a_data_off : Z := a_info_off + 4 * 144.

Definition payload0 : bytes := blit "hello".
Definition payload1 : bytes := blit "HEADERHEADERdata".
Definition payload2 : bytes := repeat x2a 50.
Definition payload3 : bytes := blit "zz".

(** Record 0 is stored; record 1 is compressed, with the embedded header;
    record 2 is stored, small and named [junk]; record 3 is compressed and
    its name index, 9, is outside the string table. *)
Definition archive_a : bytes :=
  header_bytes 4 2 a_names_off a_info_off a_dummy7_off a_data_off
  ++ names_table ++ aux_table
  ++ record_bytes 0 0 a_data_off 5 5 0
  ++ record_bytes 0 1 (a_data_off + 5) 16 64 4
  ++ record_bytes 0 2 (a_data_off + 21) 50 50 0
  ++ record_bytes 0 3 (a_data_off + 71) 2 8 5
  ++ payload0 ++ payload1 ++ payload2 ++ payload3.

(** ** An archive cut short: one stored record, the last 24 bytes of which
    are missing from the file. *)
Definition b_dummy7_off : Z := 120 + 8.
Definition b_data_off : Z := b_dummy7_off + 16.
Definition b_info_off : Z := b_data_off + 3.

Definition archive_b : bytes :=
  header_bytes 1 0 120 b_info_off b_dummy7_off b_data_off
  ++ le_bytes 8 0
  ++ le_bytes 8 0 ++ le_bytes 8 0
  ++ blit "abc"
  ++ firstn 120 (record_bytes 0 0 b_data_off 3 3 0).


Definition oodle_works : bytes -> Z -> result bytes :=
  fun _ decompressed_size => Ok (repeat x41 (Z.to_nat decompressed_size)).

(** ** Mesh buffers *)

Definition marker0 : bytes := [x01; x01; x00; x00; x00; x00; x00; x00].

(** The IEEE binary32 pattern of 1.0. *)
Definition one32 : Z := 1065353216.

(** A 48-byte vertex record: position, UV, 28 bytes more. *)
Definition vertex_bytes (x y z u v : Z) : bytes :=
  le_bytes 4 x ++ le_bytes 4 y ++ le_bytes 4 z ++ le_bytes 4 u ++ le_bytes 4 v
  ++ zeros 28.

(** A 64-byte header, a marker, and one triangle on three vertices, laid
    out where [extract_model] reads them. *)
Definition triangle_mesh : bytes :=
  zeros 64 ++ marker0 ++ zeros 13 ++ le_bytes 2 3 ++ zeros 2 ++ le_bytes 2 1
  ++ zeros 26
  ++ vertex_bytes 0 0 0 0 0
  ++ vertex_bytes one32 0 0 one32 0
  ++ vertex_bytes 0 one32 0 0 one32
  ++ le_bytes 2 0 ++ le_bytes 2 1 ++ le_bytes 2 2.

(** A 64-byte header and a marker at offset 64; after the marker's start
    the 16-bit value 1 at offset 21, 0 at offset 25, and 2 at offset 27,
    which is 19 bytes past the end of the marker; a vertex record at
    offset 53. *)
Definition marker_mesh : bytes :=
  zeros 64
  ++ marker0 ++ zeros 13 ++ le_bytes 2 1 ++ zeros 2 ++ le_bytes 2 0
  ++ le_bytes 2 2 ++ zeros 24 ++ vertex_bytes one32 0 0 0 0 ++ zeros 48.

(** An archive cursor standing before an invalid byte, the letter A and a
    null byte. *)
Definition cstring_world : world :=
  mkWorld [xff; x41; x00] 0%nat empty_fs [].

(** The string table of [archive_a], as the extractor builds it. *)
Definition names_a : list pystr :=
  [lit "tex/foo_bar.tex"; lit "junk"; []; lit "doc/readme.txt"].

(** The effective auxiliary offset of [archive_a]: past the two entries. *)
Definition a_eff : Z := a_dummy7_off + 8.

(** The records of [archive_a], as the loop reads them. *)
Definition record0 : file_record := mkRecord 0 0 a_data_off 5 5 0.
Definition record1 : file_record := mkRecord 0 1 (a_data_off + 5) 16 64 4.
Definition record3 : file_record := mkRecord 0 3 (a_data_off + 71) 2 8 5.

(** [archive] with the cursor at [pos], nothing written yet. *)
Definition archive_at (archive : bytes) (pos : Z) : world :=
  mkWorld archive (Z.to_nat pos) empty_fs [].

(** The world after the iteration on record 0 of [archive_a], started on
    an empty file system. *)
Definition after_record0 : world :=
  mkWorld archive_a (Z.to_nat (a_info_off + 144))
    (mkMemfs [lit "out/doc"] [(lit "out/doc/readme.txt", blit "hello")])
    [EvWrite (lit "out/doc/readme.txt") (blit "hello")].

(** The run on [archive_a] with no decompressor loaded. *)
Definition run_a_without_oodle : result (option (Z * Z)) * world :=
  extract_resources false None (lit "out.resources") (open_archive archive_a).


End Fixtures.

(* ===================================================================== *)
(** * More of the programs, of the vocabulary and of the inputs          *)
(* ===================================================================== *)

(** ** The part loop of the mesh converter's [main] *)

Module Md6MeshMain.

Import Md6Mesh.

Section Main.
Context {F : PyFloat}.

(** [write_obj(model_data, output_file)] on the output file of part
    [part_number]: the text it writes is left out; the call returns or
    raises. *)
Variable write_obj : model_data -> Z -> result unit.

(** Lines 255-265 of [main]: [while True], with [fuel] iterations allowed.
    The value is the [part_number] the loop ends with. *)
Fixpoint parts_loop (fuel : nat) (file_data : bytes) (part_number search_offset : Z)
  : result Z :=
  match fuel with
  | O => Raise OutOfFuel
  | S fuel' =>
      '(model_data, next_offset) <- extract_model file_data search_offset ;;
      match model_data with
      | None => Ok part_number
      | Some model_data =>
          model_data <- apply_transforms model_data ;;
          _ <- write_obj model_data part_number ;;
          let part_number := part_number + 1 in
          let search_offset := next_offset in
          parts_loop fuel' file_data part_number search_offset
      end
  end.

(** Lines 252-265.  Every iteration but the last moves the search past a
    marker, so one more iteration than the file has bytes is enough. *)
Definition convert_parts (file_data : bytes) : result Z :=
  parts_loop (S (List.length file_data)) file_data 1 HEADER_SIZE.

End Main.

End Md6MeshMain.

(** ** More vocabulary for the mesh converter *)

Module MeshVocabulary.

Import Md6Mesh.

(** [l[i]] does not raise: [i] counts from the start, or from the end when
    negative. *)
Definition index_in_range (n i : Z) : Prop := - n <= i < n.

(** The three indices of a face can be looked up in [n] vertices. *)
Definition face_refs (n : Z) (fc : face) : Prop :=
  let '(a, b, c) := fc in
  index_in_range n a /\ index_in_range n b /\ index_in_range n c.

(** One of the two markers stands at offset [i] of the buffer. *)
Definition is_marker_at (data : bytes) (i : Z) : Prop :=
  In (py_slice data i (i + 8)) BUFFER_MARKERS.

(** No face names vertex [k]. *)
Definition unreferenced (k : Z) (fcs : list face) : Prop :=
  Forall (fun fc : face => let '(a, b, c) := fc in a <> k /\ b <> k /\ c <> k) fcs.

(** The end of the last byte [extract_model] reads for a part whose marker
    is at [m] and that declares [vc] vertices and [fc] faces: the faces
    when there are any, else the UV of the last vertex, else the face
    count. *)
Definition required_end (m vc fc : Z) : Z :=
  if 0 <? fc then first_vertex_offset m + VERTEX_STRIDE * vc + 6 * fc
  else if 0 <? vc then first_vertex_offset m + VERTEX_STRIDE * (vc - 1) + 20
  else face_count_offset m + 2.

End MeshVocabulary.

(** ** More vocabulary for the archive extractor *)

Module ArchiveVocabulary.

Import Wolf2.

(** The characters [sanitize_filename] replaces. *)
Definition illegal_chars : list N :=
  [chr "$"; chr "#"; chr "<"; chr ">"; chr ":"; chr "|"; chr "?"; chr "*"; 34%N].

Definition is_illegal (c : N) : bool := existsb (N.eqb c) illegal_chars.

(** The number a string of decimal digits writes. *)
Definition decimal_value (s : pystr) : N :=
  fold_left (fun acc c => (10 * acc + (c - 48))%N) s 0%N.

(** The code point of an ASCII byte. *)
Definition ascii_code (b : byte) : N := Z.to_N (byte_val b).

(** The little-endian integer of the [n] bytes at offset [pos]. *)
Definition uint_at (n : nat) (archive : bytes) (pos : nat) : Z :=
  int_from_le (firstn n (skipn pos archive)).

(** The C string at offset [pos], decoded as [read_cstring] does. *)
Definition cstring_at (archive : bytes) (pos : nat) : pystr :=
  utf8_decode ErrorsIgnore (until_null (skipn pos archive)).

Definition is_write (e : event) : bool :=
  match e with
  | EvWrite _ _ => true
  | EvDecompress _ _ => false
  end.

(** How many files a trace writes. *)
Definition count_writes (t : list event) : nat := List.length (filter is_write t).

(** The header [read_header] decodes when the cursor is at [p]: where each
    field lies follows from the sizes of the reads before it. *)
Definition header_at (archive : bytes) (p : nat) : header :=
  mkHeader (uint_at 4 archive p)
           (uint_at 4 archive (p + 36)) (uint_at 4 archive (p + 40))
           (uint_at 4 archive (p + 44)) (uint_at 4 archive (p + 48))
           (uint_at 8 archive (p + 68)) (uint_at 8 archive (p + 76))
           (uint_at 8 archive (p + 84)) (uint_at 8 archive (p + 92))
           (uint_at 8 archive (p + 100)) (uint_at 8 archive (p + 108)).

(** The record [read_record] decodes when the cursor is at [p]. *)
Definition record_at (archive : bytes) (p : nat) : file_record :=
  mkRecord (uint_at 8 archive (p + 24)) (uint_at 8 archive (p + 32))
           (uint_at 8 archive (p + 56)) (uint_at 8 archive (p + 64))
           (uint_at 8 archive (p + 72)) (uint_at 8 archive (p + 112)).

Section Outcomes.
Context {FS : FileSystem}.

(** [m] raises nothing but [struct.error]. *)
Definition only_struct_error {A : Type} (m : M A) : Prop :=
  forall w e w', m w = (Raise e, w') -> e = StructError.

(** [m] leaves the archive bytes and the trace as they are: it writes no
    file and calls no decompressor, however it ends. *)
Definition quiet {A : Type} (m : M A) : Prop :=
  forall w r w', m w = (r, w') -> f_bytes w' = f_bytes w /\ w_trace w' = w_trace w.

End Outcomes.

End ArchiveVocabulary.

(** ** More concrete inputs *)

Module MoreFixtures.

Import Wolf2.
Import Md6Mesh.
Import Fixtures.

(** [marker_mesh] cut inside its vertex record. *)
Definition truncated_mesh : bytes := firstn 120 marker_mesh.

(** A 64-byte header and a marker followed by zero bytes: a part that
    declares no vertex and no face. *)
Definition empty_part_mesh : bytes := zeros 64 ++ marker0 ++ zeros 45.

Definition empty_part : model_data (F := Binary64) := mkModel [] [] [] 0 0 None.

(** A triangle on the first three of four vertices. *)
Definition four_vertices : list (vec3 (F := Binary64)) :=
  [ (fconst0, fconst0, fconst0); (fconst1, fconst0, fconst0);
    (fconst0, fconst1, fconst0); (fconst0, fconst0, fconst0) ].

Definition one_triangle : list face := [(0, 1, 2)].

(** A face that names vertex 0 of a part without vertices. *)
Definition bad_model : model_data (F := Binary64) :=
  mkModel [] [] [(0, 0, 0)] 0 1 None.

(** A [write_obj] that always returns. *)
Definition write_nothing : model_data (F := Binary64) -> Z -> result unit :=
  fun _ _ => Ok tt.

(** A file that does not start with the magic tag. *)
Definition junk_world : world := open_archive (blit "JUNKDATA").

(** A file system in which the output path is a directory. *)
Definition blocked_world : world :=
  mkWorld [] 0%nat (mkMemfs [lit "out/a.bin"] []) [].



(** The cursor before an ASCII name, its null byte, and one more byte. *)
Definition ascii_world : world :=
  mkWorld (blit "abc" ++ [x00] ++ blit "d") 0%nat empty_fs [].


(** Where the strings of [archive_a] start, and the offsets of its four
    names from there. *)
Definition a_names_base : Z := a_names_off + 8 + 8 * 4.
Definition a_name_offsets : list Z := [0; 23; 28; 29].

End MoreFixtures.

(* ===================================================================== *)
(** * Facts about the shared Python values                                *)
(* ===================================================================== *)

Module PyFacts.

Lemma byte_val_range (b : byte) : 0 <= byte_val b < 256.
Proof.
  unfold byte_val. pose proof (Byte.to_N_bounded b) as H. lia.
Qed.

Lemma int_from_le_nonneg (bs : bytes) : 0 <= int_from_le bs.
Proof.
  induction bs as [|b t IH]; cbn [int_from_le]; [lia|].
  pose proof (byte_val_range b). lia.
Qed.

Lemma len_nonneg {A : Type} (l : list A) : 0 <= len l.
Proof. unfold len. lia. Qed.

Lemma len_app {A : Type} (l1 l2 : list A) : len (l1 ++ l2) = len l1 + len l2.
Proof. unfold len. rewrite length_app. lia. Qed.

(** A slice that lies inside the sequence has the length asked for. *)
Lemma py_slice_len {A : Type} (l : list A) (a b : Z) :
  0 <= a -> a <= b -> b <= len l -> len (py_slice l a b) = b - a.
Proof.
  intros Ha Hab Hb. unfold py_slice, clamp_index.
  destruct (a <? 0) eqn:Ea; [apply Z.ltb_lt in Ea; lia|].
  destruct (b <? 0) eqn:Eb; [apply Z.ltb_lt in Eb; lia|].
  unfold len in *. rewrite length_firstn, length_skipn. lia.
Qed.

Lemma py_getitem_ok {A : Type} (l : list A) (i : Z) :
  0 <= i < len l -> exists x, py_getitem l i = Ok x.
Proof.
  intros Hi. unfold py_getitem.
  destruct (i <? 0) eqn:E; [apply Z.ltb_lt in E; lia|]. rewrite E.
  destruct (nth_error l (Z.to_nat i)) eqn:En; [eauto|].
  apply nth_error_None in En. unfold len in Hi. lia.
Qed.

Lemma length_list_update {A : Type} (l : list A) (n : nat) (x : A) :
  List.length (list_update l n x) = List.length l.
Proof.
  revert n; induction l as [|h t IH]; intros [|n]; simpl; auto.
Qed.

Lemma py_setitem_ok {A : Type} (l : list A) (i : Z) (x : A) :
  0 <= i < len l ->
  exists l', py_setitem l i x = Ok l' /\ List.length l' = List.length l.
Proof.
  intros Hi. unfold py_setitem.
  destruct (i <? 0) eqn:E; [apply Z.ltb_lt in E; lia|].
  replace (0 <=? i) with true by (symmetry; apply Z.leb_le; lia).
  replace (i <? len l) with true by (symmetry; apply Z.ltb_lt; lia).
  simpl. eexists; split; [reflexivity|apply length_list_update].
Qed.

End PyFacts.

Import PyFacts.

(* ===================================================================== *)
(** * Properties of md6mesh.py                                            *)
(* ===================================================================== *)

Module Md6MeshProofs.

Import Md6Mesh.

Lemma sf_div_raises x y e : sf_div x y = Raise e -> e = ZeroDivisionError.
Proof. unfold sf_div. destruct (sf_is_zero y); congruence. Qed.

Lemma sf_square_raises x e : sf_square x = Raise e -> e = OverflowError.
Proof.
  unfold sf_square.
  destruct (sf_is_inf _ && negb (sf_is_inf x)); congruence.
Qed.

Lemma sf_sqrt_raises x e : sf_sqrt x = Raise e -> e = ValueError.
Proof. unfold sf_sqrt. destruct (SpecFloat.SFltb _ _); congruence. Qed.

#[export] Instance Binary64Laws : PyFloatLaws Binary64.
Proof.
  constructor.
  - exact sf_div_raises.
  - exact sf_square_raises.
  - exact sf_sqrt_raises.
Qed.

Import Fixtures.

Section MeshFacts.
Context {F : PyFloat} {FL : PyFloatLaws F}.

Lemma read_int16_le_nonneg data off v : read_int16_le data off = Ok v -> 0 <= v.
Proof.
  unfold read_int16_le, unpack_H. destruct (_ =? 2); [|discriminate].
  intros H; injection H as <-. apply int_from_le_nonneg.
Qed.

Lemma read_float_le_ok data off :
  0 <= off -> off + 4 <= len data -> exists x, read_float_le data off = Ok x.
Proof.
  intros H0 H1. unfold read_float_le, unpack_float.
  rewrite py_slice_len by lia.
  replace (off + 4 - off =? 4) with true by (symmetry; apply Z.eqb_eq; lia).
  eauto.
Qed.

Lemma read_vertices_ok data count : forall off vs us,
  0 <= off -> off + VERTEX_STRIDE * Z.of_nat count <= len data ->
  exists vs' us',
    read_vertices data count off vs us
      = Ok (vs ++ vs', us ++ us', off + VERTEX_STRIDE * Z.of_nat count)
    /\ List.length vs' = count /\ List.length us' = count.
Proof.
  unfold VERTEX_STRIDE.
  induction count as [|count IH]; intros off vs us H0 H1.
  - exists [], []. cbn [read_vertices]. rewrite !app_nil_r.
    repeat split. do 2 f_equal. lia.
  - cbn [read_vertices].
    destruct (read_float_le_ok data off) as [x Hx]; [lia|lia|].
    destruct (read_float_le_ok data (off + 4)) as [y Hy]; [lia|lia|].
    destruct (read_float_le_ok data (off + 8)) as [z Hz]; [lia|lia|].
    destruct (read_float_le_ok data (off + 12)) as [u Hu]; [lia|lia|].
    destruct (read_float_le_ok data (off + 16)) as [v Hv]; [lia|lia|].
    rewrite Hx, Hy, Hz, Hu, Hv. cbn [bind].
    destruct (IH (off + VERTEX_STRIDE) (vs ++ [(x, y, z)]) (us ++ [(u, v)]))
      as (vs' & us' & E & Lv & Lu); unfold VERTEX_STRIDE; [lia|lia|].
    exists ((x, y, z) :: vs'), ((u, v) :: us').
    unfold VERTEX_STRIDE in E. rewrite E. rewrite <- !app_assoc. cbn [app].
    repeat split; [|simpl; lia|simpl; lia].
    do 2 f_equal. lia.
Qed.

Lemma index_ok_spec data vc off :
  index_ok data vc off = true ->
  exists idx, read_int16_le data off = Ok idx /\ 0 <= idx < vc.
Proof.
  unfold index_ok. destruct (read_int16_le data off) as [idx|] eqn:E; [|discriminate].
  intros H. apply Z.ltb_lt in H. apply read_int16_le_nonneg in E as Hn. eauto.
Qed.

Lemma read_faces_ok data vc count : forall off fs,
  faces_ok data vc count off = true ->
  Forall (face_in vc) fs ->
  exists fs',
    read_faces data count off fs = Ok (fs', off + 6 * Z.of_nat count)
    /\ Forall (face_in vc) fs'.
Proof.
  induction count as [|count IH]; intros off fs Hok Hfs.
  - exists fs. cbn [read_faces]. split; [do 2 f_equal; lia|assumption].
  - cbn [faces_ok] in Hok. apply andb_prop in Hok as [Hok H4].
    apply andb_prop in Hok as [Hok H3]. apply andb_prop in Hok as [H1 H2].
    apply index_ok_spec in H1 as (a & Ea & Ha).
    apply index_ok_spec in H2 as (b & Eb & Hb).
    apply index_ok_spec in H3 as (c & Ec & Hc).
    cbn [read_faces]. rewrite Ea, Eb, Ec. cbn [bind].
    destruct (IH (off + 6) (fs ++ [(a, b, c)]) H4) as (fs' & E & Hf).
    { apply Forall_app; split; [assumption|]. constructor; [|constructor].
      cbn. lia. }
    exists fs'. rewrite E. split; [do 2 f_equal; lia|assumption].
Qed.

Lemma scan_markers_found data ml count : forall i m mk,
  scan_markers data ml count i = (m, Some mk) -> i <= m.
Proof.
  induction count as [|count IH]; intros i m mk H; cbn [scan_markers] in H.
  - discriminate.
  - destruct (match_marker data i ml BUFFER_MARKERS).
    + injection H as <- _. lia.
    + apply IH in H. lia.
Qed.

Lemma find_buffer_marker_found data start m mk :
  find_buffer_marker data start = (m, Some mk) -> start <= m.
Proof. unfold find_buffer_marker. apply scan_markers_found. Qed.

Lemma extract_model_valid data start :
  valid_mesh data start = true ->
  exists part off,
    extract_model data start = Ok (Some part, off)
    /\ well_formed part
    /\ len (vertices part) = vertex_count part.
Proof.
  unfold valid_mesh. intros H. apply andb_prop in H as [Hs H].
  apply Z.leb_le in Hs.
  destruct (find_buffer_marker data start) as [m [mk|]] eqn:Ef; [|discriminate].
  destruct (read_int16_le data (vertex_count_offset m)) as [vc|] eqn:Ev; [|discriminate].
  destruct (read_int16_le data (face_count_offset m)) as [fc|] eqn:Ec; [|discriminate].
  apply andb_prop in H as [Hfit Hfaces]. apply Z.leb_le in Hfit.
  apply find_buffer_marker_found in Ef as Hm.
  apply read_int16_le_nonneg in Ev as Hvc. apply read_int16_le_nonneg in Ec as Hfc.
  unfold extract_model. rewrite Ef.
  replace (m =? -1) with false by (symmetry; apply Z.eqb_neq; lia).
  fold (vertex_count_offset m). rewrite Ev. cbn [bind].
  fold (face_count_offset m). rewrite Ec. cbn [bind].
  fold (first_vertex_offset m).
  assert (H0 : 0 <= first_vertex_offset m).
  { unfold first_vertex_offset, face_count_offset, vertex_count_offset.
    pose proof (len_nonneg BUFFER_MARKERS).
    unfold SKIP_TO_VERTEX_COUNT, SKIP_TO_FACE_COUNT, SKIP_TO_FIRST_VERTEX. lia. }
  destruct (read_vertices_ok data (Z.to_nat vc) (first_vertex_offset m) [] [])
    as (vs & us & E & Lv & Lu).
  { assumption. }
  { rewrite Z2Nat.id by assumption. unfold VERTEX_STRIDE in *. lia. }
  rewrite E. cbn [bind app].
  rewrite Z2Nat.id in * by assumption.
  destruct (read_faces_ok data vc (Z.to_nat fc)
              (first_vertex_offset m + VERTEX_STRIDE * vc) []) as (fs & E' & Hf).
  { assumption. }
  { constructor. }
  rewrite E'. cbn [bind].
  eexists _, _. split; [reflexivity|].
  unfold well_formed. cbn [uvs vertices faces vertex_count].
  assert (Hl : len vs = vc) by (unfold len; lia).
  repeat split; [lia| rewrite Hl; assumption | assumption].
Qed.

Lemma accumulate_ok normals idx n :
  0 <= idx < len normals ->
  exists normals', accumulate normals idx n = Ok normals'
                   /\ List.length normals' = List.length normals.
Proof.
  intros Hi. unfold accumulate. destruct n as [[nx ny] nz].
  destruct (py_getitem_ok normals idx Hi) as [[[a b] c] E]. rewrite E. cbn [bind].
  apply py_setitem_ok. assumption.
Qed.

Lemma face_normal_step_ok vs normals fc :
  face_in (len vs) fc -> List.length normals = List.length vs ->
  exists normals', face_normal_step vs normals fc = Ok normals'
                   /\ List.length normals' = List.length vs.
Proof.
  destruct fc as [[i0 i1] i2]. intros (H0 & H1 & H2) Hl.
  unfold face_normal_step.
  destruct (py_getitem_ok vs i0 H0) as [[[v0x v0y] v0z] E0].
  destruct (py_getitem_ok vs i1 H1) as [[[v1x v1y] v1z] E1].
  destruct (py_getitem_ok vs i2 H2) as [[[v2x v2y] v2z] E2].
  rewrite E0, E1, E2. cbn [bind].
  assert (Hlen : forall l : list vec3, List.length l = List.length vs -> len l = len vs)
    by (intros l Hll; unfold len; lia).
  edestruct (accumulate_ok normals i0) as (n1 & En1 & L1); [rewrite Hlen; eassumption|].
  rewrite En1. cbn [bind].
  edestruct (accumulate_ok n1 i1) as (n2 & En2 & L2); [rewrite Hlen; [eassumption|lia]|].
  rewrite En2. cbn [bind].
  edestruct (accumulate_ok n2 i2) as (n3 & En3 & L3); [rewrite Hlen; [eassumption|lia]|].
  rewrite En3. eexists; split; [reflexivity|lia].
Qed.

Lemma accumulate_faces_ok vs fcs : forall normals,
  Forall (face_in (len vs)) fcs -> List.length normals = List.length vs ->
  exists normals', accumulate_faces vs fcs normals = Ok normals'
                   /\ List.length normals' = List.length vs.
Proof.
  induction fcs as [|fc rest IH]; intros normals Hf Hl; cbn [accumulate_faces].
  - eauto.
  - inversion Hf as [|? ? Hfc Hrest]; subst.
    destruct (face_normal_step_ok vs normals fc Hfc Hl) as (n1 & E & L1).
    rewrite E. cbn [bind]. apply IH; assumption.
Qed.

Lemma normalize_outcome n :
  match normalize n with
  | Ok _ => True
  | Raise e => float_error e
  end.
Proof.
  unfold normalize, float_error. destruct n as [[n0 n1] n2].
  destruct (fsquare n0) eqn:E0; cbn [bind]; [|apply fsquare_raises in E0; auto].
  destruct (fsquare n1) eqn:E1; cbn [bind]; [|apply fsquare_raises in E1; auto].
  destruct (fsquare n2) eqn:E2; cbn [bind]; [|apply fsquare_raises in E2; auto].
  destruct (fsqrt _) as [l|] eqn:Es; cbn [bind]; [|apply fsqrt_raises in Es; auto].
  destruct (fgt l fconst0); [|exact I].
  destruct (fdiv n0 l) eqn:D0; cbn [bind]; [|apply fdiv_raises in D0; auto].
  destruct (fdiv n1 l) eqn:D1; cbn [bind]; [|apply fdiv_raises in D1; auto].
  destruct (fdiv n2 l) eqn:D2; cbn [bind]; [|apply fdiv_raises in D2; auto].
  exact I.
Qed.

Lemma normalize_all_outcome normals : forall acc,
  match normalize_all normals acc with
  | Ok l => List.length l = (List.length acc + List.length normals)%nat
  | Raise e => float_error e
  end.
Proof.
  induction normals as [|n rest IH]; intros acc; cbn [normalize_all].
  - simpl. lia.
  - pose proof (normalize_outcome n) as Hn.
    destruct (normalize n) as [v|e]; cbn [bind]; [|assumption].
    specialize (IH (acc ++ [v])).
    destruct (normalize_all rest (acc ++ [v])); [|assumption].
    rewrite IH, length_app. simpl. lia.
Qed.

Lemma calculate_vertex_normals_outcome vs fcs :
  Forall (face_in (len vs)) fcs ->
  match calculate_vertex_normals vs fcs with
  | Ok ns => List.length ns = List.length vs
  | Raise e => float_error e
  end.
Proof.
  intros Hf. unfold calculate_vertex_normals.
  destruct (accumulate_faces_ok vs fcs (map (fun _ => (fconst0, fconst0, fconst0)) vs) Hf)
    as (normals & E & L); [apply length_map|].
  rewrite E. cbn [bind].
  pose proof (normalize_all_outcome normals []) as H.
  destruct (normalize_all normals []); [|assumption].
  rewrite H. simpl. assumption.
Qed.

Lemma flip_faces_in n fcs :
  Forall (face_in n) fcs -> Forall (face_in n) (flip_faces fcs).
Proof.
  unfold flip_faces. intros H. apply Forall_map.
  eapply Forall_impl; [|exact H]. intros [[a b] c]. cbn. tauto.
Qed.

Lemma apply_transforms_outcome md :
  well_formed md ->
  match apply_transforms md with
  | Ok md' =>
      well_formed md'
      /\ List.length (vertices md') = List.length (vertices md)
      /\ (exists ns, normals md' = Some ns
                     /\ List.length ns = List.length (vertices md'))
  | Raise e => float_error e
  end.
Proof.
  intros [Hu Hf]. unfold apply_transforms.
  cbn [ROTATE_X_MINUS_90 FLIP_UV_MAPS FLIP_FACE_ORIENTATION SHADE_SMOOTH
       vertices uvs faces vertex_count face_count normals].
  assert (Hlen : len (rotate_x_minus_90 (vertices md)) = len (vertices md)).
  { unfold len, rotate_x_minus_90. rewrite length_map. reflexivity. }
  assert (Hf' : Forall (face_in (len (rotate_x_minus_90 (vertices md))))
                       (flip_faces (faces md))).
  { rewrite Hlen. apply flip_faces_in. assumption. }
  pose proof (calculate_vertex_normals_outcome _ _ Hf') as Hn.
  destruct (calculate_vertex_normals _ _) as [ns|e]; cbn [bind]; [|assumption].
  unfold well_formed. cbn [vertices uvs faces normals].
  unfold rotate_x_minus_90, flip_uvs in *. rewrite !length_map in *.
  repeat split; try assumption. exists ns. split; [reflexivity|assumption].
Qed.

(** C7.  For every valid mesh input the part [extract_model] decodes has as
    many UVs as vertices and faces whose indices are all below the number
    of vertices; [apply_transforms] (rotation, UV flip, winding flip,
    normals) either returns a part with the same two properties or stops
    on an exception of float arithmetic, never on an index. *)
Theorem valid_mesh_parts_well_formed data start :
  valid_mesh data start = true ->
  exists part off,
    extract_model data start = Ok (Some part, off)
    /\ well_formed part
    /\ match apply_transforms part with
       | Ok part' => well_formed part'
       | Raise e => float_error e
       end.
Proof.
  intros H. destruct (extract_model_valid data start H) as (part & off & E & Hw & _).
  exists part, off. split; [assumption|]. split; [assumption|].
  pose proof (apply_transforms_outcome part Hw) as Ht.
  destruct (apply_transforms part); [tauto|assumption].
Qed.

Lemma read_vertices_offset data count : forall off vs us vs' us' off',
  read_vertices data count off vs us = Ok (vs', us', off') ->
  off' = off + VERTEX_STRIDE * Z.of_nat count.
Proof.
  induction count as [|count IH]; intros off vs us vs' us' off' H;
    cbn [read_vertices] in H.
  - injection H as _ _ <-. lia.
  - repeat match type of H with
           | bind ?r _ = _ => destruct r; cbn [bind] in H; [|discriminate]
           end.
    apply IH in H. lia.
Qed.

Lemma read_faces_offset data count : forall off fs fs' off',
  read_faces data count off fs = Ok (fs', off') ->
  off' = off + 6 * Z.of_nat count.
Proof.
  induction count as [|count IH]; intros off fs fs' off' H;
    cbn [read_faces] in H.
  - injection H as _ <-. lia.
  - repeat match type of H with
           | bind ?r _ = _ => destruct r; cbn [bind] in H; [|discriminate]
           end.
    apply IH in H. lia.
Qed.

(** Where [extract_model] reads the counts and the first vertex, for any
    buffer in which it finds a marker at [m] and decodes a part. *)
Lemma extract_model_layout data start m mk part off :
  find_buffer_marker data start = (m, Some mk) ->
  extract_model data start = Ok (Some part, off) ->
  read_int16_le data (m + 2 + 19) = Ok (vertex_count part)
  /\ read_int16_le data (m + 2 + 19 + 2 + 2) = Ok (face_count part)
  /\ off = (m + 2 + 19 + 2 + 2 + 2 + 26)
           + 48 * vertex_count part + 6 * face_count part.
Proof.
  intros Ef H. unfold extract_model in H. rewrite Ef in H.
  destruct (m =? -1); [discriminate|].
  change (len BUFFER_MARKERS) with 2 in H.
  unfold SKIP_TO_VERTEX_COUNT, SKIP_TO_FACE_COUNT, SKIP_TO_FIRST_VERTEX in H.
  destruct (read_int16_le data (m + 2 + 19)) as [vc|] eqn:Ev; cbn [bind] in H;
    [|discriminate].
  destruct (read_int16_le data (m + 2 + 19 + 2 + 2)) as [fc|] eqn:Ec; cbn [bind] in H;
    [|discriminate].
  destruct (read_vertices _ _ _ _ _) as [[[vs us] o1]|] eqn:E1; cbn [bind] in H;
    [|discriminate].
  destruct (read_faces _ _ _ _) as [[fs o2]|] eqn:E2; cbn [bind] in H;
    [|discriminate].
  injection H as <- <-. cbn [vertex_count face_count].
  apply read_vertices_offset in E1. apply read_faces_offset in E2.
  apply read_int16_le_nonneg in Ev as Hv. apply read_int16_le_nonneg in Ec as Hc.
  unfold VERTEX_STRIDE in E1. rewrite Z2Nat.id in E1, E2 by assumption.
  repeat split. lia.
Qed.

End MeshFacts.

(** C2.  On [marker_mesh], searched from [HEADER_SIZE], the marker is at
    offset 64 and [extract_model] takes the vertex count from offset
    64 + 2 + 19 (the value 1), not from offset 64 + 8 + 19 (the value 2):
    it reads one vertex, at 64 + 2 + 19 + 2 + 2 + 2 + 26, and stops 48
    bytes further. *)
Theorem extract_model_skips_from_marker_start_plus_2 :
  find_buffer_marker marker_mesh HEADER_SIZE = (64, Some marker0)
  /\ read_int16_le marker_mesh (64 + 8 + 19) = Ok 2
  /\ read_int16_le marker_mesh (64 + 2 + 19) = Ok 1
  /\ exists part,
       extract_model (F := Binary64) marker_mesh HEADER_SIZE
         = Ok (Some part, 64 + 2 + 19 + 2 + 2 + 2 + 26 + 48)
       /\ vertex_count part = 1
       /\ List.length (vertices part) = 1%nat
       /\ face_count part = 0.
Proof.
  split; [vm_compute; reflexivity|].
  split; [vm_compute; reflexivity|].
  split; [vm_compute; reflexivity|].
  eexists.
  split; [reflexivity|].
  split; [reflexivity|].
  split; reflexivity.
Qed.

(** The triangle of [triangle_mesh] is a valid input for C7. *)
Lemma valid_mesh_parts_well_formed_witness :
  exists part off,
    extract_model (F := Binary64) triangle_mesh 64 = Ok (Some part, off)
    /\ well_formed part
    /\ match apply_transforms part with
       | Ok part' => well_formed part'
       | Raise e => float_error e
       end.
Proof.
  apply (valid_mesh_parts_well_formed (F := Binary64) triangle_mesh 64).
  vm_compute. reflexivity.
Defined.

(** On the triangle the whole pipeline completes. *)
Example triangle_mesh_transforms :
  match extract_model (F := Binary64) triangle_mesh 64 with
  | Ok (Some part, off) =>
      match apply_transforms part with
      | Ok part' =>
          off = 267
          /\ faces part = [(0, 1, 2)] /\ faces part' = [(0, 2, 1)]
          /\ List.length (vertices part') = 3%nat
          /\ option_map (@List.length _) (normals part') = Some 3%nat
      | Raise _ => False
      end
  | _ => False
  end.
Proof. vm_compute. repeat split; reflexivity. Qed.

End Md6MeshProofs.

(* ===================================================================== *)
(** * Properties of wolfenstein_2_resources.py                            *)
(* ===================================================================== *)

Module Wolf2Proofs.

Import Wolf2.
Import Fixtures.

Section ExtractorFacts.
Context {FS : FileSystem}.
Variable OODLE_AVAILABLE : bool.
Variable oodle_decompress : option (bytes -> Z -> result bytes).

Notation "x <- c ;; k" := (bind c (fun x => k))
  (at level 61, c at next level, right associativity).
Notation "c ;;; k" := (bind c (fun _ => k))
  (at level 61, right associativity).

(** *** The world *)

Lemma set_pos_same (w : world) : set_pos w (f_pos w) = w.
Proof. destruct w; reflexivity. Qed.

Lemma set_pos_twice (w : world) (p q : nat) : set_pos (set_pos w p) q = set_pos w q.
Proof. reflexivity. Qed.


Lemma bind_raise {A B : Type} (m : M A) (k : A -> M B) w e w1 :
  m w = (Raise e, w1) -> bind m k w = (Raise e, w1).
Proof. intros H. unfold bind. rewrite H. reflexivity. Qed.

Lemma bind_inv {A B : Type} (m : M A) (k : A -> M B) w b w' :
  bind m k w = (Ok b, w') ->
  exists a w1, m w = (Ok a, w1) /\ k a w1 = (Ok b, w').
Proof.
  unfold bind. destruct (m w) as [[a|e] w1]; [eauto|discriminate].
Qed.

(** *** Reading and seeking *)

Lemma f_read_in_range n w :
  0 <= n < 2 ^ 63 ->
  f_read n w = (Ok (firstn (Z.to_nat n) (unread w)),
                set_pos w (f_pos w + List.length (firstn (Z.to_nat n) (unread w)))%nat).
Proof.
  intros Hn. unfold f_read, unread.
  replace (n <? -1) with false by (symmetry; apply Z.ltb_ge; lia).
  replace (2 ^ 63 <=? n) with false by (symmetry; apply Z.leb_gt; lia).
  replace (n =? -1) with false by (symmetry; apply Z.eqb_neq; lia).
  reflexivity.
Qed.

Lemma f_seek_in_range off w :
  0 <= off < 2 ^ 63 -> f_seek off w = (Ok tt, set_pos w (Z.to_nat off)).
Proof.
  intros Hn. unfold f_seek.
  replace (off <? 0) with false by (symmetry; apply Z.ltb_ge; lia).
  replace (2 ^ 63 <=? off) with false by (symmetry; apply Z.leb_gt; lia).
  reflexivity.
Qed.

Lemma f_seek_inv off w u w' :
  f_seek off w = (Ok u, w') -> 0 <= off < 2 ^ 63 /\ w' = set_pos w (Z.to_nat off).
Proof.
  unfold f_seek.
  destruct (off <? 0) eqn:E1; [discriminate|].
  destruct (2 ^ 63 <=? off) eqn:E2; [discriminate|].
  intros H; injection H as _ <-. apply Z.ltb_ge in E1. apply Z.leb_gt in E2.
  split; [lia|reflexivity].
Qed.

Lemma f_seek_outcome off w r w' :
  f_seek off w = (r, w') -> w' = w \/ w' = set_pos w (Z.to_nat off).
Proof.
  unfold f_seek. destruct (off <? 0); [intros H; injection H as _ <-; auto|].
  destruct (2 ^ 63 <=? off); intros H; injection H as _ <-; auto.
Qed.

Lemma length_unread_set_pos w p :
  List.length (unread (set_pos w p)) = (List.length (f_bytes w) - p)%nat.
Proof. unfold unread. cbn. apply length_skipn. Qed.

Lemma length_unread w :
  List.length (unread w) = (List.length (f_bytes w) - f_pos w)%nat.
Proof. unfold unread. apply length_skipn. Qed.

Lemma f_read_advance n w :
  0 <= n < 2 ^ 63 ->
  f_read n w = (Ok (firstn (Z.to_nat n) (unread w)), advance w (Z.to_nat n)).
Proof.
  intros Hn. rewrite f_read_in_range by assumption. unfold advance.
  rewrite length_firstn, length_unread. reflexivity.
Qed.

Lemma read_u64_spec w :
  read_u64 w =
    (if (8 <=? List.length (unread w))%nat
     then Ok (int_from_le (firstn 8 (unread w)))
     else Raise StructError,
     advance w 8).
Proof.
  unfold read_u64, bind. rewrite f_read_advance by lia.
  unfold lift, unpack_Q, len. rewrite length_firstn.
  change (Z.to_nat 8) with 8%nat.
  destruct (8 <=? List.length (unread w))%nat eqn:E.
  - apply Nat.leb_le in E. rewrite Nat.min_l by assumption. reflexivity.
  - apply Nat.leb_gt in E. rewrite Nat.min_r by lia.
    replace (Z.of_nat (List.length (unread w)) =? 8) with false
      by (symmetry; apply Z.eqb_neq; lia).
    reflexivity.
Qed.

Lemma read_u64_inv w v w' :
  read_u64 w = (Ok v, w') ->
  (f_pos w + 8 <= List.length (f_bytes w))%nat
  /\ v = int_from_le (firstn 8 (unread w))
  /\ w' = set_pos w (f_pos w + 8)%nat.
Proof.
  rewrite read_u64_spec. destruct (8 <=? _)%nat eqn:E; [|discriminate].
  apply Nat.leb_le in E. rewrite length_unread in E.
  intros H; injection H as <- <-. unfold advance.
  rewrite Nat.min_l by lia. repeat split. lia.
Qed.

Lemma f_bytes_advance w k : f_bytes (advance w k) = f_bytes w.
Proof. reflexivity. Qed.

Lemma f_pos_advance w k :
  f_pos (advance w k) = (f_pos w + Nat.min k (List.length (f_bytes w) - f_pos w))%nat.
Proof. reflexivity. Qed.


(** *** [read_cstring] *)

Lemma bytes_eqb_refl (a : bytes) : bytes_eqb a a = true.
Proof. unfold bytes_eqb. destruct (list_eq_dec _ a a); congruence. Qed.

Lemma bytes_eqb_single (b : byte) : bytes_eqb [b] [x00] = Byte.eqb b x00.
Proof.
  unfold bytes_eqb. destruct (list_eq_dec _ [b] [x00]) as [E|E].
  - injection E as ->. reflexivity.
  - destruct (Byte.eqb b x00) eqn:Eb; [|reflexivity].
    apply Byte.byte_dec_bl in Eb. subst. congruence.
Qed.

Lemma unread_cons w b t :
  unread w = b :: t -> unread (set_pos w (f_pos w + 1)) = t.
Proof.
  unfold unread. cbn. intros H.
  replace (f_pos w + 1)%nat with (1 + f_pos w)%nat by lia.
  rewrite <- skipn_skipn, H. reflexivity.
Qed.

Lemma read_cstring_loop_spec : forall fuel chars w,
  (List.length (unread w) < fuel)%nat ->
  read_cstring_loop fuel chars w =
    (Ok (utf8_decode ErrorsIgnore (List.concat chars ++ until_null (unread w))),
     set_pos w (f_pos w + cstring_span (unread w))).
Proof.
  induction fuel as [|fuel IH]; intros chars w Hf; [lia|].
  cbn [read_cstring_loop]. unfold bind. rewrite f_read_in_range by lia.
  change (Z.to_nat 1) with 1%nat.
  destruct (unread w) as [|b t] eqn:Eu.
  - cbn [firstn List.length until_null cstring_span]. rewrite bytes_eqb_refl.
    cbn [orb]. unfold ret. rewrite app_nil_r. reflexivity.
  - cbn [firstn List.length until_null cstring_span].
    replace (bytes_eqb [b] []) with false
      by (unfold bytes_eqb; destruct (list_eq_dec _ [b] []); congruence).
    cbn [orb]. rewrite bytes_eqb_single.
    destruct (Byte.eqb b x00).
    + unfold ret. rewrite app_nil_r. reflexivity.
    + rewrite IH.
      * rewrite (unread_cons w b t Eu). cbn [f_pos set_pos].
        rewrite concat_app. cbn [List.concat]. rewrite app_nil_r, <- app_assoc.
        cbn [app]. rewrite set_pos_twice. do 2 f_equal. lia.
      * rewrite (unread_cons w b t Eu). cbn [List.length] in Hf. lia.
Qed.

(** C8 (as amended).  For every archive and cursor, [read_cstring] returns
    without raising: its value is the text of the bytes before the first
    null byte (or up to the end of the file), decoded as UTF-8 with
    malformed sequences dropped, and the cursor ends past what was
    scanned. *)
Theorem read_cstring_total (w : world) :
  read_cstring w =
    (Ok (utf8_decode ErrorsIgnore (until_null (unread w))),
     set_pos w (f_pos w + cstring_span (unread w))).
Proof.
  unfold read_cstring. fold (unread w).
  rewrite read_cstring_loop_spec by lia. reflexivity.
Qed.


(** *** [read_record], [lookup_ids] and the auxiliary-table pass *)

Lemma advance_set_pos w p k :
  advance (set_pos w p) k
  = set_pos w (p + Nat.min k (List.length (f_bytes w) - p))%nat.
Proof. reflexivity. Qed.

(** One read of [read_record]: the world stays [set_pos w p] for a new
    position [p], kept with its equation. *)
Ltac read_step H :=
  match type of H with
  | bind (f_read ?k) _ (set_pos ?w ?p) = (Ok _, _) =>
      unfold bind at 1 in H;
      rewrite (f_read_advance k (set_pos w p)) in H by lia;
      rewrite (advance_set_pos w p) in H;
      let kn := eval compute in (Z.to_nat k) in
      change (Z.to_nat k) with kn in H;
      let q := fresh "p" in
      let Eq := fresh "Ep" in
      remember (p + Nat.min kn (List.length (f_bytes w) - p))%nat as q eqn:Eq in H;
      cbv beta iota in H
  | bind read_u64 _ (set_pos ?w ?p) = (Ok _, _) =>
      unfold bind at 1 in H; rewrite (read_u64_spec (set_pos w p)) in H;
      let E := fresh "E" in
      destruct (8 <=? List.length (unread (set_pos w p)))%nat eqn:E;
      [apply Nat.leb_le in E; rewrite length_unread_set_pos in E | discriminate H];
      rewrite (advance_set_pos w p) in H;
      rewrite (Nat.min_l 8 (List.length (f_bytes w) - p)) in H by exact E;
      repeat match goal with
             | Ep : _ = (_ + Nat.min _ _)%nat |- _ => rewrite Nat.min_l in Ep by lia
             end;
      let q := fresh "p" in
      let Eq := fresh "Ep" in
      remember (p + 8)%nat as q eqn:Eq in H;
      cbv beta iota in H
  end.

(** A record that is read leaves the cursor 144 bytes further, or at the
    end of a file that stops inside the record's last 24 bytes. *)
Lemma read_record_inv w rec w' :
  read_record w = (Ok rec, w') ->
  (f_pos w + 120 <= List.length (f_bytes w))%nat
  /\ w' = set_pos w (Nat.min (f_pos w + 144) (List.length (f_bytes w))).
Proof.
  intros H. unfold read_record in H.
  rewrite <- (set_pos_same w) in H at 1.
  remember (f_pos w) as p0 eqn:Ep0 in H.
  repeat read_step H.
  unfold ret in H.
  match type of H with (_, ?W) = _ => assert (Hw : W = w') by congruence end.
  clear H. subst w'. split; [lia|]. f_equal. lia.
Qed.

Lemma lookup_ids_inv eff rec w cur t n w' :
  lookup_ids eff rec w = (Ok (cur, t, n), w') ->
  w' = w
  /\ cur = Z.of_nat (f_pos w)
  /\ 0 <= cur < 2 ^ 63
  /\ 0 <= (name_id rec + 1) * 8 + eff
  /\ n = int_from_le (firstn 8 (skipn (Z.to_nat ((name_id rec + 1) * 8 + eff)) (f_bytes w)))
  /\ List.length (firstn 8 (skipn (Z.to_nat ((name_id rec + 1) * 8 + eff)) (f_bytes w))) = 8%nat.
Proof.
  intros H. unfold lookup_ids in H.
  apply bind_inv in H as (cur' & w1 & H1 & H). unfold f_tell in H1.
  injection H1 as <- <-.
  apply bind_inv in H as (u1 & w1 & H1 & H). apply f_seek_inv in H1 as [R1 ->].
  apply bind_inv in H as (t' & w2 & H2 & H). apply read_u64_inv in H2 as (L2 & -> & ->).
  apply bind_inv in H as (u3 & w3 & H3 & H). apply f_seek_inv in H3 as [R3 ->].
  apply bind_inv in H as (n' & w4 & H4 & H). apply read_u64_inv in H4 as (L4 & -> & ->).
  apply bind_inv in H as (u5 & w5 & H5 & H). apply f_seek_inv in H5 as [R5 ->].
  unfold ret in H. injection H as <- <- <- <-.
  cbn [f_pos f_bytes set_pos] in *. unfold unread. cbn [f_pos f_bytes set_pos].
  rewrite Nat2Z.id. repeat split; try lia.
  - unfold set_pos. cbn. destruct w; reflexivity.
  - rewrite length_firstn, length_skipn. lia.
Qed.




(** *** The payload of a record *)


Lemma land_4_testbit (z : Z) : (Z.land z 4 =? 0) = negb (Z.testbit z 2).
Proof.
  assert (H : Z.land z 4 = if Z.testbit z 2 then 4 else 0).
  { apply Z.bits_inj'. intros k Hk. rewrite Z.land_spec.
    change 4 with (2 ^ 2). rewrite Z.pow2_bits_eqb by lia.
    destruct (Z.eqb_spec 2 k) as [<-|Hne].
    - rewrite andb_true_r. destruct (Z.testbit z 2); [|reflexivity].
      rewrite Z.pow2_bits_eqb by lia. reflexivity.
    - rewrite andb_false_r. destruct (Z.testbit z 2).
      + rewrite Z.pow2_bits_eqb by lia. symmetry. apply Z.eqb_neq. assumption.
      + rewrite Z.bits_0. reflexivity. }
  rewrite H. destruct (Z.testbit z 2); reflexivity.
Qed.

Lemma land_1_testbit (z : Z) : (Z.land z 1 =? 0) = negb (Z.testbit z 0).
Proof.
  assert (H : Z.land z 1 = if Z.testbit z 0 then 1 else 0).
  { apply Z.bits_inj'. intros k Hk. rewrite Z.land_spec.
    change 1 with (2 ^ 0) at 1. rewrite Z.pow2_bits_eqb by lia.
    destruct (Z.eqb_spec 0 k) as [<-|Hne].
    - rewrite andb_true_r. destruct (Z.testbit z 0); reflexivity.
    - rewrite andb_false_r. destruct (Z.testbit z 0).
      + change 1 with (2 ^ 0). rewrite Z.pow2_bits_eqb by lia.
        symmetry. apply Z.eqb_neq. assumption.
      + rewrite Z.bits_0. reflexivity. }
  rewrite H. destruct (Z.testbit z 0); reflexivity.
Qed.

(** C5.  For every compressed record (uncompressed size different from
    compressed size) the span read is [offset + 12] with length
    [zsize - 12] exactly when bit value 4 of [zip_flags] is set and bit
    value 1 is clear, and [offset] with length [zsize] otherwise; the
    payload step seeks there, reads that many bytes and hands them on. *)
Theorem header_skip_iff_bit4_and_not_bit1 output_path rec :
  size rec <> zsize rec ->
  compressed_span rec =
    (if Z.testbit (zip_flags rec) 2 && negb (Z.testbit (zip_flags rec) 0)
     then (offset rec + 12, zsize rec - 12)
     else (offset rec, zsize rec))
  /\ forall w,
       write_payload OODLE_AVAILABLE oodle_decompress output_path rec w =
         (f_seek (offset rec) ;;;
          f_seek (fst (compressed_span rec)) ;;;
          compressed_data <- f_read (snd (compressed_span rec)) ;;
          store_compressed OODLE_AVAILABLE oodle_decompress output_path (size rec)
                           compressed_data) w.
Proof.
  intros Hne. split.
  - unfold compressed_span. rewrite land_4_testbit, land_1_testbit, negb_involutive.
    destruct (Z.testbit (zip_flags rec) 2), (Z.testbit (zip_flags rec) 0); reflexivity.
  - intros w. unfold write_payload.
    replace (size rec =? zsize rec) with false by (symmetry; apply Z.eqb_neq; assumption).
    destruct (compressed_span rec). reflexivity.
Qed.


Lemma make_output_path_outcome od filename w r w1 :
  make_output_path od filename w = (r, w1) ->
  f_bytes w1 = f_bytes w /\ f_pos w1 = f_pos w /\ w_trace w1 = w_trace w.
Proof.
  unfold make_output_path, bind, makedirs, ret. intros H.
  destruct (fs_makedirs _ _); injection H as _ <-; repeat split.
Qed.




(** *** One iteration of the loop *)





(** *** Names *)

Lemma str_contains_app_r (sub s1 s2 : pystr) :
  str_contains sub s2 = true -> str_contains sub (s1 ++ s2) = true.
Proof.
  intros H. induction s1 as [|c s1 IH]; [assumption|].
  cbn [app str_contains]. rewrite IH. apply orb_true_r.
Qed.

Lemma str_replace_id (a b : N) (s : pystr) :
  Forall (fun c => c <> a) s -> str_replace a b s = s.
Proof.
  unfold str_replace. induction 1 as [|c s Hc _ IH]; [reflexivity|].
  cbn [map]. rewrite IH. destruct (N.eqb_spec c a); congruence.
Qed.

Lemma string_of_uint_digits (d : Decimal.uint) :
  Forall is_digit (lit (NilEmpty.string_of_uint d)).
Proof.
  unfold lit, is_digit.
  induction d; cbn [NilEmpty.string_of_uint list_ascii_of_string map];
    constructor; try assumption; cbn; lia.
Qed.

Lemma nilzero_digits (d : Decimal.uint) :
  Forall is_digit (lit (NilZero.string_of_uint d)).
Proof.
  destruct d; try apply string_of_uint_digits.
  unfold is_digit. cbn. constructor; [lia|constructor].
Qed.

Lemma format_08d_no_backslash (i : Z) :
  Forall (fun c => c <> chr "\") (format_08d i).
Proof.
  assert (Hz : forall k d, Forall is_digit d -> Forall is_digit (zfill k d)).
  { intros k d Hd. unfold zfill. apply Forall_app. split; [|assumption].
    apply Forall_forall. intros c Hc. apply repeat_spec in Hc. subst c.
    unfold is_digit. cbn. lia. }
  assert (Hd : forall s, Forall is_digit s -> Forall (fun c => c <> chr "\") s).
  { intros s. apply Forall_impl. unfold is_digit. cbn. lia. }
  unfold format_08d. destruct (i <? 0).
  - constructor; [cbn; lia|]. apply Hd, Hz, nilzero_digits.
  - apply Hd, Hz, nilzero_digits.
Qed.

Lemma synthetic_filename (i : Z) :
  make_filename i [] = lit "file_" ++ format_08d i ++ lit ".dat".
Proof.
  unfold make_filename. apply str_replace_id.
  apply Forall_app. split; [repeat constructor; cbn; lia|].
  apply Forall_app. split; [apply format_08d_no_backslash|].
  repeat constructor; cbn; lia.
Qed.

Lemma dotted_name_not_garbage (filename : pystr) (sz : Z) :
  str_contains (lit ".") filename = true -> is_garbage_file filename sz = false.
Proof.
  intros H. unfold is_garbage_file. rewrite H. cbn [negb EXTRACT_GARBAGE].
  destruct (_ && _); reflexivity.
Qed.

Lemma read_names_length names_base name_offsets : forall i names w names' w',
  read_names names_base name_offsets i names w = (Ok names', w') ->
  List.length names' = List.length names.
Proof.
  induction name_offsets as [|name_off rest IH]; intros i names w names' w' H;
    cbn [read_names] in H.
  - unfold ret in H. injection H as <- _. reflexivity.
  - apply bind_inv in H as (u & w1 & _ & H).
    apply bind_inv in H as (name & w2 & _ & H).
    apply bind_inv in H as (names1 & w3 & H1 & H).
    unfold lift in H1. injection H1 as H1 _.
    apply IH in H. rewrite H. unfold py_setitem in H1.
    destruct (_ && _); [|discriminate]. injection H1 as <-.
    apply length_list_update.
Qed.

(** C9.  With a name table of [names_count] entries, the guarded lookup
    never raises [IndexError]; and for a record whose [name_str_id] is out
    of range, or whose name is empty, the file name is [file_] followed by
    the index padded with zeros to 8 digits and [.dat], a name that is
    never classified as garbage, so that the record goes on to the output
    path and the payload. *)
Theorem unnamed_record_gets_sequential_name
  output_dir rec cur names names_count name_str_id i :
  len names = names_count ->
  0 <= name_str_id ->
  names_count <= name_str_id \/ py_getitem names name_str_id = Ok [] ->
  (forall k, 0 <= k -> lookup_name names names_count k <> Raise IndexError)
  /\ lookup_name names names_count name_str_id = Ok []
  /\ make_filename i [] = lit "file_" ++ format_08d i ++ lit ".dat"
  /\ format_08d i
     = (if i <? 0
        then chr "-" :: zfill 7 (lit (NilZero.string_of_uint (N.to_uint (Z.to_N (- i)))))
        else zfill 8 (lit (NilZero.string_of_uint (N.to_uint (Z.to_N i)))))
  /\ is_garbage_file (make_filename i []) (size rec) = false
  /\ forall w,
       finish_record OODLE_AVAILABLE oodle_decompress output_dir rec cur
                     (make_filename i []) w =
         (output_path <- make_output_path output_dir (make_filename i []) ;;
          write_payload OODLE_AVAILABLE oodle_decompress output_path rec ;;;
          f_seek cur ;;;
          ret true) w.
Proof.
  intros Hlen Hn Hcase.
  assert (Hg : is_garbage_file (make_filename i []) (size rec) = false).
  { apply dotted_name_not_garbage. rewrite synthetic_filename.
    rewrite app_assoc. apply str_contains_app_r. reflexivity. }
  split; [|split; [|split; [|split; [|split]]]].
  - intros k Hk. unfold lookup_name.
    destruct (k <? names_count) eqn:E; [|discriminate].
    apply Z.ltb_lt in E. destruct (py_getitem_ok names k) as [x Hx]; [lia|].
    unfold pystr in *. congruence.
  - unfold lookup_name. destruct (name_str_id <? names_count) eqn:E; [|reflexivity].
    apply Z.ltb_lt in E. destruct Hcase as [H|H]; [lia|assumption].
  - apply synthetic_filename.
  - reflexivity.
  - assumption.
  - intros w. unfold finish_record. rewrite Hg. reflexivity.
Qed.

(** *** The whole iteration *)


Lemma finish_record_cursor output_dir rec cur filename w b w' :
  finish_record OODLE_AVAILABLE oodle_decompress output_dir rec cur filename w = (Ok b, w') ->
  f_pos w' = if b then Z.to_nat cur else f_pos w.
Proof.
  unfold finish_record. destruct (is_garbage_file _ _).
  - unfold ret. intros H; injection H as <- <-. reflexivity.
  - intros H. apply bind_inv in H as (op & w1 & _ & H).
    apply bind_inv in H as (u & w2 & _ & H).
    apply bind_inv in H as (u' & w3 & Hs & H).
    apply f_seek_inv in Hs as [_ ->]. unfold ret in H. injection H as <- <-.
    reflexivity.
Qed.

(** C10 (as amended).  Every iteration that completes, skipped or
    extracted, leaves the cursor where it stood after the record's fields
    were read: 144 bytes further when the file holds the whole record, and
    at the end of the file when the file stops inside the record's last
    24 bytes. *)
Theorem iteration_ends_at_saved_cursor
  output_dir names names_count eff i w b w' :
  process_record OODLE_AVAILABLE oodle_decompress output_dir names names_count eff i w
    = (Ok b, w') ->
  (exists rec w1, read_record w = (Ok rec, w1) /\ f_pos w' = f_pos w1)
  /\ f_pos w' = Nat.min (f_pos w + 144) (List.length (f_bytes w))
  /\ ((f_pos w + 144 <= List.length (f_bytes w))%nat -> f_pos w' = (f_pos w + 144)%nat).
Proof.
  intros H. unfold process_record in H.
  apply bind_inv in H as (rec & w1 & Hr & H).
  apply bind_inv in H as ([[cur t] n] & w2 & Hl & H).
  apply bind_inv in H as (str2 & w3 & Hn & H).
  unfold lift in Hn. injection Hn as _ <-.
  apply lookup_ids_inv in Hl as (-> & Hcur & _).
  apply finish_record_cursor in H.
  assert (Hpos : f_pos w' = f_pos w1).
  { rewrite H. destruct b; [|reflexivity]. rewrite Hcur. apply Nat2Z.id. }
  apply read_record_inv in Hr as Hr'. destruct Hr' as (_ & Hw1).
  split; [eauto|]. rewrite Hpos, Hw1. cbn [f_pos set_pos]. split; [reflexivity|lia].
Qed.

(** The name table [extract_resources] hands to the loop has
    [names_count] entries. *)
Lemma names_table_length names_base name_offsets names_count w names w' :
  0 <= names_count ->
  read_names names_base name_offsets 0 (repeat [] (Z.to_nat names_count)) w
    = (Ok names, w') ->
  len names = names_count.
Proof.
  intros Hn H. apply read_names_length in H. unfold len.
  rewrite H, repeat_length. lia.
Qed.

End ExtractorFacts.

(** ** The claims on concrete archives *)


(** Entry [name_id] of the name table is another name. *)
Example record0_name_is_not_names_at_name_id :
  py_getitem names_a (name_id record0) = Ok (lit "tex/foo_bar.tex")
  /\ py_getitem names_a 3 = Ok (lit "doc/readme.txt").
Proof. split; vm_compute; reflexivity. Qed.



(** C4 (as amended).  [foo#bar.tex_medium] becomes [foo_bar.tex], and
    [model_lodgroup=3.mesh] becomes [model]: everything from the build tag
    on is stripped, the extension after it included. *)
Theorem sanitization_examples :
  clean_name (lit "foo#bar.tex_medium") = lit "foo_bar.tex"
  /\ clean_name (lit "model_lodgroup=3.mesh") = lit "model".
Proof. split; vm_compute; reflexivity. Qed.

(** C4 as stated fails: [model_lodgroup=3.mesh] does not become
    [model.mesh]. *)
Lemma lodgroup_example_loses_extension :
  ~ (clean_name (lit "foo#bar.tex_medium") = lit "foo_bar.tex"
     /\ clean_name (lit "model_lodgroup=3.mesh") = lit "model.mesh").
Proof. intros [_ H]. vm_compute in H. discriminate. Qed.

(** C5, on records 1 and 3 of [archive_a]: flags 4 skip the header,
    flags 5 do not. *)
Lemma header_skip_iff_bit4_and_not_bit1_witness :
  compressed_span record1 = (a_data_off + 5 + 12, 16 - 12)
  /\ compressed_span record3 = (a_data_off + 71, 2).
Proof.
  split.
  - apply (proj1 (header_skip_iff_bit4_and_not_bit1 (FS := MemFS) false None
                    (lit "out/tex/foo_bar.tex") record1 ltac:(vm_compute; discriminate))).
  - apply (proj1 (header_skip_iff_bit4_and_not_bit1 (FS := MemFS) false None
                    (lit "out/file_00000003.dat") record3 ltac:(vm_compute; discriminate))).
Defined.



(** C8 as stated fails: before the letter A an invalid byte is dropped,
    where replacing it would give U+FFFD. *)
Lemma read_cstring_drops_invalid_bytes :
  fst (read_cstring cstring_world) = Ok (lit "A")
  /\ utf8_decode ErrorsReplace (until_null (unread cstring_world)) = [65533%N; 65%N]
  /\ fst (read_cstring cstring_world)
     <> Ok (utf8_decode ErrorsReplace (until_null (unread cstring_world))).
Proof.
  split; [vm_compute; reflexivity|]. split; [vm_compute; reflexivity|].
  vm_compute. discriminate.
Qed.

(** C9, on record 3 of [archive_a], whose name index 9 is outside the
    four names. *)
Lemma unnamed_record_gets_sequential_name_witness :
  lookup_name names_a 4 9 = Ok []
  /\ make_filename 3 [] = lit "file_00000003.dat"
  /\ is_garbage_file (make_filename 3 []) (size record3) = false.
Proof.
  destruct (unnamed_record_gets_sequential_name (FS := MemFS) false None
              (lit "out") record3 0 names_a 4 9 3)
    as (_ & H1 & H2 & H3 & H4 & _).
  - reflexivity.
  - lia.
  - left. lia.
  - split; [exact H1|]. split; [|exact H4].
    rewrite H2. vm_compute. reflexivity.
Defined.

(** The index is padded to 8 digits, and longer when it needs more. *)
Example format_08d_values :
  format_08d 3 = lit "00000003" /\ format_08d 123456789 = lit "123456789".
Proof. split; vm_compute; reflexivity. Qed.

(** C10, on record 0 of [archive_a]. *)
Lemma iteration_ends_at_saved_cursor_witness :
  (exists rec w1,
     read_record (archive_at archive_a a_info_off) = (Ok rec, w1)
     /\ f_pos after_record0 = f_pos w1)
  /\ f_pos after_record0
     = Nat.min (f_pos (archive_at archive_a a_info_off) + 144)
               (List.length (f_bytes (archive_at archive_a a_info_off)))
  /\ ((f_pos (archive_at archive_a a_info_off) + 144
       <= List.length (f_bytes (archive_at archive_a a_info_off)))%nat ->
      f_pos after_record0 = (f_pos (archive_at archive_a a_info_off) + 144)%nat).
Proof.
  apply (iteration_ends_at_saved_cursor (FS := MemFS) false None
           (lit "out") names_a 4 a_eff 0 (archive_at archive_a a_info_off)
           true after_record0).
  vm_compute. reflexivity.
Defined.

(** C10 as stated fails: on [archive_b], whose only record lacks its last
    24 bytes, the iteration completes and the cursor has moved by 120. *)
Lemma truncated_record_moves_cursor_120 :
  exists b w',
    process_record false None (lit "out") [] 0 b_dummy7_off 0
                   (archive_at archive_b b_info_off) = (Ok b, w')
    /\ f_pos w' = (f_pos (archive_at archive_b b_info_off) + 120)%nat
    /\ f_pos w' <> (f_pos (archive_at archive_b b_info_off) + 144)%nat.
Proof.
  exists true.
  exists (snd (process_record false None (lit "out") [] 0 b_dummy7_off 0
                 (archive_at archive_b b_info_off))).
  split; [vm_compute; reflexivity|].
  split; [vm_compute; reflexivity|]. vm_compute. discriminate.
Qed.


End Wolf2Proofs.

(* ===================================================================== *)
(** * More properties of md6mesh.py                                      *)
(* ===================================================================== *)

Module Md6MeshExtras.

Import Md6Mesh.
Import Md6MeshMain.
Import MeshVocabulary.
Import Md6MeshProofs.
Import Fixtures.
Import MoreFixtures.

Section MeshExtras.
Context {F : PyFloat}.

(** *** The geometry transforms *)

(** X1.  Flipping the orientation of the faces twice gives the faces back,
    and flipping keeps their number. *)
Theorem flip_faces_involution (fcs : list face) :
  flip_faces (flip_faces fcs) = fcs
  /\ List.length (flip_faces fcs) = List.length fcs.
Proof.
  unfold flip_faces. split; [|apply length_map].
  rewrite map_map. rewrite <- (map_id fcs) at 2.
  apply map_ext. intros [[a b] c]. reflexivity.
Qed.

(** *** The marker search *)

Lemma match_marker_some data i ml markers mk :
  match_marker data i ml markers = Some mk ->
  In mk markers /\ py_slice data i (i + ml) = mk.
Proof.
  induction markers as [|m0 rest IH]; cbn [match_marker]; [discriminate|].
  unfold bytes_eqb. destruct (list_eq_dec _ _ m0) as [E|E].
  - intros H; injection H as <-. split; [left; reflexivity|assumption].
  - intros H. apply IH in H as [H1 H2]. split; [right; assumption|assumption].
Qed.

Lemma match_marker_none data i ml markers :
  match_marker data i ml markers = None ->
  ~ In (py_slice data i (i + ml)) markers.
Proof.
  induction markers as [|m0 rest IH]; cbn [match_marker]; [intros _ []|].
  unfold bytes_eqb. destruct (list_eq_dec _ _ m0) as [E|E]; [discriminate|].
  intros H [H1|H1]; [congruence|]. apply IH in H. contradiction.
Qed.

Lemma scan_markers_some data count : forall i m mk,
  scan_markers data 8 count i = (m, Some mk) ->
  i <= m < i + Z.of_nat count
  /\ In mk BUFFER_MARKERS /\ py_slice data m (m + 8) = mk
  /\ forall j, i <= j < m -> ~ is_marker_at data j.
Proof.
  induction count as [|count IH]; intros i m mk H; cbn [scan_markers] in H;
    [discriminate|].
  destruct (match_marker data i 8 BUFFER_MARKERS) as [mk'|] eqn:E.
  - injection H as <- <-. apply match_marker_some in E as [E1 E2].
    repeat split; try assumption; try lia.
  - apply IH in H as (Hr & Hin & Hs & Hleft). apply match_marker_none in E.
    repeat split; try assumption; try lia.
    intros j Hj. destruct (Z.eq_dec j i) as [->|Hne]; [exact E|].
    apply Hleft. lia.
Qed.

Lemma scan_markers_none data count : forall i m,
  scan_markers data 8 count i = (m, None) ->
  m = -1 /\ forall j, i <= j < i + Z.of_nat count -> ~ is_marker_at data j.
Proof.
  induction count as [|count IH]; intros i m H; cbn [scan_markers] in H.
  - injection H as <-. split; [reflexivity|]. intros j Hj. lia.
  - destruct (match_marker data i 8 BUFFER_MARKERS) as [mk'|] eqn:E; [discriminate|].
    apply IH in H as (-> & Hnone). apply match_marker_none in E.
    split; [reflexivity|]. intros j Hj.
    destruct (Z.eq_dec j i) as [->|Hne]; [exact E|]. apply Hnone. lia.
Qed.

(** X3.  When [find_buffer_marker] finds a marker, it is one of the two
    markers, it lies whole in the buffer at the offset returned, that
    offset is not before the start of the search, and no marker stands at
    an offset between the two. *)
Theorem find_buffer_marker_leftmost data start m mk :
  find_buffer_marker data start = (m, Some mk) ->
  start <= m /\ m + 8 <= len data
  /\ In mk BUFFER_MARKERS /\ py_slice data m (m + 8) = mk
  /\ forall j, start <= j < m -> ~ is_marker_at data j.
Proof.
  unfold find_buffer_marker. change (len (nth 0 BUFFER_MARKERS [])) with 8.
  intros H. apply scan_markers_some in H as (Hr & Hin & Hs & Hleft).
  repeat split; try assumption; lia.
Qed.

(** X4.  Searching from a start that is not negative, [extract_model]
    returns [(None, -1)] exactly when no marker stands at an offset from
    the start to the last offset that leaves room for one; it then raises
    nothing. *)
Theorem no_marker_no_part data start :
  0 <= start ->
  (forall j, start <= j <= len data - 8 -> ~ is_marker_at data j)
  <-> extract_model data start = Ok (None, -1).
Proof.
  intros Hs. unfold extract_model, find_buffer_marker.
  change (len (nth 0 BUFFER_MARKERS [])) with 8.
  destruct (scan_markers data 8 _ start) as [m [mk|]] eqn:E.
  - apply scan_markers_some in E as (Hr & Hin & Hsl & _).
    replace (m =? -1) with false by (symmetry; apply Z.eqb_neq; lia).
    split.
    + intros Hnone. exfalso. apply (Hnone m); [lia|]. unfold is_marker_at.
      rewrite Hsl. assumption.
    + intros H.
      repeat match type of H with
             | bind ?r _ = _ => destruct r; cbn [bind] in H; [|discriminate]
             | (let '(_, _) := ?p in _) = _ => destruct p
             end.
      discriminate.
  - apply scan_markers_none in E as (-> & Hnone). cbn [Z.eqb].
    split; [reflexivity|]. intros _ j Hj. apply Hnone. lia.
Qed.

(** *** Decoding a part *)

Lemma py_slice_len_clip {A : Type} (l : list A) (a b : Z) :
  0 <= a -> a <= b ->
  len (py_slice l a b) = Z.min b (len l) - Z.min a (len l).
Proof.
  intros Ha Hab. unfold py_slice, clamp_index.
  replace (a <? 0) with false by (symmetry; apply Z.ltb_ge; lia).
  replace (b <? 0) with false by (symmetry; apply Z.ltb_ge; lia).
  unfold len. rewrite length_firstn, length_skipn. lia.
Qed.

Lemma read_float_le_outcome data off :
  0 <= off ->
  (off + 4 <= len data /\ exists x, read_float_le data off = Ok x)
  \/ (len data < off + 4 /\ read_float_le data off = Raise StructError).
Proof.
  intros H0. unfold read_float_le, unpack_float.
  rewrite py_slice_len_clip by lia. pose proof (len_nonneg data).
  destruct (Z_le_gt_dec (off + 4) (len data)) as [Hin|Hout].
  - left. split; [assumption|].
    replace (_ =? 4) with true by (symmetry; apply Z.eqb_eq; lia). eauto.
  - right. split; [lia|].
    replace (_ =? 4) with false by (symmetry; apply Z.eqb_neq; lia). reflexivity.
Qed.

Lemma read_int16_le_outcome data off :
  0 <= off ->
  (off + 2 <= len data /\ exists v, read_int16_le data off = Ok v)
  \/ (len data < off + 2 /\ read_int16_le data off = Raise StructError).
Proof.
  intros H0. unfold read_int16_le, unpack_H.
  rewrite py_slice_len_clip by lia. pose proof (len_nonneg data).
  destruct (Z_le_gt_dec (off + 2) (len data)) as [Hin|Hout].
  - left. split; [assumption|].
    replace (_ =? 2) with true by (symmetry; apply Z.eqb_eq; lia). eauto.
  - right. split; [lia|].
    replace (_ =? 2) with false by (symmetry; apply Z.eqb_neq; lia). reflexivity.
Qed.

Ltac float_read data off H0 :=
  let x := fresh "x" in
  let E := fresh "E" in
  let Hb := fresh "Hb" in
  destruct (read_float_le_outcome data off H0) as [[Hb [x E]]|[Hb E]];
  rewrite E; cbn [bind].

Ltac int_read data off H0 :=
  let x := fresh "i" in
  let E := fresh "E" in
  let Hb := fresh "Hb" in
  destruct (read_int16_le_outcome data off H0) as [[Hb [x E]]|[Hb E]];
  rewrite E; cbn [bind].

(** The vertex loop returns [count] more vertices and UVs when the last
    UV lies in the buffer, and raises [struct.error] when it does not. *)
Lemma read_vertices_outcome data count : forall off vs us,
  0 <= off ->
  match read_vertices data count off vs us with
  | Ok (vs', us', off') =>
      (count = 0%nat \/ off + VERTEX_STRIDE * (Z.of_nat count - 1) + 20 <= len data)
      /\ List.length vs' = (List.length vs + count)%nat
      /\ List.length us' = (List.length us + count)%nat
      /\ off' = off + VERTEX_STRIDE * Z.of_nat count
  | Raise e =>
      e = StructError
      /\ len data < off + VERTEX_STRIDE * (Z.of_nat count - 1) + 20
  end.
Proof.
  unfold VERTEX_STRIDE.
  induction count as [|count IH]; intros off vs us H0; cbn [read_vertices].
  - repeat split; lia.
  - assert (H4 : 0 <= off + 4) by lia. assert (H8 : 0 <= off + 8) by lia.
    assert (H12 : 0 <= off + 12) by lia. assert (H16 : 0 <= off + 16) by lia.
    float_read data off H0; [|split; [reflexivity|lia]].
    float_read data (off + 4) H4; [|split; [reflexivity|lia]].
    float_read data (off + 8) H8; [|split; [reflexivity|lia]].
    float_read data (off + 12) H12; [|split; [reflexivity|lia]].
    float_read data (off + 16) H16; [|split; [reflexivity|lia]].
    assert (H48 : 0 <= off + 48) by lia.
    specialize (IH (off + 48) (vs ++ [(x, x0, x1)]) (us ++ [(x2, x3)]) H48).
    unfold VERTEX_STRIDE.
    destruct (read_vertices data count (off + 48) _ _) as [[[vs' us'] off']|e].
    + destruct IH as (Hc & Lv & Lu & Ho). rewrite length_app in Lv, Lu.
      cbn [List.length] in Lv, Lu. repeat split; lia.
    + destruct IH as (-> & Hlen). split; [reflexivity|lia].
Qed.

Lemma read_faces_outcome data count : forall off fs,
  0 <= off ->
  match read_faces data count off fs with
  | Ok (fs', off') =>
      off + 6 * Z.of_nat count <= len data \/ count = 0%nat
  | Raise e =>
      e = StructError /\ len data < off + 6 * Z.of_nat count
  end.
Proof.
  induction count as [|count IH]; intros off fs H0; cbn [read_faces].
  - right. reflexivity.
  - assert (H2 : 0 <= off + 2) by lia. assert (H4 : 0 <= off + 4) by lia.
    int_read data off H0; [|split; [reflexivity|lia]].
    int_read data (off + 2) H2; [|split; [reflexivity|lia]].
    int_read data (off + 4) H4; [|split; [reflexivity|lia]].
    assert (H6 : 0 <= off + 6) by lia.
    specialize (IH (off + 6) (fs ++ [(i, i0, i1)]) H6).
    destruct (read_faces data count (off + 6) _) as [[fs' off']|e].
    + left. destruct IH as [IH| ->]; lia.
    + destruct IH as (-> & Hlen). split; [reflexivity|lia].
Qed.

Lemma read_faces_length data count : forall off fs fs' off',
  read_faces data count off fs = Ok (fs', off') ->
  List.length fs' = (List.length fs + count)%nat.
Proof.
  induction count as [|count IH]; intros off fs fs' off' H; cbn [read_faces] in H.
  - injection H as <- _. lia.
  - repeat match type of H with
           | bind ?r _ = _ => destruct r; cbn [bind] in H; [|discriminate]
           end.
    apply IH in H. rewrite length_app in H. cbn [List.length] in H. lia.
Qed.

(** Once the two counts are read, the part is decoded when the buffer
    reaches [required_end], and [struct.error] is raised when it does
    not. *)
Lemma extract_model_outcome data start m mk vc fc :
  0 <= start ->
  find_buffer_marker data start = (m, Some mk) ->
  read_int16_le data (vertex_count_offset m) = Ok vc ->
  read_int16_le data (face_count_offset m) = Ok fc ->
  (len data < required_end m vc fc ->
   extract_model data start = Raise StructError)
  /\ (required_end m vc fc <= len data ->
      exists part,
        extract_model data start
          = Ok (Some part,
                first_vertex_offset m + VERTEX_STRIDE * vc + 6 * fc)
        /\ len (vertices part) = vc /\ len (uvs part) = vc
        /\ len (faces part) = fc).
Proof.
  intros Hs Ef Ev Ec.
  apply find_buffer_marker_found in Ef as Hm.
  apply read_int16_le_nonneg in Ev as Hvc. apply read_int16_le_nonneg in Ec as Hfc.
  assert (H0 : 0 <= first_vertex_offset m).
  { unfold first_vertex_offset, face_count_offset, vertex_count_offset.
    change (len BUFFER_MARKERS) with 2.
    unfold SKIP_TO_VERTEX_COUNT, SKIP_TO_FACE_COUNT, SKIP_TO_FIRST_VERTEX. lia. }
  unfold extract_model. rewrite Ef.
  replace (m =? -1) with false by (symmetry; apply Z.eqb_neq; lia).
  fold (vertex_count_offset m). rewrite Ev. cbn [bind].
  fold (face_count_offset m). rewrite Ec. cbn [bind].
  fold (first_vertex_offset m).
  pose proof (read_vertices_outcome data (Z.to_nat vc) (first_vertex_offset m) [] [] H0)
    as Hv.
  rewrite Z2Nat.id in Hv by assumption.
  unfold required_end. unfold VERTEX_STRIDE in *.
  destruct (read_vertices data (Z.to_nat vc) (first_vertex_offset m) [] [])
    as [[[vs us] off1]|e] eqn:Evs.
  - destruct Hv as (Hfit & Lv & Lu & ->). cbn [bind].
    assert (H1 : 0 <= first_vertex_offset m + 48 * vc) by lia.
    pose proof (read_faces_outcome data (Z.to_nat fc) _ [] H1) as Hf.
    rewrite Z2Nat.id in Hf by assumption.
    destruct (read_faces data (Z.to_nat fc) (first_vertex_offset m + 48 * vc) [])
      as [[fs off2]|e] eqn:Efs.
    + cbn [bind]. apply read_faces_offset in Efs as Hoff.
      apply read_faces_length in Efs as Lf. rewrite Z2Nat.id in Hoff by assumption.
      split.
      * intros Hshort. exfalso.
        destruct (0 <? fc) eqn:Efc; [apply Z.ltb_lt in Efc|apply Z.ltb_ge in Efc].
        { destruct Hf as [Hf|Hf]; lia. }
        destruct (0 <? vc) eqn:Evc; [apply Z.ltb_lt in Evc|apply Z.ltb_ge in Evc].
        { destruct Hfit as [Hfit|Hfit]; lia. }
        destruct (read_int16_le_outcome data (face_count_offset m)) as [[Hb _]|[_ Hb]];
          [unfold face_count_offset, vertex_count_offset;
           change (len BUFFER_MARKERS) with 2;
           unfold SKIP_TO_VERTEX_COUNT, SKIP_TO_FACE_COUNT; lia
          |lia|congruence].
      * intros _. eexists. split; [subst off2; reflexivity|].
        cbn [vertices uvs faces]. unfold len. cbn [List.length] in *. lia.
    + destruct Hf as (-> & Hlen). cbn [bind]. split; [reflexivity|].
      intros Hfit'. exfalso.
      destruct (0 <? fc) eqn:Efc; [lia|apply Z.ltb_ge in Efc].
      assert (fc = 0) by lia. subst fc. discriminate Efs.
  - destruct Hv as (-> & Hlen). cbn [bind]. split; [reflexivity|].
    intros Hfit'. exfalso.
    destruct (0 <? fc) eqn:Efc; [apply Z.ltb_lt in Efc; lia|].
    destruct (0 <? vc) eqn:Evc; [apply Z.ltb_lt in Evc; lia|apply Z.ltb_ge in Evc].
    assert (vc = 0) by lia. subst vc. discriminate Evs.
Qed.

(** X5.  A part whose two counts can be read, in a buffer that ends before
    the last byte the counts ask for, makes [extract_model] raise
    [struct.error]: no partial part is returned. *)
Theorem truncated_part_raises_struct_error data start m mk vc fc :
  0 <= start ->
  find_buffer_marker data start = (m, Some mk) ->
  read_int16_le data (vertex_count_offset m) = Ok vc ->
  read_int16_le data (face_count_offset m) = Ok fc ->
  len data < required_end m vc fc ->
  extract_model data start = Raise StructError.
Proof.
  intros Hs Ef Ev Ec Hshort.
  apply (proj1 (extract_model_outcome data start m mk vc fc Hs Ef Ev Ec) Hshort).
Qed.

(** X6.  A part whose two counts can be read, in a buffer that holds what
    they ask for, is decoded: as many vertices and UVs as the vertex
    count says, as many faces as the face count says, and the offset
    returned is the end of the face records. *)
Theorem complete_part_is_decoded data start m mk vc fc :
  0 <= start ->
  find_buffer_marker data start = (m, Some mk) ->
  read_int16_le data (vertex_count_offset m) = Ok vc ->
  read_int16_le data (face_count_offset m) = Ok fc ->
  required_end m vc fc <= len data ->
  exists part,
    extract_model data start
      = Ok (Some part, first_vertex_offset m + VERTEX_STRIDE * vc + 6 * fc)
    /\ vertex_count part = vc /\ face_count part = fc
    /\ len (vertices part) = vc /\ len (uvs part) = vc
    /\ len (faces part) = fc.
Proof.
  intros Hs Ef Ev Ec Hfit.
  destruct (proj2 (extract_model_outcome data start m mk vc fc Hs Ef Ev Ec) Hfit)
    as (part & E & L1 & L2 & L3).
  exists part. split; [exact E|].
  destruct (extract_model_layout data start m mk part _ Ef E) as (Ev' & Ec' & _).
  change (m + 2 + 19) with (vertex_count_offset m) in Ev'.
  change (m + 2 + 19 + 2 + 2) with (face_count_offset m) in Ec'.
  repeat split; try assumption; congruence.
Qed.

(** X7.  Whenever [extract_model] returns a part, the lists have the
    lengths the part's counts record, the offset returned is the end of
    its face records, and it is at least 53 bytes past the start of the
    search. *)
Theorem decoded_part_resumes_after_faces data start part off :
  0 <= start ->
  extract_model data start = Ok (Some part, off) ->
  exists m mk,
    find_buffer_marker data start = (m, Some mk)
    /\ off = first_vertex_offset m
             + VERTEX_STRIDE * vertex_count part + 6 * face_count part
    /\ len (vertices part) = vertex_count part
    /\ len (uvs part) = vertex_count part
    /\ len (faces part) = face_count part
    /\ start + 53 <= off.
Proof.
  intros Hs H.
  destruct (find_buffer_marker data start) as [m [mk|]] eqn:Ef.
  2:{ unfold extract_model in H. rewrite Ef in H.
      unfold find_buffer_marker in Ef.
      change (len (nth 0 BUFFER_MARKERS [])) with 8 in Ef.
      apply scan_markers_none in Ef as (-> & _). discriminate. }
  exists m, mk. split; [reflexivity|].
  destruct (extract_model_layout data start m mk part off Ef H) as (Ev & Ec & Hoff).
  apply find_buffer_marker_found in Ef as Hm.
  apply read_int16_le_nonneg in Ev as Hvc. apply read_int16_le_nonneg in Ec as Hfc.
  assert (Hvo : vertex_count_offset m = m + 2 + 19) by reflexivity.
  assert (Hfo : face_count_offset m = m + 2 + 19 + 2 + 2) by reflexivity.
  rewrite <- Hvo in Ev. rewrite <- Hfo in Ec.
  destruct (extract_model_outcome data start m mk _ _ Hs Ef Ev Ec)
    as [Hshort Hfit].
  destruct (Z_le_gt_dec (required_end m (vertex_count part) (face_count part)) (len data))
    as [Hin|Hout].
  - destruct (Hfit Hin) as (part' & E' & L1 & L2 & L3). rewrite H in E'.
    injection E' as <- _. unfold first_vertex_offset, VERTEX_STRIDE.
    rewrite Hfo. unfold SKIP_TO_FIRST_VERTEX. repeat split; try assumption; lia.
  - rewrite Hshort in H by lia. discriminate.
Qed.

(** *** Vertex normals *)

Lemma py_getitem_outcome {A : Type} (l : list A) (i : Z) :
  (index_in_range (len l) i /\ exists x, py_getitem l i = Ok x)
  \/ (~ index_in_range (len l) i /\ py_getitem l i = Raise IndexError).
Proof.
  unfold py_getitem, index_in_range, len.
  destruct (i <? 0) eqn:E; [apply Z.ltb_lt in E|apply Z.ltb_ge in E].
  - destruct (i + Z.of_nat (List.length l) <? 0) eqn:E2;
      [apply Z.ltb_lt in E2; right; split; [lia|reflexivity]|].
    apply Z.ltb_ge in E2.
    destruct (nth_error l _) eqn:En; [left; split; [lia|eauto]|].
    apply nth_error_None in En. lia.
  - rewrite (proj2 (Z.ltb_ge i 0) E).
    destruct (nth_error l (Z.to_nat i)) eqn:En.
    + left. split; [|eauto].
      assert (Hlt : (Z.to_nat i < List.length l)%nat)
        by (apply nth_error_Some; congruence).
      lia.
    + right. apply nth_error_None in En. split; [lia|reflexivity].
Qed.

Lemma py_setitem_in_range {A : Type} (l : list A) (i : Z) (x : A) :
  index_in_range (len l) i ->
  exists l', py_setitem l i x = Ok l' /\ List.length l' = List.length l.
Proof.
  unfold index_in_range, py_setitem. intros Hi.
  destruct (i <? 0) eqn:E; [apply Z.ltb_lt in E|apply Z.ltb_ge in E].
  - replace (0 <=? i + len l) with true by (symmetry; apply Z.leb_le; lia).
    replace (i + len l <? len l) with true by (symmetry; apply Z.ltb_lt; lia).
    eexists; split; [reflexivity|apply length_list_update].
  - replace (0 <=? i) with true by (symmetry; apply Z.leb_le; lia).
    replace (i <? len l) with true by (symmetry; apply Z.ltb_lt; lia).
    eexists; split; [reflexivity|apply length_list_update].
Qed.

Lemma accumulate_outcome normals idx n :
  (index_in_range (len normals) idx
   /\ exists normals', accumulate normals idx n = Ok normals'
                       /\ List.length normals' = List.length normals)
  \/ (~ index_in_range (len normals) idx
      /\ accumulate normals idx n = Raise IndexError).
Proof.
  unfold accumulate. destruct n as [[nx ny] nz].
  destruct (py_getitem_outcome normals idx) as [[Hi [[[a b] c] E]]|[Hi E]];
    rewrite E; cbn [bind]; [left|right; auto].
  split; [assumption|]. apply py_setitem_in_range. assumption.
Qed.

(** A face is accumulated when its three indices can be looked up, and
    raises [IndexError] when one cannot. *)
Lemma face_normal_step_outcome vs normals fc :
  List.length normals = List.length vs ->
  (face_refs (len vs) fc
   /\ exists normals', face_normal_step vs normals fc = Ok normals'
                       /\ List.length normals' = List.length vs)
  \/ (~ face_refs (len vs) fc
      /\ face_normal_step vs normals fc = Raise IndexError).
Proof.
  destruct fc as [[i0 i1] i2]. intros Hl. unfold face_normal_step, face_refs.
  assert (Hlen : forall l : list vec3, List.length l = List.length vs -> len l = len vs)
    by (intros l Hll; unfold len; lia).
  destruct (py_getitem_outcome vs i0) as [[H0 [[[v0x v0y] v0z] E0]]|[H0 E0]];
    rewrite E0; cbn [bind]; [|right; tauto].
  destruct (py_getitem_outcome vs i1) as [[H1 [[[v1x v1y] v1z] E1]]|[H1 E1]];
    rewrite E1; cbn [bind]; [|right; tauto].
  destruct (py_getitem_outcome vs i2) as [[H2 [[[v2x v2y] v2z] E2]]|[H2 E2]];
    rewrite E2; cbn [bind]; [|right; tauto].
  left. split; [tauto|].
  match goal with |- context [accumulate normals i0 ?n] =>
    destruct (accumulate_outcome normals i0 n) as [[_ (n1 & En1 & L1)]|[Hbad _]];
      [|rewrite (Hlen _ Hl) in Hbad; contradiction]
  end.
  rewrite En1. cbn [bind].
  match goal with |- context [accumulate n1 i1 ?n] =>
    destruct (accumulate_outcome n1 i1 n) as [[_ (n2 & En2 & L2)]|[Hbad _]];
      [|rewrite (Hlen n1) in Hbad by lia; contradiction]
  end.
  rewrite En2. cbn [bind].
  match goal with |- context [accumulate n2 i2 ?n] =>
    destruct (accumulate_outcome n2 i2 n) as [[_ (n3 & En3 & L3)]|[Hbad _]];
      [|rewrite (Hlen n2) in Hbad by lia; contradiction]
  end.
  rewrite En3. eexists; split; [reflexivity|lia].
Qed.

Lemma accumulate_faces_index_error vs fcs : forall normals,
  List.length normals = List.length vs ->
  Exists (fun fc => ~ face_refs (len vs) fc) fcs ->
  accumulate_faces vs fcs normals = Raise IndexError.
Proof.
  induction fcs as [|fc rest IH]; intros normals Hl Hex; [inversion Hex|].
  cbn [accumulate_faces].
  destruct (face_normal_step_outcome vs normals fc Hl)
    as [[Hok (n1 & E & L1)]|[Hbad E]]; rewrite E; cbn [bind]; [|reflexivity].
  apply IH; [assumption|]. inversion Hex; subst; [contradiction|assumption].
Qed.

(** What [normals[k]] holds is not changed by accumulating at another
    index. *)
Lemma nth_error_list_update {A : Type} (l : list A) (n k : nat) (x : A) :
  n <> k -> nth_error (list_update l n x) k = nth_error l k.
Proof.
  revert n k. induction l as [|h t IH]; intros [|n] [|k] H; cbn; try reflexivity;
    try congruence.
  apply IH. congruence.
Qed.

Lemma accumulate_other normals idx n normals' (k : nat) :
  0 <= idx -> idx <> Z.of_nat k ->
  accumulate normals idx n = Ok normals' ->
  nth_error normals' k = nth_error normals k.
Proof.
  intros H0 Hne. unfold accumulate. destruct n as [[nx ny] nz].
  destruct (py_getitem normals idx) as [[[a b] c]|]; cbn [bind]; [|discriminate].
  unfold py_setitem.
  replace (idx <? 0) with false by (symmetry; apply Z.ltb_ge; lia).
  destruct (_ && _); [|discriminate]. intros H; injection H as <-.
  apply nth_error_list_update. lia.
Qed.

Lemma accumulate_faces_other vs fcs (k : nat) : forall normals normals',
  Forall (face_in (len vs)) fcs ->
  unreferenced (Z.of_nat k) fcs ->
  accumulate_faces vs fcs normals = Ok normals' ->
  nth_error normals' k = nth_error normals k.
Proof.
  induction fcs as [|[[i0 i1] i2] rest IH]; intros normals normals' Hf Hu H;
    cbn [accumulate_faces] in H.
  - injection H as <-. reflexivity.
  - inversion Hf as [|? ? Hfc Hf']; subst. cbn in Hfc.
    destruct Hfc as (H0 & H1 & H2).
    unfold unreferenced in Hu.
    inversion Hu as [|? ? Hn Hu']; subst. cbn in Hn.
    destruct Hn as (N0 & N1 & N2).
    destruct (face_normal_step vs normals (i0, i1, i2)) as [n1|] eqn:E;
      cbn [bind] in H; [|discriminate].
    rewrite (IH _ _ Hf' Hu' H).
    unfold face_normal_step in E.
    repeat match type of E with
           | bind (py_getitem ?l ?i) _ = _ =>
               destruct (py_getitem l i) as [[[? ?] ?]|]; cbn [bind] in E;
               [|discriminate]
           end.
    match type of E with bind ?a _ = _ =>
      destruct a as [m1|] eqn:A1; cbn [bind] in E; [|discriminate] end.
    match type of E with bind ?a _ = _ =>
      destruct a as [m2|] eqn:A2; cbn [bind] in E; [|discriminate] end.
    assert (R3 : nth_error n1 k = nth_error m2 k)
      by (eapply accumulate_other; [| |exact E]; [lia|exact N2]).
    assert (R2 : nth_error m2 k = nth_error m1 k)
      by (eapply accumulate_other; [| |exact A2]; [lia|exact N1]).
    assert (R1 : nth_error m1 k = nth_error normals k)
      by (eapply accumulate_other; [| |exact A1]; [lia|exact N0]).
    congruence.
Qed.

Lemma normalize_all_nth normals : forall acc res (k : nat) n,
  normalize_all normals acc = Ok res ->
  nth_error normals k = Some n ->
  exists v, normalize n = Ok v
            /\ nth_error res (List.length acc + k) = Some v.
Proof.
  induction normals as [|n0 rest IH]; intros acc res k n H Hk;
    cbn [normalize_all] in H.
  - destruct k; discriminate.
  - destruct (normalize n0) as [v0|] eqn:E0; cbn [bind] in H; [|discriminate].
    destruct k as [|k]; cbn [nth_error] in Hk.
    + injection Hk as <-. exists v0. split; [assumption|].
      assert (Hpre : forall rest' acc' res', normalize_all rest' acc' = Ok res' ->
                exists tail, res' = acc' ++ tail).
      { clear. induction rest' as [|m r IHr]; intros acc' res' H'; cbn in H'.
        - injection H' as <-. exists []. symmetry. apply app_nil_r.
        - destruct (normalize m) as [vm|]; cbn [bind] in H'; [|discriminate].
          apply IHr in H' as [tail ->]. exists (vm :: tail).
          rewrite <- app_assoc. reflexivity. }
      apply Hpre in H as [tail ->]. rewrite Nat.add_0_r.
      rewrite <- app_assoc. rewrite nth_error_app2 by lia.
      rewrite Nat.sub_diag. reflexivity.
    + destruct (IH _ _ _ _ H Hk) as (v & Ev & Hn). exists v. split; [assumption|].
      rewrite length_app in Hn. cbn [List.length] in Hn.
      replace (List.length acc + S k)%nat with (List.length acc + 1 + k)%nat by lia.
      assumption.
Qed.

(** A vertex no face names gets the normal [normalize] gives to the zero
    vector. *)
Lemma isolated_vertex_normal vs fcs ns (k : nat) :
  Forall (face_in (len vs)) fcs ->
  unreferenced (Z.of_nat k) fcs ->
  (k < List.length vs)%nat ->
  calculate_vertex_normals vs fcs = Ok ns ->
  exists v, normalize (fconst0, fconst0, fconst0) = Ok v
            /\ nth_error ns k = Some v.
Proof.
  intros Hf Hu Hk H. unfold calculate_vertex_normals in H.
  destruct (accumulate_faces vs fcs _) as [normals|] eqn:E; cbn [bind] in H;
    [|discriminate].
  apply (accumulate_faces_other vs fcs k) in E; try assumption.
  assert (Hz : nth_error (map (fun _ : vec3 => (fconst0, fconst0, fconst0)) vs) k
               = Some (fconst0, fconst0, fconst0)).
  { destruct (nth_error vs k) as [v|] eqn:Ev.
    - apply (map_nth_error (fun _ : vec3 => (fconst0, fconst0, fconst0))) in Ev.
      exact Ev.
    - apply nth_error_None in Ev. lia. }
  pose proof (eq_trans E Hz) as E'.
  destruct (normalize_all_nth _ _ _ _ _ H E') as (v & Ev & Hn). eauto.
Qed.

End MeshExtras.

(** X9.  A vertex that no face names gets the normal (0, 0, 1). *)
Theorem isolated_vertex_points_up
  (vs : list (vec3 (F := Binary64))) fcs ns (k : nat) :
  Forall (face_in (len vs)) fcs ->
  unreferenced (Z.of_nat k) fcs ->
  (k < List.length vs)%nat ->
  calculate_vertex_normals vs fcs = Ok ns ->
  nth_error ns k = Some (fconst0, fconst0, fconst1).
Proof.
  intros Hf Hu Hk H.
  destruct (isolated_vertex_normal vs fcs ns k Hf Hu Hk H) as (v & Ev & Hn).
  rewrite Hn. f_equal.
  assert (Hz : normalize (F := Binary64) (fconst0, fconst0, fconst0)
               = Ok (fconst0, fconst0, fconst1)) by reflexivity.
  congruence.
Qed.

Lemma sf_opp_involutive (x : SpecFloat.spec_float) :
  SpecFloat.SFopp (SpecFloat.SFopp x) = x.
Proof. destruct x; cbn; rewrite ?negb_involutive; reflexivity. Qed.

(** X2.  Four rotations by -90 degrees about the X axis give every vertex
    back, bit for bit: the rotation only moves coordinates and changes a
    sign. *)
Theorem four_rotations_restore_vertices (vs : list (vec3 (F := Binary64))) :
  rotate_x_minus_90 (rotate_x_minus_90 (rotate_x_minus_90 (rotate_x_minus_90 vs)))
  = vs.
Proof.
  unfold rotate_x_minus_90. rewrite !map_map. rewrite <- (map_id vs) at 2.
  apply map_ext. intros [[x y] z]. cbn [fneg Binary64].
  rewrite !sf_opp_involutive. reflexivity.
Qed.

Lemma face_refs_dec (n : Z) (fc : face) : {face_refs n fc} + {~ face_refs n fc}.
Proof.
  destruct fc as [[a b] c]. unfold face_refs, index_in_range.
  destruct (Z_le_dec (- n) a), (Z_lt_dec a n), (Z_le_dec (- n) b), (Z_lt_dec b n),
    (Z_le_dec (- n) c), (Z_lt_dec c n); try (right; lia). left. lia.
Qed.

Section MeshLaws.
Context {F : PyFloat} {FL : PyFloatLaws F}.

(** *** What the transforms can raise *)

Lemma accumulate_faces_total vs fcs : forall normals,
  List.length normals = List.length vs ->
  Forall (face_refs (len vs)) fcs ->
  exists normals', accumulate_faces vs fcs normals = Ok normals'
                   /\ List.length normals' = List.length vs.
Proof.
  induction fcs as [|fc rest IH]; intros normals Hl Hf; cbn [accumulate_faces].
  - eauto.
  - inversion Hf as [|? ? Hfc Hrest]; subst.
    destruct (face_normal_step_outcome vs normals fc Hl)
      as [[_ (n1 & E & L1)]|[Hbad _]]; [|contradiction].
    rewrite E. cbn [bind]. apply IH; assumption.
Qed.

Lemma calculate_vertex_normals_raises vs fcs e :
  calculate_vertex_normals vs fcs = Raise e ->
  (e = IndexError /\ Exists (fun fc => ~ face_refs (len vs) fc) fcs)
  \/ (float_error e /\ Forall (face_refs (len vs)) fcs).
Proof.
  intros H.
  destruct (Forall_Exists_dec (face_refs (len vs)) (face_refs_dec (len vs)) fcs)
    as [Hall|Hex].
  - right. split; [|assumption]. unfold calculate_vertex_normals in H.
    destruct (accumulate_faces_total vs fcs
                (map (fun _ => (fconst0, fconst0, fconst0)) vs)) as (normals & E & _);
      [apply length_map|assumption|].
    rewrite E in H. cbn [bind] in H.
    pose proof (normalize_all_outcome normals []) as Hn. rewrite H in Hn. exact Hn.
  - left. split; [|assumption]. unfold calculate_vertex_normals in H.
    rewrite accumulate_faces_index_error in H;
      [|apply length_map|assumption].
    cbn [bind] in H. congruence.
Qed.

Lemma apply_transforms_normals md :
  apply_transforms md
  = bind (calculate_vertex_normals (rotate_x_minus_90 (vertices md))
                                   (flip_faces (faces md)))
         (fun ns => Ok (mkModel (rotate_x_minus_90 (vertices md)) (flip_uvs (uvs md))
                                (flip_faces (faces md)) (vertex_count md)
                                (face_count md) (Some ns))).
Proof. reflexivity. Qed.

Lemma flip_faces_refs n fcs :
  Exists (fun fc => ~ face_refs n fc) (flip_faces fcs)
  <-> Exists (fun fc => ~ face_refs n fc) fcs.
Proof.
  unfold flip_faces. rewrite !Exists_exists. split.
  - intros (fc & Hin & Hbad). apply in_map_iff in Hin as ([[a b] c] & <- & Hin).
    exists (a, b, c). split; [assumption|]. unfold face_refs in *. tauto.
  - intros ([[a b] c] & Hin & Hbad). exists (a, c, b). split.
    + apply in_map_iff. exists (a, b, c). split; [reflexivity|assumption].
    + unfold face_refs in *. tauto.
Qed.

Lemma apply_transforms_raises md e :
  apply_transforms md = Raise e ->
  (e = IndexError /\ Exists (fun fc => ~ face_refs (len (vertices md)) fc) (faces md))
  \/ float_error e.
Proof.
  rewrite apply_transforms_normals. intros H.
  destruct (calculate_vertex_normals _ _) as [ns|e'] eqn:E; cbn [bind] in H;
    [discriminate|].
  injection H as ->.
  apply calculate_vertex_normals_raises in E as [[He Hex]|[He _]]; [left|right; exact He].
  split; [exact He|].
  apply (proj1 (flip_faces_refs _ _)) in Hex.
  replace (len (rotate_x_minus_90 (vertices md))) with (len (vertices md)) in Hex
    by (unfold len, rotate_x_minus_90; rewrite length_map; reflexivity).
  exact Hex.
Qed.

(** X8.  [apply_transforms] raises [IndexError] exactly when some face holds
    an index that cannot be looked up in the vertices (not in
    [-n, n) for [n] vertices). *)
Theorem index_error_iff_bad_face_index (md : model_data) :
  apply_transforms md = Raise IndexError
  <-> Exists (fun fc => ~ face_refs (len (vertices md)) fc) (faces md).
Proof.
  split.
  - intros H. apply apply_transforms_raises in H as [[_ Hex]|Hf]; [exact Hex|].
    destruct Hf as [Hf|[Hf|Hf]]; discriminate.
  - intros Hex. rewrite apply_transforms_normals.
    unfold calculate_vertex_normals.
    rewrite accumulate_faces_index_error; [reflexivity|apply length_map|].
    apply (proj2 (flip_faces_refs _ _)).
    replace (len (rotate_x_minus_90 (vertices md))) with (len (vertices md))
      by (unfold len, rotate_x_minus_90; rewrite length_map; reflexivity).
    exact Hex.
Qed.

(** *** What decoding can raise, and how far it moves *)

Lemma extract_model_raises data start e :
  0 <= start -> extract_model data start = Raise e -> e = StructError.
Proof.
  intros Hs H.
  destruct (find_buffer_marker data start) as [m [mk|]] eqn:Ef.
  2:{ unfold extract_model in H. rewrite Ef in H.
      unfold find_buffer_marker in Ef.
      change (len (nth 0 BUFFER_MARKERS [])) with 8 in Ef.
      apply scan_markers_none in Ef as (-> & _). discriminate. }
  apply find_buffer_marker_found in Ef as Hm.
  assert (Hvo : 0 <= vertex_count_offset m)
    by (unfold vertex_count_offset; change (len BUFFER_MARKERS) with 2;
        unfold SKIP_TO_VERTEX_COUNT; lia).
  assert (Hfo : 0 <= face_count_offset m)
    by (unfold face_count_offset, SKIP_TO_FACE_COUNT; lia).
  destruct (read_int16_le_outcome data (vertex_count_offset m) Hvo)
    as [[_ [vc Ev]]|[_ Ev]].
  2:{ unfold extract_model in H. rewrite Ef in H.
      replace (m =? -1) with false in H by (symmetry; apply Z.eqb_neq; lia).
      fold (vertex_count_offset m) in H. rewrite Ev in H. cbn [bind] in H.
      congruence. }
  destruct (read_int16_le_outcome data (face_count_offset m) Hfo)
    as [[_ [fc Ec]]|[_ Ec]].
  2:{ unfold extract_model in H. rewrite Ef in H.
      replace (m =? -1) with false in H by (symmetry; apply Z.eqb_neq; lia).
      fold (vertex_count_offset m) in H. rewrite Ev in H. cbn [bind] in H.
      fold (face_count_offset m) in H. rewrite Ec in H. cbn [bind] in H.
      congruence. }
  destruct (extract_model_outcome data start m mk vc fc Hs Ef Ev Ec) as [Hshort Hfit].
  destruct (Z_le_gt_dec (required_end m vc fc) (len data)) as [Hin|Hout].
  - destruct (Hfit Hin) as (part & E & _). congruence.
  - rewrite Hshort in H by lia. congruence.
Qed.

Lemma extract_model_progress data start part off :
  0 <= start ->
  extract_model data start = Ok (Some part, off) ->
  start + 53 <= off /\ start + 27 <= len data.
Proof.
  intros Hs H.
  destruct (find_buffer_marker data start) as [m [mk|]] eqn:Ef.
  2:{ unfold extract_model in H. rewrite Ef in H.
      unfold find_buffer_marker in Ef.
      change (len (nth 0 BUFFER_MARKERS [])) with 8 in Ef.
      apply scan_markers_none in Ef as (-> & _). discriminate. }
  apply find_buffer_marker_found in Ef as Hm.
  destruct (extract_model_layout data start m mk part off Ef H) as (Ev & Ec & Hoff).
  apply read_int16_le_nonneg in Ev as Hvc. apply read_int16_le_nonneg in Ec as Hfc.
  split; [lia|].
  destruct (read_int16_le_outcome data (m + 2 + 19 + 2 + 2)) as [[Hb _]|[_ Hb]];
    [lia|lia|congruence].
Qed.

(** *** The part loop *)

Section Loop.
Variable write_obj : model_data -> Z -> result unit.
Hypothesis write_obj_raises : forall md n, write_obj md n <> Raise OutOfFuel.

Lemma parts_loop_enough fuel : forall data part_number start,
  0 <= start ->
  (1 <= fuel)%nat ->
  len data - start <= 53 * (Z.of_nat fuel - 1) + 7 ->
  parts_loop write_obj fuel data part_number start <> Raise OutOfFuel
  /\ (forall more, parts_loop write_obj (fuel + more) data part_number start
                   = parts_loop write_obj fuel data part_number start)
  /\ (forall n, parts_loop write_obj fuel data part_number start = Ok n ->
                part_number <= n
                /\ 53 * (n - part_number) <= Z.max 0 (len data - start + 26)).
Proof.
  induction fuel as [|fuel IH]; intros data pn start Hs Hf Hlen; [lia|].
  cbn [parts_loop Nat.add].
  destruct (extract_model data start) as [[[part|] off]|e] eqn:E; cbn [bind].
  - apply extract_model_progress in E as (Hoff & Hroom); [|assumption].
    destruct (apply_transforms part) as [part'|e] eqn:Ea; cbn [bind].
    + destruct (write_obj part' pn) as [u|e] eqn:Ew; cbn [bind].
      * destruct (IH data (pn + 1) off) as (Hno & Hmore & Hn); [lia|lia|lia|].
        split; [exact Hno|]. split; [exact Hmore|].
        intros n En. apply Hn in En. lia.
      * split; [intros Hc; apply (write_obj_raises part' pn); congruence|].
        split; [reflexivity|discriminate].
    + split.
      * intros Hc. injection Hc as ->.
        apply apply_transforms_raises in Ea as [[Hc _]|[Hc|[Hc|Hc]]]; discriminate.
      * split; [reflexivity|discriminate].
  - split; [discriminate|]. split; [reflexivity|].
    intros n En. injection En as <-. lia.
  - split.
    + intros Hc. injection Hc as ->.
      apply extract_model_raises in E; [discriminate|assumption].
    + split; [reflexivity|discriminate].
Qed.

End Loop.

(** X10.  The part loop of [main] ends: with one more iteration than the
    file has bytes allowed it never runs out of iterations, allowing more
    changes nothing, and when it ends normally it has converted at most
    one part for every 53 bytes of the file. *)
Theorem part_loop_ends_within_the_file
  (write_obj : model_data -> Z -> result unit) (data : bytes) (fuel : nat) :
  (forall md n, write_obj md n <> Raise OutOfFuel) ->
  (List.length data < fuel)%nat ->
  convert_parts write_obj data <> Raise OutOfFuel
  /\ parts_loop write_obj fuel data 1 HEADER_SIZE = convert_parts write_obj data
  /\ (forall n, convert_parts write_obj data = Ok n ->
                1 <= n /\ 53 * (n - 1) <= Z.max 0 (len data - 38)).
Proof.
  intros Hw Hfuel. unfold convert_parts, HEADER_SIZE.
  destruct (parts_loop_enough write_obj Hw (S (List.length data)) data 1 64)
    as (Hno & Hmore & Hn); [lia|lia|unfold len; lia|].
  split; [exact Hno|]. split.
  - replace fuel with (S (List.length data) + (fuel - S (List.length data)))%nat by lia.
    apply Hmore.
  - intros n En. apply Hn in En. lia.
Qed.

End MeshLaws.

(** ** The properties on concrete buffers *)

(** X3, on [marker_mesh] searched from its start: the marker is at offset
    64, and none stands before it. *)
Lemma find_buffer_marker_leftmost_witness :
  0 <= 64 /\ 64 + 8 <= len marker_mesh
  /\ In marker0 BUFFER_MARKERS /\ py_slice marker_mesh 64 (64 + 8) = marker0
  /\ forall j, 0 <= j < 64 -> ~ is_marker_at marker_mesh j.
Proof.
  apply (find_buffer_marker_leftmost marker_mesh 0 64 marker0).
  vm_compute. reflexivity.
Defined.

(** X4, on 64 zero bytes. *)
Lemma no_marker_no_part_witness :
  (forall j, 0 <= j <= len (zeros 64) - 8 -> ~ is_marker_at (zeros 64) j)
  <-> extract_model (F := Binary64) (zeros 64) 0 = Ok (None, -1).
Proof.
  apply (no_marker_no_part (F := Binary64) (zeros 64) 0). lia.
Defined.

(** X5, on [truncated_mesh]: one vertex is declared, and the buffer ends
    3 bytes into it. *)
Lemma truncated_part_raises_struct_error_witness :
  extract_model (F := Binary64) truncated_mesh 64 = Raise StructError.
Proof.
  apply (truncated_part_raises_struct_error (F := Binary64)
           truncated_mesh 64 64 marker0 1 0).
  - lia.
  - vm_compute. reflexivity.
  - vm_compute. reflexivity.
  - vm_compute. reflexivity.
  - vm_compute. reflexivity.
Defined.

(** X6, on [marker_mesh]: one vertex and no face. *)
Lemma complete_part_is_decoded_witness :
  exists part,
    extract_model (F := Binary64) marker_mesh 64
      = Ok (Some part, first_vertex_offset 64 + VERTEX_STRIDE * 1 + 6 * 0)
    /\ vertex_count part = 1 /\ face_count part = 0
    /\ len (vertices part) = 1 /\ len (uvs part) = 1
    /\ len (faces part) = 0.
Proof.
  apply (complete_part_is_decoded (F := Binary64) marker_mesh 64 64 marker0 1 0).
  - lia.
  - vm_compute. reflexivity.
  - vm_compute. reflexivity.
  - vm_compute. reflexivity.
  - vm_compute. discriminate.
Defined.

(** X7, on [empty_part_mesh]: the search resumes at offset 117. *)
Lemma decoded_part_resumes_after_faces_witness :
  exists m mk,
    find_buffer_marker empty_part_mesh 64 = (m, Some mk)
    /\ 117 = first_vertex_offset m
             + VERTEX_STRIDE * vertex_count empty_part + 6 * face_count empty_part
    /\ len (vertices empty_part) = vertex_count empty_part
    /\ len (uvs empty_part) = vertex_count empty_part
    /\ len (faces empty_part) = face_count empty_part
    /\ 64 + 53 <= 117.
Proof.
  apply (decoded_part_resumes_after_faces (F := Binary64) empty_part_mesh 64
           empty_part 117).
  - lia.
  - reflexivity.
Defined.

(** X8, on [bad_model]. *)
Lemma index_error_iff_bad_face_index_witness :
  apply_transforms bad_model = Raise IndexError.
Proof.
  apply (proj2 (index_error_iff_bad_face_index (FL := Binary64Laws) bad_model)).
  apply Exists_cons_hd. unfold face_refs, index_in_range. cbn. lia.
Defined.

(** X9, on [four_vertices]: the fourth vertex belongs to no face. *)
Lemma isolated_vertex_points_up_witness :
  nth_error [ (fconst0, fconst0, fconst1); (fconst0, fconst0, fconst1);
              (fconst0, fconst0, fconst1); (fconst0, fconst0, fconst1) ] 3
  = Some (fconst0 (PyFloat := Binary64), fconst0, fconst1).
Proof.
  apply (isolated_vertex_points_up four_vertices one_triangle
           [ (fconst0, fconst0, fconst1); (fconst0, fconst0, fconst1);
             (fconst0, fconst0, fconst1); (fconst0, fconst0, fconst1) ] 3).
  - constructor; [cbn; lia|constructor].
  - constructor; [cbn; lia|constructor].
  - cbn. lia.
  - reflexivity.
Defined.

(** X10, on [marker_mesh] with 300 iterations allowed. *)
Lemma part_loop_ends_within_the_file_witness :
  convert_parts write_nothing marker_mesh <> Raise OutOfFuel
  /\ parts_loop write_nothing 300 marker_mesh 1 HEADER_SIZE
     = convert_parts write_nothing marker_mesh
  /\ (forall n, convert_parts write_nothing marker_mesh = Ok n ->
                1 <= n /\ 53 * (n - 1) <= Z.max 0 (len marker_mesh - 38)).
Proof.
  apply (part_loop_ends_within_the_file (FL := Binary64Laws) write_nothing
           marker_mesh 300).
  - intros md n. discriminate.
  - vm_compute. lia.
Defined.

End Md6MeshExtras.

(* ===================================================================== *)
(** * More properties of wolfenstein_2_resources.py                      *)
(* ===================================================================== *)

Module Wolf2Extras.

Import Wolf2.
Import ArchiveVocabulary.
Import Wolf2Proofs.
Import Fixtures.
Import MoreFixtures.

(** *** File names *)

Lemma sanitize_char (c : N) :
  (let r x := fun y : N => if (y =? x)%N then chr "_" else y in
   r 34%N (r (chr "*") (r (chr "?") (r (chr "|") (r (chr ":") (r (chr ">")
     (r (chr "<") (r (chr "#") (r (chr "$") c)))))))))
  = if is_illegal c then chr "_" else c.
Proof.
  cbv zeta. unfold is_illegal, illegal_chars. cbn [existsb].
  change (chr "_") with 95%N. change (chr "$") with 36%N.
  change (chr "#") with 35%N. change (chr "<") with 60%N.
  change (chr ">") with 62%N. change (chr ":") with 58%N.
  change (chr "|") with 124%N. change (chr "?") with 63%N.
  change (chr "*") with 42%N.
  repeat match goal with
         | |- context [(?a =? ?b)%N] => destruct (N.eqb_spec a b); subst; cbn
         end; try reflexivity; try lia; try congruence.
Qed.

Lemma sanitize_filename_map (name : pystr) :
  sanitize_filename name = map (fun c => if is_illegal c then chr "_" else c) name.
Proof.
  unfold sanitize_filename, str_replace. rewrite !map_map.
  apply map_ext. intros c. apply sanitize_char.
Qed.

Lemma sanitize_filename_legal (name : pystr) :
  Forall (fun c => is_illegal c = false) (sanitize_filename name).
Proof.
  rewrite sanitize_filename_map. apply Forall_map. apply Forall_forall. intros c _.
  destruct (is_illegal c) eqn:E; [reflexivity|assumption].
Qed.

(** X11.  [sanitize_filename] replaces each of the nine characters
    [$ # < > : | ? *] and the double quote by an underscore and leaves
    every other character as it is; its result holds none of the nine,
    and sanitizing it again changes nothing. *)
Theorem sanitize_filename_replaces_illegal (name : pystr) :
  sanitize_filename name = map (fun c => if is_illegal c then chr "_" else c) name
  /\ Forall (fun c => is_illegal c = false) (sanitize_filename name)
  /\ sanitize_filename (sanitize_filename name) = sanitize_filename name.
Proof.
  split; [apply sanitize_filename_map|]. split; [apply sanitize_filename_legal|].
  rewrite (sanitize_filename_map (sanitize_filename name)).
  rewrite <- (map_id (sanitize_filename name)) at 2.
  apply map_ext_Forall. eapply Forall_impl; [|apply sanitize_filename_legal].
  intros c Hc. cbn beta. rewrite Hc. reflexivity.
Qed.

Lemma length_split_head (sep s : pystr) :
  (List.length (split_head sep s) <= List.length s)%nat.
Proof.
  induction s as [|c t IH]; cbn [split_head].
  - destruct (starts_with sep []); cbn; lia.
  - destruct (starts_with sep (c :: t)); cbn [List.length]; lia.
Qed.

Lemma rsplit1_spec (c : N) (s before after : pystr) :
  rsplit1 c s = Some (before, after) ->
  s = before ++ c :: after /\ ~ In c after.
Proof.
  revert before after. induction s as [|x t IH]; intros before after H;
    cbn [rsplit1] in H; [discriminate|].
  destruct (rsplit1 c t) as [[b a]|] eqn:E.
  - injection H as <- <-. destruct (IH _ _ eq_refl) as [-> Hn].
    split; [reflexivity|assumption].
  - destruct (N.eqb_spec x c) as [->|Hne]; [|discriminate].
    injection H as <- <-. split; [reflexivity|].
    clear IH. revert E. induction t as [|y t IHt]; cbn [rsplit1]; [intros _ []|].
    destruct (rsplit1 c t) as [[b a]|]; [discriminate|].
    destruct (N.eqb_spec y c) as [->|Hne]; [discriminate|].
    intros _ [H|H]; [congruence|]. apply IHt; [reflexivity|assumption].
Qed.

(** X12.  The name stored for a string of the table holds none of the nine
    illegal characters and is not longer than the string read. *)
Theorem clean_name_is_legal_and_no_longer (name : pystr) :
  Forall (fun c => is_illegal c = false) (clean_name name)
  /\ (List.length (clean_name name) <= List.length name)%nat.
Proof.
  unfold clean_name. split; [apply sanitize_filename_legal|].
  rewrite sanitize_filename_map, length_map.
  set (n1 := if str_contains (lit "_lodgroup=") name
             then split_head (lit "_lodgroup=") name else name).
  set (n2 := if str_contains (lit "_streamdb=") n1
             then split_head (lit "_streamdb=") n1 else n1).
  set (n3 := if str_contains (lit "_group=") n2
             then split_head (lit "_group=") n2 else n2).
  assert (H1 : (List.length n1 <= List.length name)%nat).
  { subst n1. destruct (str_contains _ name); [apply length_split_head|lia]. }
  assert (H2 : (List.length n2 <= List.length n1)%nat).
  { subst n2. destruct (str_contains _ n1); [apply length_split_head|lia]. }
  assert (H3 : (List.length n3 <= List.length n2)%nat).
  { subst n3. destruct (str_contains _ n2); [apply length_split_head|lia]. }
  clearbody n1 n2 n3.
  destruct (str_contains (lit ".") n3); [|lia].
  destruct (rsplit1 (chr ".") n3) as [[basename extension]|] eqn:E; [|lia].
  apply rsplit1_spec in E as [E _].
  assert (L3 : List.length n3
               = (List.length basename + S (List.length extension))%nat)
    by (rewrite E, length_app; reflexivity).
  rewrite !length_app. change (List.length (lit ".")) with 1%nat.
  match goal with
  | |- (_ + (1 + List.length ?e) <= _)%nat =>
      assert (He : (List.length e <= List.length extension)%nat)
        by (destruct (str_contains _ extension); [apply length_split_head|lia])
  end.
  lia.
Qed.

Lemma str_contains_char (c : N) (s : pystr) :
  str_contains [c] s = true <-> In c s.
Proof.
  induction s as [|x t IH]; cbn [str_contains starts_with].
  - split; [discriminate|intros []].
  - rewrite orb_true_iff, IH. destruct t; cbn [starts_with];
      rewrite andb_true_r, N.eqb_eq; cbn [In]; intuition congruence.
Qed.

(** X13.  A file is skipped as garbage exactly when its name holds no
    slash, no backslash and no dot, and its size is below 100. *)
Theorem garbage_iff_small_plain_name (filename : pystr) (sz : Z) :
  is_garbage_file filename sz = true
  <-> ~ In (chr "/") filename /\ ~ In (chr "\") filename
      /\ ~ In (chr ".") filename /\ sz < 100.
Proof.
  unfold is_garbage_file. cbn [EXTRACT_GARBAGE negb].
  change (lit "/") with [chr "/"]. change (lit "\") with [chr "\"].
  change (lit ".") with [chr "."].
  pose proof (str_contains_char (chr "/") filename) as H1.
  pose proof (str_contains_char (chr "\") filename) as H2.
  pose proof (str_contains_char (chr ".") filename) as H3.
  destruct (str_contains [chr "/"] filename), (str_contains [chr "\"] filename),
    (str_contains [chr "."] filename); cbn [negb andb];
    destruct (Z.ltb_spec sz 100); intuition (try discriminate; try lia).
Qed.

(** *** The sequential names *)

Lemma decimal_value_acc (d : Decimal.uint) (acc : positive) :
  fold_left (fun a c => (10 * a + (c - 48))%N) (lit (NilEmpty.string_of_uint d))
            (Npos acc)
  = Npos (Pos.of_uint_acc d acc).
Proof.
  revert acc. unfold lit.
  induction d; intros acc;
    cbn [NilEmpty.string_of_uint list_ascii_of_string map fold_left Pos.of_uint_acc];
    [reflexivity|..];
    rewrite <- IHd; f_equal; try reflexivity;
    simpl (N_of_ascii _); lia.
Qed.

Lemma decimal_value_uint (d : Decimal.uint) :
  decimal_value (lit (NilEmpty.string_of_uint d)) = N.of_uint d.
Proof.
  unfold decimal_value, N.of_uint.
  induction d;
    cbn [NilEmpty.string_of_uint list_ascii_of_string map fold_left Pos.of_uint lit];
    [reflexivity|exact IHd|..];
    rewrite <- decimal_value_acc; reflexivity.
Qed.

Lemma decimal_value_digits (n : N) :
  decimal_value (lit (NilZero.string_of_uint (N.to_uint n))) = n.
Proof.
  rewrite <- (DecimalN.Unsigned.of_to n) at 2.
  destruct (N.to_uint n) eqn:E; rewrite <- decimal_value_uint; reflexivity.
Qed.

Lemma decimal_value_zfill (k : nat) (digits : pystr) :
  decimal_value (zfill k digits) = decimal_value digits.
Proof.
  unfold zfill, decimal_value. rewrite fold_left_app.
  f_equal. induction (k - List.length digits)%nat as [|m IH]; [reflexivity|].
  cbn [repeat fold_left]. exact IH.
Qed.

(** X14.  Two different record indices, neither negative, give different
    sequential names [file_<index>.dat]. *)
Theorem sequential_names_are_distinct (i j : Z) :
  0 <= i -> 0 <= j -> i <> j ->
  make_filename i [] <> make_filename j [].
Proof.
  intros Hi Hj Hne H. apply Hne. rewrite !synthetic_filename in H.
  apply app_inv_head in H. apply app_inv_tail in H.
  apply (f_equal decimal_value) in H. unfold format_08d in H.
  replace (i <? 0) with false in H by (symmetry; apply Z.ltb_ge; lia).
  replace (j <? 0) with false in H by (symmetry; apply Z.ltb_ge; lia).
  rewrite !decimal_value_zfill, !decimal_value_digits in H. lia.
Qed.

(** *** ASCII names *)

Lemma utf8_decode_ascii (h : decode_errors) (bs : bytes) :
  Forall (fun b => byte_val b < 128) bs ->
  utf8_decode h bs = map ascii_code bs.
Proof.
  induction 1 as [|b t Hb _ IH]; [reflexivity|].
  cbn [utf8_decode map]. cbv zeta.
  replace (byte_val b <? 128) with true by (symmetry; apply Z.ltb_lt; assumption).
  rewrite IH. reflexivity.
Qed.

(** *** Lists updated by index *)

Lemma firstn_list_update {A : Type} (l : list A) (n : nat) (x : A) :
  (n < List.length l)%nat ->
  firstn (S n) (list_update l n x) = firstn n l ++ [x].
Proof.
  revert n. induction l as [|h t IH]; intros [|n] H; cbn [List.length] in H;
    try lia; [reflexivity|].
  cbn [list_update]. rewrite firstn_cons. rewrite IH by lia. reflexivity.
Qed.

Lemma skipn_list_update {A : Type} (l : list A) (n k : nat) (x : A) :
  (n < k)%nat -> skipn k (list_update l n x) = skipn k l.
Proof.
  revert n k. induction l as [|h t IH]; intros [|n] [|k] H; try lia;
    try reflexivity.
  cbn [list_update skipn]. apply IH. lia.
Qed.

(** *** Counting the files written *)

Lemma count_writes_app (t1 t2 : list event) :
  count_writes (t1 ++ t2) = (count_writes t1 + count_writes t2)%nat.
Proof. unfold count_writes. rewrite filter_app, length_app. reflexivity. Qed.

Create HintDb quiet.

Section ExtractorExtras.
Context {FS : FileSystem}.
Variable OODLE_AVAILABLE : bool.
Variable oodle_decompress : option (bytes -> Z -> result bytes).

Notation "x <- c ;; k" := (bind c (fun x => k))
  (at level 61, c at next level, right associativity).
Notation "c ;;; k" := (bind c (fun _ => k))
  (at level 61, right associativity).

(** *** Reads that fit in the file *)

Lemma bind_read_fits {B : Type} (k : Z) (K : bytes -> M B) w p :
  0 <= k < 2 ^ 63 ->
  (p + Z.to_nat k <= List.length (f_bytes w))%nat ->
  bind (f_read k) K (set_pos w p)
  = K (firstn (Z.to_nat k) (skipn p (f_bytes w))) (set_pos w (p + Z.to_nat k)).
Proof.
  intros Hk Hfit. unfold bind. rewrite f_read_in_range by assumption.
  unfold unread. cbn [f_pos f_bytes set_pos].
  rewrite length_firstn, length_skipn, Nat.min_l by lia. reflexivity.
Qed.

Lemma read_u32_spec w :
  read_u32 w =
    (if (4 <=? List.length (unread w))%nat
     then Ok (int_from_le (firstn 4 (unread w)))
     else Raise StructError,
     advance w 4).
Proof.
  unfold read_u32, bind. rewrite f_read_advance by lia.
  unfold lift, unpack_I, len. rewrite length_firstn.
  change (Z.to_nat 4) with 4%nat.
  destruct (4 <=? List.length (unread w))%nat eqn:E.
  - apply Nat.leb_le in E. rewrite Nat.min_l by assumption. reflexivity.
  - apply Nat.leb_gt in E. rewrite Nat.min_r by lia.
    replace (Z.of_nat (List.length (unread w)) =? 4) with false
      by (symmetry; apply Z.eqb_neq; lia).
    reflexivity.
Qed.

Lemma bind_u32_fits {B : Type} (K : Z -> M B) w p :
  (p + 4 <= List.length (f_bytes w))%nat ->
  bind read_u32 K (set_pos w p)
  = K (uint_at 4 (f_bytes w) p) (set_pos w (p + 4)).
Proof.
  intros Hfit. unfold bind. rewrite read_u32_spec, length_unread_set_pos.
  replace (4 <=? _)%nat with true by (symmetry; apply Nat.leb_le; lia).
  rewrite advance_set_pos, Nat.min_l by lia. reflexivity.
Qed.

Lemma bind_u64_fits {B : Type} (K : Z -> M B) w p :
  (p + 8 <= List.length (f_bytes w))%nat ->
  bind read_u64 K (set_pos w p)
  = K (uint_at 8 (f_bytes w) p) (set_pos w (p + 8)).
Proof.
  intros Hfit. unfold bind. rewrite read_u64_spec, length_unread_set_pos.
  replace (8 <=? _)%nat with true by (symmetry; apply Nat.leb_le; lia).
  rewrite advance_set_pos, Nat.min_l by lia. reflexivity.
Qed.

(** *** What can be raised *)

Lemma only_struct_error_bind {A B : Type} (m : M A) (k : A -> M B) :
  only_struct_error m -> (forall a, only_struct_error (k a)) ->
  only_struct_error (bind m k).
Proof.
  intros Hm Hk w e w' H. unfold bind in H.
  destruct (m w) as [[a|e1] w1] eqn:E.
  - eapply Hk. exact H.
  - injection H as <- <-. eapply Hm. exact E.
Qed.

Lemma only_struct_error_read k :
  0 <= k < 2 ^ 63 -> only_struct_error (f_read k).
Proof.
  intros Hk w e w' H. rewrite f_read_in_range in H by assumption. discriminate.
Qed.

Lemma only_struct_error_u32 : only_struct_error read_u32.
Proof.
  intros w e w' H. rewrite read_u32_spec in H.
  destruct (_ <=? _)%nat; [discriminate|]. injection H as <- _. reflexivity.
Qed.

Lemma only_struct_error_u64 : only_struct_error read_u64.
Proof.
  intros w e w' H. rewrite read_u64_spec in H.
  destruct (_ <=? _)%nat; [discriminate|]. injection H as <- _. reflexivity.
Qed.

Lemma only_struct_error_ret {A : Type} (a : A) : only_struct_error (ret a).
Proof. intros w e w' H. discriminate. Qed.

Ltac struct_only :=
  repeat first
    [ apply only_struct_error_ret
    | apply only_struct_error_u32
    | apply only_struct_error_u64
    | apply only_struct_error_read; lia
    | apply only_struct_error_bind; [|intros ?] ].

Lemma read_record_only_struct_error : only_struct_error read_record.
Proof. unfold read_record. struct_only. Qed.

Lemma read_header_only_struct_error : only_struct_error read_header.
Proof. unfold read_header. struct_only. Qed.

(** *** The fixed layouts *)

Ltac fits_step :=
  first
    [ rewrite bind_u32_fits by lia
    | rewrite bind_u64_fits by lia
    | rewrite bind_read_fits by lia ];
  cbv beta.

Ltac layout_eq :=
  f_equal; [f_equal; f_equal; try reflexivity; f_equal; lia | f_equal; lia].

Lemma read_header_fits w :
  (f_pos w + 116 <= List.length (f_bytes w))%nat ->
  read_header w = (Ok (header_at (f_bytes w) (f_pos w)), set_pos w (f_pos w + 116)).
Proof.
  intros Hfit. rewrite <- (set_pos_same w) at 1. unfold read_header.
  do 19 fits_step.
  unfold ret, header_at. layout_eq.
Qed.

Lemma read_record_fits w :
  (f_pos w + 144 <= List.length (f_bytes w))%nat ->
  read_record w = (Ok (record_at (f_bytes w) (f_pos w)), set_pos w (f_pos w + 144)).
Proof.
  intros Hfit. rewrite <- (set_pos_same w) at 1. unfold read_record.
  do 21 fits_step.
  unfold ret, record_at. layout_eq.
Qed.

Lemma bind_read_any {B : Type} (k : Z) (K : bytes -> M B) w p :
  0 <= k < 2 ^ 63 ->
  bind (f_read k) K (set_pos w p)
  = K (firstn (Z.to_nat k) (skipn p (f_bytes w)))
      (set_pos w (p + Nat.min (Z.to_nat k) (List.length (f_bytes w) - p))).
Proof.
  intros Hk. unfold bind. rewrite f_read_advance by assumption.
  rewrite advance_set_pos. reflexivity.
Qed.

(** The record is decoded as soon as its first 120 bytes are there. *)
Lemma read_record_fits_120 w :
  (f_pos w + 120 <= List.length (f_bytes w))%nat ->
  read_record w
  = (Ok (record_at (f_bytes w) (f_pos w)),
     set_pos w (Nat.min (f_pos w + 144) (List.length (f_bytes w)))).
Proof.
  intros Hfit. rewrite <- (set_pos_same w) at 1. unfold read_record.
  do 17 fits_step.
  do 4 (rewrite bind_read_any by lia; cbv beta).
  unfold ret, record_at. layout_eq.
Qed.

(** One read of a fixed layout that succeeded: the world stays
    [set_pos w p] for a new position [p], kept with its equation. *)
Ltac layout_step H :=
  match type of H with
  | bind (f_read ?k) _ (set_pos ?w ?p) = (Ok _, _) =>
      unfold bind at 1 in H;
      rewrite (f_read_advance k (set_pos w p)) in H by lia;
      rewrite (advance_set_pos w p) in H;
      let kn := eval compute in (Z.to_nat k) in
      change (Z.to_nat k) with kn in H;
      let q := fresh "p" in
      let Eq := fresh "Ep" in
      remember (p + Nat.min kn (List.length (f_bytes w) - p))%nat as q eqn:Eq in H;
      cbv beta iota in H
  | bind read_u64 _ (set_pos ?w ?p) = (Ok _, _) =>
      unfold bind at 1 in H; rewrite (read_u64_spec (set_pos w p)) in H;
      let E := fresh "E" in
      destruct (8 <=? List.length (unread (set_pos w p)))%nat eqn:E;
      [apply Nat.leb_le in E; rewrite length_unread_set_pos in E | discriminate H];
      rewrite (advance_set_pos w p) in H;
      rewrite (Nat.min_l 8 (List.length (f_bytes w) - p)) in H by exact E;
      repeat match goal with
             | Ep : _ = (_ + Nat.min _ _)%nat |- _ => rewrite Nat.min_l in Ep by lia
             end;
      let q := fresh "p" in
      let Eq := fresh "Ep" in
      remember (p + 8)%nat as q eqn:Eq in H;
      cbv beta iota in H
  | bind read_u32 _ (set_pos ?w ?p) = (Ok _, _) =>
      unfold bind at 1 in H; rewrite (read_u32_spec (set_pos w p)) in H;
      let E := fresh "E" in
      destruct (4 <=? List.length (unread (set_pos w p)))%nat eqn:E;
      [apply Nat.leb_le in E; rewrite length_unread_set_pos in E | discriminate H];
      rewrite (advance_set_pos w p) in H;
      rewrite (Nat.min_l 4 (List.length (f_bytes w) - p)) in H by exact E;
      repeat match goal with
             | Ep : _ = (_ + Nat.min _ _)%nat |- _ => rewrite Nat.min_l in Ep by lia
             end;
      let q := fresh "p" in
      let Eq := fresh "Ep" in
      remember (p + 4)%nat as q eqn:Eq in H;
      cbv beta iota in H
  end.

Lemma read_header_inv w hdr w' :
  read_header w = (Ok hdr, w') ->
  (f_pos w + 116 <= List.length (f_bytes w))%nat.
Proof.
  intros H. unfold read_header in H.
  rewrite <- (set_pos_same w) in H at 1.
  remember (f_pos w) as p0 eqn:Ep0 in H.
  repeat layout_step H.
  lia.
Qed.

Lemma raises_struct_error {A : Type} (m : M A) w :
  only_struct_error m ->
  (forall a w', m w <> (Ok a, w')) ->
  fst (m w) = Raise StructError.
Proof.
  intros Hm Hno. destruct (m w) as [[a|e] w'] eqn:E.
  - exfalso. exact (Hno a w' eq_refl).
  - cbn. f_equal. eapply Hm. exact E.
Qed.

(** X15.  After the magic tag the header takes 116 bytes: [read_header]
    returns the fields found at fixed offsets from the cursor when 116
    bytes are left, and then leaves the cursor 116 bytes further; with
    fewer bytes left it raises [struct.error]. *)
Theorem header_fields_at_fixed_offsets w :
  fst (read_header w)
  = (if (f_pos w + 116 <=? List.length (f_bytes w))%nat
     then Ok (header_at (f_bytes w) (f_pos w))
     else Raise StructError)
  /\ (forall hdr w', read_header w = (Ok hdr, w') ->
                     w' = set_pos w (f_pos w + 116)).
Proof.
  split.
  - destruct (Nat.leb_spec (f_pos w + 116) (List.length (f_bytes w))) as [Hfit|Hshort].
    + rewrite read_header_fits by assumption. reflexivity.
    + apply raises_struct_error; [apply read_header_only_struct_error|].
      intros hdr w' H. apply read_header_inv in H. lia.
  - intros hdr w' H. apply read_header_inv in H as Hfit.
    rewrite read_header_fits in H by assumption. congruence.
Qed.

(** X16.  A record's fields lie in its first 120 bytes: [read_record]
    returns the six fields found at fixed offsets from the cursor when
    120 bytes are left, and raises [struct.error] with fewer; after a
    record is read the cursor is 144 bytes further, or at the end of the
    file. *)
Theorem record_fields_at_fixed_offsets w :
  fst (read_record w)
  = (if (f_pos w + 120 <=? List.length (f_bytes w))%nat
     then Ok (record_at (f_bytes w) (f_pos w))
     else Raise StructError)
  /\ (forall rec w', read_record w = (Ok rec, w') ->
                     w' = set_pos w (Nat.min (f_pos w + 144) (List.length (f_bytes w)))).
Proof.
  split.
  - destruct (Nat.leb_spec (f_pos w + 120) (List.length (f_bytes w))) as [Hfit|Hshort].
    + rewrite read_record_fits_120 by assumption. reflexivity.
    + apply raises_struct_error; [apply read_record_only_struct_error|].
      intros rec w' H. apply read_record_inv in H. lia.
  - intros rec w' H. apply read_record_inv in H. tauto.
Qed.

(** *** The magic tag *)

Lemma bytes_eqb_neq (a b : bytes) : a <> b -> bytes_eqb a b = false.
Proof.
  intros H. unfold bytes_eqb. destruct (list_eq_dec _ a b); [contradiction|reflexivity].
Qed.

(** X17.  On a file that does not start with [IDCL], [extract_resources]
    makes the output directory, reads the tag, and returns: no file is
    written, the decompressor is not called, and the only error that can
    come out is the one of making the directory. *)
Theorem wrong_magic_extracts_nothing filepath w :
  firstn 4 (unread w) <> blit "IDCL" ->
  extract_resources OODLE_AVAILABLE oodle_decompress filepath w
  = match fs_makedirs (w_fs w) (path_stem filepath) with
    | Ok fs' =>
        (Ok None,
         mkWorld (f_bytes w)
                 (f_pos w + Nat.min 4 (List.length (f_bytes w) - f_pos w))
                 fs' (w_trace w))
    | Raise e => (Raise e, w)
    end.
Proof.
  intros Hmagic. unfold extract_resources. unfold bind at 1. unfold makedirs.
  destruct (fs_makedirs (w_fs w) (path_stem filepath)) as [fs'|e]; [|reflexivity].
  unfold bind at 1. rewrite f_read_advance by lia.
  change (Z.to_nat 4) with 4%nat.
  change (unread (mkWorld (f_bytes w) (f_pos w) fs' (w_trace w))) with (unread w).
  rewrite bytes_eqb_neq by assumption. reflexivity.
Qed.

(** *** Decompression *)



(** X19.  When the decompressor returns but writing the decompressed file
    raises, the error is caught like a decompression failure: the
    compressed bytes are written to the output path with the suffix
    [.compressed]. *)
Theorem write_error_after_decompression_falls_back
  output_path sz data decompress out e w :
  OODLE_AVAILABLE = true ->
  oodle_decompress = Some decompress ->
  decompress data sz = Ok out ->
  fs_write (w_fs w) output_path out = Raise e ->
  store_compressed OODLE_AVAILABLE oodle_decompress output_path sz data w
  = write_file (output_path ++ lit ".compressed") data
      (mkWorld (f_bytes w) (f_pos w) (w_fs w)
               (w_trace w ++ [EvDecompress data sz])).
Proof.
  intros Hav Hd Hout Hw. unfold store_compressed. rewrite Hav, Hd.
  unfold try_except, bind, call_decompress. rewrite Hout.
  unfold write_file at 1. cbn [w_fs f_bytes f_pos w_trace]. rewrite Hw.
  reflexivity.
Qed.

(** *** The 12-byte header on a span shorter than 12 bytes *)



(** X21.  A name made of ASCII bytes is returned by [read_cstring] byte for
    byte, up to the null byte or the end of the file. *)
Theorem ascii_name_read_byte_for_byte w :
  Forall (fun b => byte_val b < 128) (until_null (unread w)) ->
  read_cstring w
  = (Ok (map ascii_code (until_null (unread w))),
     set_pos w (f_pos w + cstring_span (unread w))).
Proof.
  intros Hascii. unfold read_cstring. fold (unread w).
  rewrite read_cstring_loop_spec by lia. cbn [List.concat app].
  rewrite utf8_decode_ascii by assumption. reflexivity.
Qed.

(** *** The type entry of the indirection table *)


(** *** The string table *)

Lemma read_name_offsets_fits count : forall acc w p,
  (p + 8 * count <= List.length (f_bytes w))%nat ->
  read_name_offsets count acc (set_pos w p)
  = (Ok (acc ++ map (fun k => uint_at 8 (f_bytes w) (p + 8 * k)) (seq 0 count)),
     set_pos w (p + 8 * count)).
Proof.
  induction count as [|count IH]; intros acc w p Hfit; cbn [read_name_offsets].
  - unfold ret. cbn [seq map]. rewrite app_nil_r. do 2 f_equal. lia.
  - rewrite bind_u64_fits by lia. rewrite IH by lia.
    f_equal; [|f_equal; lia]. f_equal. rewrite <- app_assoc. f_equal.
    cbn [seq map app]. f_equal; [f_equal; lia|].
    rewrite <- seq_shift, map_map. apply map_ext. intros k. f_equal. lia.
Qed.

Lemma read_name_offsets_short count : forall acc w,
  (0 < count)%nat ->
  (List.length (f_bytes w) < f_pos w + 8 * count)%nat ->
  fst (read_name_offsets count acc w) = Raise StructError.
Proof.
  induction count as [|count IH]; intros acc w Hc Hshort; [lia|].
  cbn [read_name_offsets]. unfold bind. rewrite read_u64_spec.
  rewrite length_unread.
  destruct (Nat.leb_spec 8 (List.length (f_bytes w) - f_pos w)) as [Hfit|Hno];
    [|reflexivity].
  destruct count as [|count]; [lia|].
  apply IH; [lia|]. rewrite f_bytes_advance, f_pos_advance. lia.
Qed.

(** X23.  [read_name_offsets] returns the [count] 64-bit values that follow
    the cursor, in order, when they are all in the file; it raises
    [struct.error] when they are not. *)
Theorem name_offsets_follow_the_count count w :
  fst (read_name_offsets count [] w)
  = if (count =? 0)%nat || (f_pos w + 8 * count <=? List.length (f_bytes w))%nat
    then Ok (map (fun k => uint_at 8 (f_bytes w) (f_pos w + 8 * k)%nat) (seq 0 count))
    else Raise StructError.
Proof.
  destruct count as [|count]; [reflexivity|]. cbn [Nat.eqb orb].
  destruct (Nat.leb_spec (f_pos w + 8 * S count) (List.length (f_bytes w)))
    as [Hfit|Hshort].
  - rewrite <- (set_pos_same w) at 1.
    rewrite read_name_offsets_fits by assumption. reflexivity.
  - apply read_name_offsets_short; lia.
Qed.

Lemma read_names_spec names_base offs : forall i names w,
  0 <= i -> i + len offs <= len names ->
  Forall (fun off => 0 <= names_base + off < 2 ^ 63) offs ->
  exists w',
    read_names names_base offs i names w
    = (Ok (firstn (Z.to_nat i) names
           ++ map (fun off => clean_name
                                (cstring_at (f_bytes w) (Z.to_nat (names_base + off))))
                  offs
           ++ skipn (Z.to_nat i + List.length offs) names),
       w')
    /\ f_bytes w' = f_bytes w /\ w_fs w' = w_fs w /\ w_trace w' = w_trace w.
Proof.
  induction offs as [|off rest IH]; intros i names w Hi Hlen Hoffs;
    cbn [read_names].
  - exists w. unfold ret. cbn [map app List.length]. rewrite Nat.add_0_r.
    rewrite firstn_skipn. auto.
  - inversion Hoffs as [|? ? Hoff Hrest]; subst.
    unfold len in Hlen. cbn [List.length] in Hlen.
    unfold bind at 1. rewrite f_seek_in_range by assumption.
    unfold bind at 1. unfold read_cstring.
    match goal with |- context [read_cstring_loop ?f [] ?W] =>
      rewrite (read_cstring_loop_spec f [] W) by (unfold unread; lia)
    end.
    cbn [List.concat app].
    unfold bind at 1. unfold lift at 1. unfold py_setitem.
    replace (i <? 0) with false by (symmetry; apply Z.ltb_ge; lia).
    replace (0 <=? i) with true by (symmetry; apply Z.leb_le; lia).
    replace (i <? len names) with true by (symmetry; apply Z.ltb_lt; unfold len; lia).
    cbn [andb].
    match goal with |- context [read_names _ rest (i + 1) ?N ?W] =>
      destruct (IH (i + 1) N W) as (w' & E & Hb & Hf & Ht);
        [lia|unfold len; rewrite length_list_update; lia|assumption|]
    end.
    exists w'. rewrite E. cbn [f_bytes f_pos w_fs w_trace set_pos] in *.
    split; [|auto].
    f_equal. f_equal.
    replace (Z.to_nat (i + 1)) with (S (Z.to_nat i)) by lia.
    rewrite firstn_list_update by lia.
    rewrite skipn_list_update by lia.
    rewrite <- app_assoc. cbn [map app List.length].
    unfold cstring_at, unread. cbn [f_bytes f_pos set_pos].
    replace (S (Z.to_nat i) + List.length rest)%nat
      with (Z.to_nat i + S (List.length rest))%nat by lia.
    reflexivity.
Qed.

(** X24.  The string table the extractor builds holds, for each offset, the
    cleaned C string found at the strings' base plus that offset, in the
    order of the offsets. *)
Theorem names_are_cleaned_cstrings names_base offs w :
  Forall (fun off => 0 <= names_base + off < 2 ^ 63) offs ->
  fst (read_names names_base offs 0 (repeat [] (List.length offs)) w)
  = Ok (map (fun off => clean_name
                          (cstring_at (f_bytes w) (Z.to_nat (names_base + off))))
            offs).
Proof.
  intros Hoffs.
  destruct (read_names_spec names_base offs 0 (repeat [] (List.length offs)) w)
    as (w' & E & _); [lia|unfold len; rewrite repeat_length; lia|assumption|].
  rewrite E. cbn [fst Z.to_nat firstn app Nat.add]. f_equal.
  rewrite skipn_all2 by (rewrite repeat_length; lia). apply app_nil_r.
Qed.

(** *** What reads and seeks leave alone *)

Lemma quiet_ret {A : Type} (a : A) : quiet (ret a).
Proof. intros w r w' H. injection H as _ <-. auto. Qed.

Lemma quiet_lift {A : Type} (x : result A) : quiet (lift x).
Proof. intros w r w' H. injection H as _ <-. auto. Qed.

Lemma quiet_bind {A B : Type} (m : M A) (k : A -> M B) :
  quiet m -> (forall a, quiet (k a)) -> quiet (bind m k).
Proof.
  intros Hm Hk w r w' H. unfold bind in H.
  destruct (m w) as [[a|e] w1] eqn:E; apply Hm in E as (Hb & Ht).
  - apply Hk in H as (Hb' & Ht'). split; congruence.
  - injection H as _ <-. auto.
Qed.

Lemma quiet_read k : quiet (f_read k).
Proof.
  intros w r w' H. unfold f_read in H.
  destruct (k <? -1); [injection H as _ <-; auto|].
  destruct (2 ^ 63 <=? k); injection H as _ <-; auto.
Qed.

Lemma quiet_seek off : quiet (f_seek off).
Proof.
  intros w r w' H. apply f_seek_outcome in H as [->| ->]; auto.
Qed.

Lemma quiet_tell : quiet f_tell.
Proof. intros w r w' H. injection H as _ <-. auto. Qed.

Lemma quiet_makedirs p : quiet (makedirs p).
Proof.
  intros w r w' H. unfold makedirs in H.
  destruct (fs_makedirs _ _); injection H as _ <-; auto.
Qed.

#[local] Hint Resolve quiet_ret quiet_lift quiet_read quiet_seek quiet_tell
  quiet_makedirs : quiet.

Ltac quiet_steps :=
  repeat first
    [ apply quiet_bind; [|intros ?]
    | solve [auto with quiet] ].

Lemma quiet_u32 : quiet read_u32.
Proof. unfold read_u32. quiet_steps. Qed.

Lemma quiet_u64 : quiet read_u64.
Proof. unfold read_u64. quiet_steps. Qed.

#[local] Hint Resolve quiet_u32 quiet_u64 : quiet.

Lemma quiet_read_header : quiet read_header.
Proof. unfold read_header. quiet_steps. Qed.

Lemma quiet_read_record : quiet read_record.
Proof. unfold read_record. quiet_steps. Qed.

Lemma quiet_read_name_offsets count : forall acc,
  quiet (read_name_offsets count acc).
Proof.
  induction count as [|count IH]; intros acc; cbn [read_name_offsets];
    quiet_steps.
Qed.

Lemma quiet_read_cstring : quiet read_cstring.
Proof.
  intros w r w' H. unfold read_cstring in H.
  rewrite read_cstring_loop_spec in H by (unfold unread; lia).
  injection H as _ <-. auto.
Qed.

#[local] Hint Resolve quiet_read_header quiet_read_record quiet_read_name_offsets
  quiet_read_cstring : quiet.

Lemma quiet_read_names names_base offs : forall i names,
  quiet (read_names names_base offs i names).
Proof.
  induction offs as [|off rest IH]; intros i names; cbn [read_names];
    quiet_steps.
Qed.

Lemma quiet_skip_entries count : quiet (skip_entries count).
Proof.
  induction count as [|count IH]; cbn [skip_entries]; quiet_steps.
Qed.

#[local] Hint Resolve quiet_read_names quiet_skip_entries : quiet.

Lemma quiet_skip_dummy2 d7 d2 : quiet (skip_dummy2 d7 d2).
Proof. unfold skip_dummy2. quiet_steps. Qed.

Lemma quiet_lookup_ids eff rec : quiet (lookup_ids eff rec).
Proof. unfold lookup_ids. quiet_steps. Qed.

Lemma quiet_make_output_path od filename : quiet (make_output_path od filename).
Proof.
  intros w r w' H. apply make_output_path_outcome in H as (Hb & _ & Ht). auto.
Qed.

#[local] Hint Resolve quiet_skip_dummy2 quiet_lookup_ids quiet_make_output_path
  : quiet.

(** *** One file for each record extracted *)

Lemma write_file_counts path data w u w' :
  write_file path data w = (Ok u, w') ->
  f_bytes w' = f_bytes w
  /\ count_writes (w_trace w') = S (count_writes (w_trace w)).
Proof.
  unfold write_file. destruct (fs_write _ _ _); [|discriminate].
  intros H. injection H as _ <-. cbn [f_bytes w_trace].
  rewrite count_writes_app. split; [reflexivity|]. cbn. lia.
Qed.

Lemma store_compressed_counts output_path sz data w u w' :
  store_compressed OODLE_AVAILABLE oodle_decompress output_path sz data w = (Ok u, w') ->
  f_bytes w' = f_bytes w
  /\ count_writes (w_trace w') = S (count_writes (w_trace w)).
Proof.
  unfold store_compressed.
  assert (Hplain : forall W, write_file (output_path ++ lit ".compressed") data W = (Ok u, w') ->
                   f_bytes w' = f_bytes W
                   /\ count_writes (w_trace w') = S (count_writes (w_trace W)))
    by (intros W; apply write_file_counts).
  destruct OODLE_AVAILABLE; [|apply Hplain].
  destruct oodle_decompress as [decompress|]; [|apply Hplain].
  unfold try_except, bind, call_decompress.
  set (W := mkWorld (f_bytes w) (f_pos w) (w_fs w)
                    (w_trace w ++ [EvDecompress data sz])).
  assert (HW : f_bytes W = f_bytes w
               /\ count_writes (w_trace W) = count_writes (w_trace w)).
  { subst W. cbn [f_bytes w_trace]. rewrite count_writes_app. cbn. split; [reflexivity|lia]. }
  destruct HW as (HWb & HWt).
  destruct (decompress data sz) as [out|e].
  - destruct (write_file output_path out W) as [[u1|e1] w1] eqn:E1.
    + intros H. injection H as _ <-. apply write_file_counts in E1 as (Hb & Ht).
      split; congruence.
    + assert (w1 = W).
      { unfold write_file in E1. destruct (fs_write _ _ _); [discriminate|].
        injection E1 as _ <-. reflexivity. }
      subst w1. intros H. apply Hplain in H as (Hb & Ht). split; congruence.
  - intros H. apply Hplain in H as (Hb & Ht). split; congruence.
Qed.

Lemma write_payload_counts output_path rec w u w' :
  write_payload OODLE_AVAILABLE oodle_decompress output_path rec w = (Ok u, w') ->
  f_bytes w' = f_bytes w
  /\ count_writes (w_trace w') = S (count_writes (w_trace w)).
Proof.
  unfold write_payload. intros H.
  apply bind_inv in H as (u1 & w1 & E1 & H). apply quiet_seek in E1 as (Hb1 & Ht1).
  destruct (size rec =? zsize rec).
  - apply bind_inv in H as (d & w2 & E2 & H). apply quiet_read in E2 as (Hb2 & Ht2).
    apply write_file_counts in H as (Hb & Ht). split; congruence.
  - destruct (compressed_span rec) as [ao az].
    apply bind_inv in H as (u2 & w2 & E2 & H). apply quiet_seek in E2 as (Hb2 & Ht2).
    apply bind_inv in H as (d & w3 & E3 & H). apply quiet_read in E3 as (Hb3 & Ht3).
    apply store_compressed_counts in H as (Hb & Ht). split; congruence.
Qed.

Lemma finish_record_counts output_dir rec cur filename w b w' :
  finish_record OODLE_AVAILABLE oodle_decompress output_dir rec cur filename w
    = (Ok b, w') ->
  f_bytes w' = f_bytes w
  /\ count_writes (w_trace w')
     = (count_writes (w_trace w) + if b then 1 else 0)%nat.
Proof.
  unfold finish_record. destruct (is_garbage_file filename (size rec)).
  - intros H. injection H as <- <-. split; [reflexivity|lia].
  - intros H.
    apply bind_inv in H as (op & w1 & E1 & H).
    apply quiet_make_output_path in E1 as (Hb1 & Ht1).
    apply bind_inv in H as (u2 & w2 & E2 & H).
    apply write_payload_counts in E2 as (Hb2 & Ht2).
    apply bind_inv in H as (u3 & w3 & E3 & H).
    apply quiet_seek in E3 as (Hb3 & Ht3).
    injection H as <- <-. split; [congruence|]. rewrite Ht3, Ht2, Ht1. lia.
Qed.

Lemma process_record_counts output_dir names names_count eff i w b w' :
  process_record OODLE_AVAILABLE oodle_decompress output_dir names names_count eff i w
    = (Ok b, w') ->
  f_bytes w' = f_bytes w
  /\ count_writes (w_trace w')
     = (count_writes (w_trace w) + if b then 1 else 0)%nat.
Proof.
  unfold process_record. intros H.
  apply bind_inv in H as (rec & w1 & E1 & H).
  apply quiet_read_record in E1 as (Hb1 & Ht1).
  apply bind_inv in H as ([[cur t] n] & w2 & E2 & H).
  apply quiet_lookup_ids in E2 as (Hb2 & Ht2).
  apply bind_inv in H as (str2 & w3 & E3 & H).
  apply quiet_lift in E3 as (Hb3 & Ht3).
  apply finish_record_counts in H as (Hb & Ht).
  split; [congruence|]. rewrite Ht, Ht3, Ht2, Ht1. reflexivity.
Qed.

Lemma records_loop_counts output_dir names names_count eff count :
  forall i extracted skipped w extracted' skipped' w',
  records_loop OODLE_AVAILABLE oodle_decompress output_dir names names_count eff
               count i extracted skipped w = (Ok (extracted', skipped'), w') ->
  extracted <= extracted' /\ skipped <= skipped'
  /\ (extracted' - extracted) + (skipped' - skipped) = Z.of_nat count
  /\ f_bytes w' = f_bytes w
  /\ count_writes (w_trace w')
     = (count_writes (w_trace w) + Z.to_nat (extracted' - extracted))%nat.
Proof.
  induction count as [|count IH]; intros i e s w e' s' w' H; cbn [records_loop] in H.
  - injection H as <- <- <-. repeat split; try lia.
  - apply bind_inv in H as (b & w1 & E1 & H).
    apply process_record_counts in E1 as (Hb1 & Ht1).
    destruct b; apply IH in H as (He & Hs & Hsum & Hb & Ht);
      (split; [lia|]); (split; [lia|]); (split; [lia|]);
      (split; [congruence|]); rewrite Ht, Ht1; lia.
Qed.

(** X25.  A run of [extract_resources] that completes on an archive has
    counted every record of the header's file count once, as extracted
    or as skipped; it has made exactly one file write for each
    record extracted, and left the archive's bytes as they were. *)
Theorem every_record_counted_once filepath w extracted skipped w' :
  extract_resources OODLE_AVAILABLE oodle_decompress filepath w
    = (Ok (Some (extracted, skipped)), w') ->
  0 <= extracted /\ 0 <= skipped
  /\ extracted + skipped = uint_at 4 (f_bytes w) (f_pos w + 40)
  /\ f_bytes w' = f_bytes w
  /\ count_writes (w_trace w')
     = (count_writes (w_trace w) + Z.to_nat extracted)%nat.
Proof.
  unfold extract_resources. intros H.
  apply bind_inv in H as (u0 & w0 & E0 & H).
  assert (Hp0 : f_pos w0 = f_pos w).
  { unfold makedirs in E0. destruct (fs_makedirs _ _); [|discriminate].
    injection E0 as _ <-. reflexivity. }
  apply quiet_makedirs in E0 as (Hb0 & Ht0).
  apply bind_inv in H as (magic & w1 & E1 & H).
  rewrite f_read_advance in E1 by lia. change (Z.to_nat 4) with 4%nat in E1.
  assert (Hw1 : w1 = advance w0 4) by congruence. clear E1.
  destruct (negb (bytes_eqb magic (blit "IDCL"))); [discriminate|].
  apply bind_inv in H as (hdr & w2 & E2 & H).
  apply read_header_inv in E2 as Hfit.
  pose proof E2 as E2'. rewrite read_header_fits in E2' by exact Hfit.
  assert (Hh : hdr = header_at (f_bytes w1) (f_pos w1)) by congruence.
  clear E2'. apply quiet_read_header in E2 as (Hb2 & Ht2).
  assert (Hb1 : f_bytes w1 = f_bytes w)
    by (rewrite Hw1, f_bytes_advance; exact Hb0).
  assert (Ht1 : w_trace w1 = w_trace w) by (rewrite Hw1; exact Ht0).
  assert (Hfc : files_count hdr = uint_at 4 (f_bytes w) (f_pos w + 40)).
  { rewrite Hh. unfold header_at. cbn [files_count]. rewrite Hb1. f_equal.
    rewrite Hb1 in Hfit. rewrite Hw1, f_pos_advance, Hb0, Hp0 in Hfit |- *.
    lia. }
  rewrite Hfc in H. clear Hfit Hh Hw1.
  apply bind_inv in H as (u3 & w3 & E3 & H). apply quiet_seek in E3 as (Hb3 & Ht3).
  apply bind_inv in H as (nc & w4 & E4 & H). apply quiet_u64 in E4 as (Hb4 & Ht4).
  apply bind_inv in H as (offs & w5 & E5 & H).
  apply quiet_read_name_offsets in E5 as (Hb5 & Ht5).
  apply bind_inv in H as (nb & w6 & E6 & H). apply quiet_tell in E6 as (Hb6 & Ht6).
  apply bind_inv in H as (names & w7 & E7 & H).
  apply quiet_read_names in E7 as (Hb7 & Ht7).
  apply bind_inv in H as (eff & w8 & E8 & H).
  apply quiet_skip_dummy2 in E8 as (Hb8 & Ht8).
  apply bind_inv in H as (u9 & w9 & E9 & H). apply quiet_seek in E9 as (Hb9 & Ht9).
  apply bind_inv in H as ([e s] & w10 & E10 & H).
  injection H as <- <- <-.
  apply records_loop_counts in E10 as (He & Hs & Hsum & Hb & Ht).
  assert (Hnn : 0 <= uint_at 4 (f_bytes w) (f_pos w + 40))
    by (apply int_from_le_nonneg).
  rewrite Z2Nat.id in Hsum by assumption.
  split; [lia|]. split; [lia|]. split; [lia|].
  split; [congruence|].
  rewrite Ht, Ht9, Ht8, Ht7, Ht6, Ht5, Ht4, Ht3, Ht2, Ht1. f_equal. f_equal. lia.
Qed.

End ExtractorExtras.

(** ** The properties on concrete archives *)

(** X14, on records 3 and 4. *)
Lemma sequential_names_are_distinct_witness :
  make_filename 3 [] <> make_filename 4 [].
Proof.
  apply (sequential_names_are_distinct 3 4); lia.
Defined.

(** The header and the first record of [archive_a], read where X15 and X16
    say the fields lie. *)
Example header_of_archive_a :
  header_at archive_a 4
  = mkHeader 7 4 0 2 0 a_names_off 0 a_info_off 0 a_dummy7_off a_data_off
  /\ fst (read_header (archive_at archive_a 4)) = Ok (header_at archive_a 4).
Proof. split; vm_compute; reflexivity. Qed.

Example record0_of_archive_a :
  record_at archive_a (Z.to_nat a_info_off) = record0
  /\ fst (read_record (archive_at archive_a a_info_off)) = Ok record0.
Proof. split; vm_compute; reflexivity. Qed.

(** X17, on a file that starts with [JUNK]. *)
Lemma wrong_magic_extracts_nothing_witness :
  extract_resources false None (lit "out.resources") junk_world
  = match fs_makedirs (w_fs junk_world) (path_stem (lit "out.resources")) with
    | Ok fs' =>
        (Ok None,
         mkWorld (f_bytes junk_world)
                 (f_pos junk_world
                  + Nat.min 4 (List.length (f_bytes junk_world) - f_pos junk_world))
                 fs' (w_trace junk_world))
    | Raise e => (Raise e, junk_world)
    end.
Proof.
  apply (wrong_magic_extracts_nothing (FS := MemFS) false None
           (lit "out.resources") junk_world).
  vm_compute. discriminate.
Defined.


(** X19, where the output path is a directory: the compressed bytes are
    written beside it. *)
Lemma write_error_after_decompression_falls_back_witness :
  store_compressed true (Some oodle_works) (lit "out/a.bin") 3 (blit "zz")
                   blocked_world
  = write_file (lit "out/a.bin" ++ lit ".compressed") (blit "zz")
      (mkWorld (f_bytes blocked_world) (f_pos blocked_world) (w_fs blocked_world)
               (w_trace blocked_world ++ [EvDecompress (blit "zz") 3])).
Proof.
  apply (write_error_after_decompression_falls_back (FS := MemFS) true
           (Some oodle_works) (lit "out/a.bin") 3 (blit "zz") oodle_works
           (repeat x41 3) OSError blocked_world).
  - reflexivity.
  - reflexivity.
  - vm_compute. reflexivity.
  - vm_compute. reflexivity.
Defined.


(** X21, on the name [abc]. *)
Lemma ascii_name_read_byte_for_byte_witness :
  read_cstring ascii_world
  = (Ok (map ascii_code (until_null (unread ascii_world))),
     set_pos ascii_world (f_pos ascii_world + cstring_span (unread ascii_world))).
Proof.
  apply (ascii_name_read_byte_for_byte (FS := MemFS) ascii_world).
  vm_compute. repeat constructor.
Defined.


(** X24, on the string table of [archive_a]. *)
Lemma names_are_cleaned_cstrings_witness :
  fst (read_names a_names_base a_name_offsets 0
                  (repeat [] (List.length a_name_offsets))
                  (open_archive archive_a))
  = Ok (map (fun off => clean_name
                          (cstring_at (f_bytes (open_archive archive_a))
                                      (Z.to_nat (a_names_base + off))))
            a_name_offsets).
Proof.
  apply (names_are_cleaned_cstrings (FS := MemFS) a_names_base a_name_offsets
           (open_archive archive_a)).
  repeat constructor; vm_compute; discriminate || reflexivity.
Defined.

(** The names the table of [archive_a] gives. *)
Example names_of_archive_a :
  map (fun off => clean_name (cstring_at archive_a (Z.to_nat (a_names_base + off))))
      a_name_offsets
  = names_a.
Proof. vm_compute. reflexivity. Qed.

(** X25, on the run on [archive_a] with no decompressor loaded: four
    records, three files written. *)
Lemma every_record_counted_once_witness :
  0 <= 3 /\ 0 <= 1
  /\ 3 + 1 = uint_at 4 (f_bytes (open_archive archive_a))
                     (f_pos (open_archive archive_a) + 40)
  /\ f_bytes (snd run_a_without_oodle) = f_bytes (open_archive archive_a)
  /\ count_writes (w_trace (snd run_a_without_oodle))
     = (count_writes (w_trace (open_archive archive_a)) + Z.to_nat 3)%nat.
Proof.
  apply (every_record_counted_once (FS := MemFS) false None (lit "out.resources")
           (open_archive archive_a) 3 1 (snd run_a_without_oodle)).
  vm_compute. reflexivity.
Defined.

End Wolf2Extras.
